(** * Harmonia: the RFC action ledger and its workflow orchestration

    A shallow embedding of the Go sources
      - [src/models/base.go], the request and the response models
        (package [models]),
      - [src/controllers/controller.go] (package [controllers]),
      - [src/services/git/definition.go] and [github.go] (package [git]),
      - [src/services/set/set.go] and [immutable.go] (package [set]),
    together with the two standard-library services the ledger is built
    on: [crypto/sha256] and the encoder of [encoding/json].

    Conventions of the embedding.
      - A Go [string] is a byte string: [String.string].
      - A Go map is a [gmap]; a [nil] map is [None].  [range] over a map
        visits the entries in an order the language leaves unspecified:
        every such loop takes a [seed] that selects the order.
      - A slice is a list; the [Actions] slice of an RFC keeps its
        nil-ness ([None]) because the encoder prints [null] for it.
      - [Actions] is a slice of pointers.  Every element is taken to be a
        non-nil pointer, as in every RFC the service stores: the signing
        loops of [SubmitRequest] and [UpdateRequest] dereference each
        element before anything is written.
      - A method with a pointer receiver that mutates the receiver
        returns the new receiver next to its Go result.
      - A run-time panic is an outcome of its own, never an [error].
      - A loop over the pages of the API runs on [fuel]: it gives [None]
        when the fuel is spent before the loop ends. *)

From Stdlib Require Import ZArith String Ascii List Lia.
From stdpp Require Import base strings gmap list pretty.

Local Open Scope Z_scope.

(* ===================================================================== *)
(** ** crypto/sha256 *)
(* ===================================================================== *)

Module sha256.

Definition add32 (x y : Z) : Z := (x + y) mod 2 ^ 32.

Definition rotr (n x : Z) : Z :=
  Z.lor (Z.shiftr x n) (Z.land (Z.shiftl x (32 - n)) 0xffffffff).

Definition Ch (x y z : Z) : Z :=
  Z.lxor (Z.land x y) (Z.land (Z.lxor x 0xffffffff) z).

Definition Maj (x y z : Z) : Z :=
  Z.lxor (Z.lxor (Z.land x y) (Z.land x z)) (Z.land y z).

Definition bsig0 (x : Z) : Z :=
  Z.lxor (Z.lxor (rotr 2 x) (rotr 13 x)) (rotr 22 x).

Definition bsig1 (x : Z) : Z :=
  Z.lxor (Z.lxor (rotr 6 x) (rotr 11 x)) (rotr 25 x).

Definition ssig0 (x : Z) : Z :=
  Z.lxor (Z.lxor (rotr 7 x) (rotr 18 x)) (Z.shiftr x 3).

Definition ssig1 (x : Z) : Z :=
  Z.lxor (Z.lxor (rotr 17 x) (rotr 19 x)) (Z.shiftr x 10).

(** The constants are derived as the standard defines them. *)
Definition is_prime (n : Z) : bool :=
  forallb (fun d => negb (n mod d =? 0)) (seqZ 2 (n - 2)).

(** The first [n] primes. *)
Definition primes (n : nat) : list Z :=
  take n (List.filter is_prime (seqZ 2 400)).

(** The integer cube root, one bit at a time from bit [b - 1] down. *)
Fixpoint cbrt_bits (b : nat) (n r : Z) : Z :=
  match b with
  | O => r
  | S b' =>
      let c := r + 2 ^ Z.of_nat b' in
      cbrt_bits b' n (if c * c * c <=? n then c else r)
  end.

(** The first 32 bits of the fractional parts of the cube roots of the
    first 64 primes. *)
Definition K : list Z :=
  Eval vm_compute in
    (fun p => cbrt_bits 40 (p * 2 ^ 96) 0 mod 2 ^ 32) <$> primes 64.

(** The first 32 bits of the fractional parts of the square roots of the
    first 8 primes. *)
Definition H0 : list Z :=
  Eval vm_compute in
    (fun p => Z.sqrt (p * 2 ^ 64) mod 2 ^ 32) <$> primes 8.

(** Big-endian encoding of [x] on [n] bytes. *)
Fixpoint be_bytes (n : nat) (x : Z) : list Z :=
  match n with
  | O => []
  | S n' => be_bytes n' (Z.shiftr x 8) ++ [Z.land x 0xff]
  end.

(** The message, the bit [1], zeros up to 56 modulo 64, the bit length. *)
Definition pad (msg : list Z) : list Z :=
  let len := Z.of_nat (length msg) in
  msg ++ [0x80] ++ replicate (Z.to_nat ((55 - len) mod 64)) 0
      ++ be_bytes 8 (8 * len).

Fixpoint be_words (fuel : nat) (bs : list Z) : list Z :=
  match fuel, bs with
  | S fuel', b0 :: b1 :: b2 :: b3 :: rest =>
      (Z.shiftl b0 24 + Z.shiftl b1 16 + Z.shiftl b2 8 + b3)
        :: be_words fuel' rest
  | _, _ => []
  end.

(** The message schedule, most recent word first. *)
Fixpoint extend (n : nat) (w : list Z) : list Z :=
  match n with
  | O => w
  | S n' =>
      let x := add32 (add32 (ssig1 (nth 1 w 0)) (nth 6 w 0))
                     (add32 (ssig0 (nth 14 w 0)) (nth 15 w 0)) in
      extend n' (x :: w)
  end.

Definition schedule (block : list Z) : list Z :=
  rev (extend 48 (rev block)).

Definition round (s : list Z) (kw : Z * Z) : list Z :=
  match s with
  | [a; b; c; d; e; f; g; h] =>
      let t1 :=
        add32 (add32 (add32 h (bsig1 e)) (add32 (Ch e f g) kw.1)) kw.2 in
      let t2 := add32 (bsig0 a) (Maj a b c) in
      [add32 t1 t2; a; b; c; add32 d t1; e; f; g]
  | _ => s
  end.

Definition compress (h : list Z) (block : list Z) : list Z :=
  zip_with add32 h (fold_left round (zip K (schedule block)) h).

Fixpoint blocks (fuel : nat) (ws : list Z) : list (list Z) :=
  match fuel, ws with
  | S fuel', _ :: _ => take 16 ws :: blocks fuel' (drop 16 ws)
  | _, _ => []
  end.

Definition digest (msg : list Z) : list Z :=
  let ws := be_words (length msg + 72) (pad msg) in
  fold_left compress (blocks (length ws) ws) H0.

Definition hex_digit (n : Z) : ascii :=
  nth (Z.to_nat n) (list_ascii_of_string "0123456789abcdef") "0"%char.

Fixpoint hex (n : nat) (x : Z) : list ascii :=
  match n with
  | O => []
  | S n' => hex n' (Z.shiftr x 4) ++ [hex_digit (Z.land x 0xf)]
  end.

Definition bytes_of_string (s : string) : list Z :=
  (fun c => Z.of_N (N_of_ascii c)) <$> list_ascii_of_string s.

(** [h := sha256.New(); h.Write(b); fmt.Sprintf("%x", h.Sum(nil))]:
    the digest of the bytes of [s] in lower-case hexadecimal.  [Write]
    of a hash never returns an error. *)
Definition sum_hex (s : string) : string :=
  string_of_list_ascii (mjoin (hex 8 <$> digest (bytes_of_string s))).

End sha256.

(* ===================================================================== *)
(** ** Errors and results *)
(* ===================================================================== *)

(** Go's [error] values, by origin. *)
Inductive error : Type :=
  | JsonError (what : string)   (* returned by encoding/json *)
  | Errorf (msg : string)       (* built by fmt.Errorf in this repository *)
  | ApiError (msg : string).    (* returned by a hosting-service client *)

#[global] Instance error_eq_dec : EqDecision error.
Proof. solve_decision. Defined.

(** A Go result pair [(value, error)]. *)
Inductive result (A : Type) : Type :=
  | ok (a : A)
  | err (e : error).
Arguments ok {A} a.
Arguments err {A} e.

#[global] Instance result_ret : MRet result := fun A a => ok a.
#[global] Instance result_bind : MBind result := fun A B f r =>
  match r with
  | ok a => f a
  | err e => err e
  end.
#[global] Instance result_fmap : FMap result := fun A B f r =>
  match r with
  | ok a => ok (f a)
  | err e => err e
  end.

Definition is_ok {A} (r : result A) : bool :=
  match r with ok _ => true | err _ => false end.

(* ===================================================================== *)
(** ** encoding/json: the encoder *)
(* ===================================================================== *)

Module json.

(** What an [interface{}] inside a [Data] map can hold.  [VNum] stands
    for an integral number (printed in decimal, as the encoder prints a
    float64 of integral value below 1e21); [VUnsupported] stands for any
    value the encoder refuses (a channel, a function, NaN, ...). *)
#[warnings="-register-all"]
Inductive value : Type :=
  | VNull
  | VBool (b : bool)
  | VNum (n : Z)
  | VStr (s : string)
  | VArr (l : list value)
  | VObj (m : gmap string value)
  | VUnsupported.

Definition dq : string := String "034" EmptyString.

Definition hex2 (n : Z) : string :=
  String (sha256.hex_digit (Z.shiftr n 4))
    (String (sha256.hex_digit (Z.land n 0xf)) EmptyString).

(** One byte below 0x80, with HTML escaping on (the default of
    [json.Marshal]). *)
Definition escape_byte (c : ascii) : string :=
  let n := Z.of_N (N_of_ascii c) in
  if decide (n = 34) then "\" +:+ dq
  else if decide (n = 92) then "\\"
  else if decide (n = 10) then "\n"
  else if decide (n = 13) then "\r"
  else if decide (n = 9) then "\t"
  else if decide (n < 32 ∨ n = 60 ∨ n = 62 ∨ n = 38)
       then "\u00" +:+ hex2 n
  else String c EmptyString.

(** The body of a JSON string.  The input is taken to be valid UTF-8;
    U+2028 and U+2029 (E2 80 A8, E2 80 A9) are the only runes above 0x7f
    that are rewritten. *)
Fixpoint escape (s : string) : string :=
  match s with
  | EmptyString => EmptyString
  | String c s1 =>
      match s1 with
      | String c2 (String c3 s3) =>
          if decide (c = "226"%char ∧ c2 = "128"%char
                     ∧ (c3 = "168"%char ∨ c3 = "169"%char))
          then "\u202"
                 +:+ String (sha256.hex_digit (Z.land (Z.of_N (N_of_ascii c3)) 0xf))
                            (escape s3)
          else escape_byte c +:+ escape s1
      | _ => escape_byte c +:+ escape s1
      end
  end.

Definition quote (s : string) : string := dq +:+ escape s +:+ dq.

(** An object member: the quoted key, a colon, the rendered value. *)
Definition member (k v : string) : string := quote k +:+ ":" +:+ v.

Fixpoint insert_sorted (kv : string * string) (l : list (string * string))
  : list (string * string) :=
  match l with
  | [] => [kv]
  | kv' :: l' =>
      if String.leb kv.1 kv'.1 then kv :: l else kv' :: insert_sorted kv l'
  end.

(** Map keys are sorted (byte-wise) before a map is printed. *)
Definition sort_keys (l : list (string * string)) : list (string * string) :=
  foldr insert_sorted [] l.

Definition object (kvs : list (string * string)) : string :=
  "{" +:+ String.concat "," ((fun kv => member kv.1 kv.2) <$> kvs) +:+ "}".

Definition array (items : list string) : string :=
  "[" +:+ String.concat "," items +:+ "]".

Fixpoint marshal (v : value) : result string :=
  match v with
  | VNull => ok "null"
  | VBool b => ok (if b then "true" else "false")
  | VNum n => ok (pretty n)
  | VStr s => ok (quote s)
  | VArr l =>
      array <$>
        foldr (fun x acc => s ← marshal x; ss ← acc; ok (s :: ss)) (ok []) l
  | VObj m =>
      (fun kvs => object (sort_keys kvs)) <$>
        map_fold (fun k x acc => s ← marshal x; kvs ← acc; ok ((k, s) :: kvs))
                 (ok []) m
  | VUnsupported => err (JsonError "json: unsupported value")
  end.

(** A [map[string]interface{}]. *)
Definition marshal_map (m : gmap string value) : result string :=
  marshal (VObj m).

End json.

(* ===================================================================== *)
(** ** package models (src/models/base.go and the request models) *)
(* ===================================================================== *)

Module models.
Import json.

(** ActionType, DataKey and TargetType are string types. *)
Definition CommentAction : string := "comment".
Definition LoadAction : string := "load".
Definition AddAction : string := "add".

Definition CommentData : string := "comment".
Definition CommenterData : string := "commenter".
Definition NoteData : string := "note".
Definition LoadStatus : string := "status".
Definition LoadRequester : string := "requester".
Definition ReviewerData : string := "reviewer".

Definition ActionTarget : string := "action".
Definition RfcTarget : string := "rfc".
Definition ItemTarget : string := "item".

Definition SignatureLookupKey : string := "signature".

Record Target : Type := mkTarget {
  TargetType : string;        (* json targetType *)
  TargetDescriptor : string;  (* json targetDescriptor *)
  LookupKey : string;         (* json lookupKey,omitempty *)
  LookupValue : string        (* json lookupValue,omitempty *)
}.

Record Action : Type := mkAction {
  ActionType : string;                      (* json actionType *)
  Action_Target : Target;                   (* json target *)
  Action_Signature : string;                (* json signature,omitempty *)
  Data : option (gmap string value)         (* json data,omitempty *)
}.

Record RFC : Type := mkRFC {
  Actions : option (list Action);           (* json actions *)
  RFC_Signature : string;                   (* json signature,omitempty *)
  Identifier : string                       (* json identifier,omitempty *)
}.

(** Incoming request structure for reviews. *)
Record Review : Type := mkReview {
  Review_RFCIdentifier : string;
  Type_ : string;
  TopLevelComment : string;
  Comments : gmap string (list string);
  LoadOnApproval : bool
}.


(** The zero value [Target{}]. *)
Definition zero_Target : Target :=
  mkTarget EmptyString EmptyString EmptyString EmptyString.

(** The elements a [range] over the slice visits. *)
Definition elems (s : option (list Action)) : list Action := default [] s.

Definition set_Action_Signature (sig : string) (a : Action) : Action :=
  mkAction (ActionType a) (Action_Target a) sig (Data a).

Definition set_Data (d : option (gmap string value)) (a : Action) : Action :=
  mkAction (ActionType a) (Action_Target a) (Action_Signature a) d.

Definition set_Actions (acts : option (list Action)) (rfc : RFC) : RFC :=
  mkRFC acts (RFC_Signature rfc) (Identifier rfc).

Definition set_RFC_Signature (sig : string) (rfc : RFC) : RFC :=
  mkRFC (Actions rfc) sig (Identifier rfc).

(** *** json.Marshal on the three structs, field by field *)

(** A member with the [omitempty] option: left out for the empty string. *)
Definition omitempty (k v : string) : list string :=
  if decide (v = EmptyString) then [] else [member k (quote v)].

Definition braces (members : list string) : string :=
  "{" +:+ String.concat "," members +:+ "}".

Definition marshal_Target (t : Target) : string :=
  braces ([ member "targetType" (quote (TargetType t));
            member "targetDescriptor" (quote (TargetDescriptor t)) ]
          ++ omitempty "lookupKey" (LookupKey t)
          ++ omitempty "lookupValue" (LookupValue t)).

(** The [data] member: left out for a nil or an empty map. *)
Definition marshal_Data (d : option (gmap string value)) : result (list string) :=
  match d with
  | None => ok []
  | Some m =>
      if decide (m = ∅) then ok []
      else s ← marshal_map m; ok [member "data" s]
  end.

Definition marshal_Action (a : Action) : result string :=
  d ← marshal_Data (Data a);
  ok (braces ([ member "actionType" (quote (ActionType a));
                member "target" (marshal_Target (Action_Target a)) ]
              ++ omitempty "signature" (Action_Signature a)
              ++ d)).

Definition marshal_Actions (s : option (list Action)) : result string :=
  match s with
  | None => ok "null"
  | Some l =>
      array <$>
        foldr (fun a acc => x ← marshal_Action a; xs ← acc; ok (x :: xs))
              (ok []) l
  end.

Definition marshal_RFC (rfc : RFC) : result string :=
  acts ← marshal_Actions (Actions rfc);
  ok (braces ([ member "actions" acts ]
              ++ omitempty "signature" (RFC_Signature rfc)
              ++ omitempty "identifier" (Identifier rfc))).

(** *** The ledger operations *)

(** ToSha enables an [RFC] to return a SHA256 hash of itself. *)
Definition RFC_ToSha (rfc : RFC) : result string :=
  jsonBytes ← marshal_RFC rfc;
  ok (sha256.sum_hex jsonBytes).

(** ToSha enables an [Action] to return a SHA256 hash of itself. *)
Definition Action_ToSha (action : Action) : result string :=
  jsonBytes ← marshal_Action action;
  ok (sha256.sum_hex jsonBytes).

(** AddPersistentActions adds the actions that are deemed persistent from
    the given old RFC to this RFC. *)
Definition RFC_AddPersistentActions (oldRFC : RFC) (rfc : RFC) : RFC :=
  fold_left
    (fun rfc action =>
       if decide (ActionType action = CommentAction)
       then set_Actions (Some (elems (Actions rfc) ++ [action])) rfc
       else rfc)
    (elems (Actions oldRFC)) rfc.

(** AddAction adds the given action to the actions defined by this RFC.
    The result is the receiver afterwards and the returned error. *)
Definition RFC_AddAction (action : Action) (rfc : RFC) : RFC * option error :=
  match Action_ToSha action with
  | err e => (rfc, Some e)
  | ok actionSha =>
      (set_Actions
         (Some (elems (Actions rfc) ++ [set_Action_Signature actionSha action]))
         rfc,
       None)
  end.

(** [range] over a map: the entries, in the order that [seed] selects. *)
Definition insert_at {A} (i : nat) (x : A) (l : list A) : list A :=
  take i l ++ x :: drop i l.

Fixpoint permute {A} (seed : nat) (l : list A) : list A :=
  match l with
  | [] => []
  | x :: l' =>
      insert_at (seed mod S (length l'))%nat x
                (permute (seed / S (length l'))%nat l')
  end.

Definition range_map {V} (seed : nat) (m : gmap string V) : list (string * V) :=
  permute seed (map_to_list m).

(** [processed[key] = append(processed[key], comment)] *)
Definition append_processed (key : string) (comment : Action)
    (processed : gmap string (list Action)) : gmap string (list Action) :=
  <[key := default [] (processed !! key) ++ [comment]]> processed.

(** The comment built in the first loop of AddComments. *)
Definition action_comment (sig cmt commenter : string) : Action :=
  mkAction CommentAction
    (mkTarget ActionTarget EmptyString SignatureLookupKey sig)
    EmptyString
    (Some {[ CommentData := VStr cmt; CommenterData := VStr commenter ]}).

Definition dangling_note (target : string) : string :=
  "Target with signature " +:+ target +:+ " was not found in this RFC".

(** The comment built in the second loop of AddComments. *)
Definition rfc_comment (rfcSignature target cmt commenter : string) : Action :=
  let comment :=
    mkAction CommentAction
      (mkTarget RfcTarget EmptyString SignatureLookupKey rfcSignature)
      EmptyString
      (Some {[ CommentData := VStr cmt; CommenterData := VStr commenter ]}) in
  if decide (target ≠ rfcSignature)
  then set_Data
         (Some (<[NoteData := VStr (dangling_note target)]>
                  (default ∅ (Data comment)))) comment
  else comment.

(** First loop: iterate over RFC actions and create a comment action if
    one exists for that target. *)
Definition comments_on_actions (comments : gmap string (list string))
    (commenter : string) (actions : list Action)
    (processed : gmap string (list Action)) : gmap string (list Action) :=
  fold_left
    (fun processed action =>
       match comments !! Action_Signature action with
       | Some cmts =>
           fold_left
             (fun processed cmt =>
                append_processed (Action_Signature action)
                  (action_comment (Action_Signature action) cmt commenter)
                  processed)
             cmts processed
       | None => processed
       end)
    actions processed.

(** Second loop: handle overall RFC or dangling comments. *)
Definition comments_on_rfc (rfcSignature commenter : string)
    (entries : list (string * list string))
    (processed : gmap string (list Action)) : gmap string (list Action) :=
  fold_left
    (fun processed '(target, cmts) =>
       match processed !! target with
       | Some _ => processed
       | None =>
           fold_left
             (fun processed cmt =>
                append_processed target
                  (rfc_comment rfcSignature target cmt commenter) processed)
             cmts processed
       end)
    entries processed.

(** Third loop, inner part: add the comments of one target. *)
Fixpoint add_comments (comments : list Action) (rfc : RFC) : RFC * option error :=
  match comments with
  | [] => (rfc, None)
  | comment :: comments' =>
      match RFC_AddAction comment rfc with
      | (rfc', Some e) => (rfc', Some e)
      | (rfc', None) => add_comments comments' rfc'
      end
  end.

(** Third loop: add processed comments to RFC. *)
Fixpoint add_processed (groups : list (string * list Action)) (rfc : RFC)
  : RFC * option error :=
  match groups with
  | [] => (rfc, None)
  | (_, comments) :: groups' =>
      match add_comments comments rfc with
      | (rfc', Some e) => (rfc', Some e)
      | (rfc', None) => add_processed groups' rfc'
      end
  end.

(** AddComments adds the given comments to this RFC, attributing them to
    the given commenter.  [seed2] and [seed3] select the orders of the
    two [range] loops over maps. *)
Definition RFC_AddComments (seed2 seed3 : nat)
    (comments : gmap string (list string)) (commenter : string) (rfc : RFC)
  : RFC * option error :=
  let processed :=
    comments_on_actions comments commenter (elems (Actions rfc)) ∅ in
  let processed :=
    comments_on_rfc (RFC_Signature rfc) commenter
      (range_map seed2 comments) processed in
  add_processed (range_map seed3 processed) rfc.

(** How a call that can panic ends. *)
Inductive completion : Type :=
  | Returned (e : option error)
  | Panicked (msg : string).

(** The body of the search loop of UpdateLoadStatus at a load action:
    write the two entries, sign again, return. *)
Definition overwrite_load (status requester : string) (action : Action)
  : Action * completion :=
  match Data action with
  | None => (action, Panicked "assignment to entry in nil map")
  | Some m =>
      let action1 :=
        set_Data (Some (<[LoadRequester := VStr requester]>
                         (<[LoadStatus := VStr status]> m))) action in
      match Action_ToSha action1 with
      | err e => (action1, Returned (Some e))
      | ok sha => (set_Action_Signature sha action1, Returned None)
      end
  end.

(** The search loop of UpdateLoadStatus over the actions; [None] when the
    loop ends without having met a load action. *)
Fixpoint update_load_action (status requester : string) (actions : list Action)
  : option (list Action * completion) :=
  match actions with
  | [] => None
  | action :: rest =>
      if decide (ActionType action = LoadAction) then
        let '(action', c) := overwrite_load status requester action in
        Some (action' :: rest, c)
      else
        (fun '(rest', c) => (action :: rest', c))
          <$> update_load_action status requester rest
  end.

(** [loadAction := Action{ActionType: LoadAction, Data: ...}] *)
Definition new_load_action (status requester : string) : Action :=
  mkAction LoadAction zero_Target EmptyString
    (Some {[ LoadStatus := VStr status; LoadRequester := VStr requester ]}).

(** UpdateLoadStatus updates the RFC load status action to the given
    status string and attributes it to the given requester. *)
Definition RFC_UpdateLoadStatus (status requester : string) (rfc : RFC)
  : RFC * completion :=
  match update_load_action status requester (elems (Actions rfc)) with
  | Some (actions', c) => (set_Actions (Some actions') rfc, c)
  | None =>
      let '(rfc', e) := RFC_AddAction (new_load_action status requester) rfc in
      (rfc', Returned e)
  end.

End models.

(* ===================================================================== *)
(** ** package git (src/services/git/definition.go, github.go) *)
(* ===================================================================== *)

Module git.

Definition BASE_BRANCH : string := "main".
Definition APPROVE_REVIEW_TYPE : string := "APPROVE".
Definition REQUEST_CHANGES_REVIEW_TYPE : string := "REQUEST_CHANGES".
Definition COMMENT_REVIEW_TYPE : string := "COMMENT".
Definition MERGEABILITY_CLEAN_STATE : string := "clean".
Definition MERGEABILITY_PENDING_STATE : string := "pending".
Definition MERGEABILITY_UNKNOWN_STATE : string := "unknown".
Definition MERGEABILITY_RETRY_COUNT : nat := 3.
Definition MERGEABILITY_WAIT_TIME : Z := 10.

(** The fields of go-github's [PullRequest] and [CombinedStatus] that the
    service reads; a pointer field that may be nil is an [option]. *)
Record github_PullRequest : Type := mkPullRequest {
  Number : Z;
  Head_Ref : string;
  MergeableState : option string
}.

Record github_CombinedStatus : Type := mkCombinedStatus {
  State : option string
}.

(** [type PullRequest interface{}]: a GitHub pull request, or a value of
    any other dynamic type. *)
Inductive PullRequest : Type :=
  | GitHubPullRequest (p : github_PullRequest)
  | OtherPullRequest (what : string).

(** A review of a pull request: its id and its state. *)
Definition PullRequestReviews : Type := list (Z * string).

(** The Git interface over a backend state [W]; a method returns the
    backend state afterwards next to its Go result. *)
Record Git (W : Type) : Type := mkGit {
  CreateBranch : string -> string -> W -> W * result unit;
  DeleteBranch : string -> W -> W * result unit;
  CreateFile : string -> string -> models.RFC -> W -> W * result unit;
  CreatePullRequest : string -> string -> W -> W * result unit;
  GetRFCContents : string -> W -> W * result (string * string);
  UpdateFile : PullRequest -> models.RFC -> W -> W * result unit;
  GetPullRequest : string -> W -> W * result PullRequest;
  GetReviews : PullRequest -> W -> W * result PullRequestReviews;
  CreateReview : PullRequest -> models.Review -> W -> W * result unit;
  DismissApprovalReviews :
    PullRequestReviews -> PullRequest -> W -> W * result unit;
  GetUserLogin : W -> W * result string
}.
Arguments CreateBranch {W} _ _ _ _.
Arguments DeleteBranch {W} _ _ _.
Arguments CreateFile {W} _ _ _ _ _.
Arguments CreatePullRequest {W} _ _ _ _.
Arguments GetRFCContents {W} _ _ _.
Arguments UpdateFile {W} _ _ _ _.
Arguments GetPullRequest {W} _ _ _.
Arguments GetReviews {W} _ _ _.
Arguments CreateReview {W} _ _ _ _.
Arguments DismissApprovalReviews {W} _ _ _ _.
Arguments GetUserLogin {W} _ _.

(** The GitHub API as the poller sees it: the response to the n-th call of
    each of the two endpoints, the calls made so far, the seconds slept. *)
Record github_client : Type := mkClient {
  combined_status : nat -> result github_CombinedStatus;
  pull_request : nat -> result github_PullRequest;
  status_calls : nat;
  pull_calls : nat;
  slept : Z
}.

(** [g.client.Repositories.GetCombinedStatus] *)
Definition Repositories_GetCombinedStatus (c : github_client)
  : github_client * result github_CombinedStatus :=
  (mkClient (combined_status c) (pull_request c)
            (S (status_calls c)) (pull_calls c) (slept c),
   combined_status c (status_calls c)).

(** [g.client.PullRequests.Get] *)
Definition PullRequests_Get (c : github_client)
  : github_client * result github_PullRequest :=
  (mkClient (combined_status c) (pull_request c)
            (status_calls c) (S (pull_calls c)) (slept c),
   pull_request c (pull_calls c)).

(** [time.Sleep(time.Duration(seconds) * time.Second)] *)
Definition Sleep (seconds : Z) (c : github_client) : github_client :=
  mkClient (combined_status c) (pull_request c)
           (status_calls c) (pull_calls c) (slept c + seconds).

(** [githubPr.MergeableState == nil ||
     *githubPr.MergeableState == MERGEABILITY_UNKNOWN_STATE] *)
Definition still_calculating (p : github_PullRequest) : bool :=
  match MergeableState p with
  | None => true
  | Some s => bool_decide (s = MERGEABILITY_UNKNOWN_STATE)
  end.

(** The first loop of GetMergeability, with [n] iterations left. *)
Fixpoint poll_combined_status (n : nat) (c : github_client)
  : github_client * option error :=
  match n with
  | O => (c, None)
  | S n' =>
      let '(c, r) := Repositories_GetCombinedStatus c in
      match r with
      | err e => (c, Some e)
      | ok status =>
          if bool_decide (State status = Some MERGEABILITY_PENDING_STATE)
          then poll_combined_status n' (Sleep MERGEABILITY_WAIT_TIME c)
          else (c, None)
      end
  end.

(** The second loop, with [n] iterations left; [githubPr] is the pull
    request held when the loop is entered. *)
Fixpoint poll_pull_request (n : nat) (githubPr : github_PullRequest)
    (c : github_client) : github_client * result github_PullRequest :=
  match n with
  | O => (c, ok githubPr)
  | S n' =>
      let '(c, r) := PullRequests_Get c in
      match r with
      | err e => (c, err e)
      | ok githubPr =>
          if still_calculating githubPr
          then poll_pull_request n' githubPr (Sleep MERGEABILITY_WAIT_TIME c)
          else (c, ok githubPr)
      end
  end.

(** GetMergeability determines if the given pull request is mergeable. *)
Definition GitHub_GetMergeability (pr : PullRequest) (c : github_client)
  : github_client * result bool :=
  match pr with
  | OtherPullRequest _ =>
      (c, err (Errorf "given pull request is not of type github.PullRequest"))
  | GitHubPullRequest githubPr =>
      match poll_combined_status MERGEABILITY_RETRY_COUNT c with
      | (c, Some e) => (c, err e)
      | (c, None) =>
          match poll_pull_request MERGEABILITY_RETRY_COUNT githubPr c with
          | (c, err e) => (c, err e)
          | (c, ok githubPr) =>
              if still_calculating githubPr
              then (c, err (Errorf "unable to determine mergeability of rfc"))
              else (c, ok (bool_decide
                             (MergeableState githubPr
                              = Some MERGEABILITY_CLEAN_STATE)))
          end
      end
  end.

End git.

(* ===================================================================== *)
(** ** package controllers (src/controllers/controller.go) *)
(* ===================================================================== *)

Module controllers.
Import json models git.

(** What a controller does to the outside: the calls it makes on a Git
    implementation, in order, and the goroutines it starts. *)
Inductive event : Type :=
  | CallCreateBranch (branch baseBranch : string)
  | CallDeleteBranch (branch : string)
  | CallCreateFile (branch directory : string) (data : RFC)
  | CallCreatePullRequest (branch baseBranch : string)
  | CallGetRFCContents (branch : string)
  | CallUpdateFile (pr : PullRequest) (data : RFC)
  | CallGetPullRequest (branch : string)
  | CallGetReviews (pr : PullRequest)
  | CallCreateReview (pr : PullRequest) (data : Review)
  | CallDismissApprovalReviews (reviews : PullRequestReviews) (pr : PullRequest)
  | CallGetUserLogin
  | GoAttemptLoadAndMerge (pr : PullRequest) (rfc : RFC) (rfcIdentifier : string).

Section Controllers.

(** The backend state. *)
Context {W : Type}.

(** [var CreateRFCIdentifier models.RFCIdentifierCreator]: by default the
    current Unix time in decimal; it reads the clock of the world. *)
Variable CreateRFCIdentifier : W -> string.

(** [json.Unmarshal] into a [models.RFC]. *)
Variable json_Unmarshal : string -> result RFC.

(** A controller runs on the backend state and the trace of its events. *)
Definition M (A : Type) : Type := W * list event -> (W * list event) * result A.

Definition ret {A} (a : A) : M A := fun s => (s, ok a).

Definition bind {A B} (m : M A) (k : A -> M B) : M B := fun s =>
  match m s with
  | (s', ok a) => k a s'
  | (s', err e) => (s', err e)
  end.

(** A Go result computed without the backend. *)
Definition lift {A} (r : result A) : M A := fun s => (s, r).

(** A method of the ledger that returns the receiver and an error. *)
Definition lift_method (r : RFC * option error) : M RFC := fun s =>
  match r with
  | (rfc, None) => (s, ok rfc)
  | (_, Some e) => (s, err e)
  end.

(** A call on the Git implementation, recorded in the trace. *)
Definition call {A} (ev : event) (f : W -> W * result A) : M A :=
  fun '(w, trace) => let '(w', r) := f w in ((w', trace ++ [ev]), r).

Definition go (ev : event) : M unit :=
  fun '(w, trace) => ((w, trace ++ [ev]), ok tt).

Notation "x <- m ;; k" := (bind m (fun x => k))
  (at level 100, m at next level, right associativity).

(** The revoke process of SubmitRequest: delete the branch, whatever
    that gives, and return the error that started it. *)
Definition revoke {A} (git : Git W) (branch : string) (e : error) : M A :=
  fun s =>
    let '(s', _) := call (CallDeleteBranch branch) (DeleteBranch git branch) s in
    (s', err e).

Definition or_revoke {A} (git : Git W) (branch : string) (m : M A) : M A :=
  fun s =>
    match m s with
    | (s', ok a) => (s', ok a)
    | (s', err e) => revoke git branch e s'
    end.

(** [for _, action := range actions { action.Signature = action.ToSha() }] *)
Fixpoint sign_each (actions : list Action) : result (list Action) :=
  match actions with
  | [] => ok []
  | action :: rest =>
      actionSha ← Action_ToSha action;
      rest' ← sign_each rest;
      ok (set_Action_Signature actionSha action :: rest')
  end.

Definition sign_actions (s : option (list Action)) : result (option (list Action)) :=
  match s with
  | None => ok None
  | Some l => Some <$> sign_each l
  end.

(** The RFC that SubmitRequest writes: the RFC signature is taken first,
    then every action is signed. *)
Definition sign_submission (data : RFC) : result RFC :=
  rfcSignature ← RFC_ToSha data;
  actions ← sign_actions (Actions data);
  ok (set_Actions actions (set_RFC_Signature rfcSignature data)).

(** SubmitRequest orchestrates creating a new RFC branch, making the first
    commit with the given RFC data and opening a pull request. *)
Definition SubmitRequest (git : Git W) (data : RFC) : M string :=
  data <- lift (sign_submission data) ;;
  branch <- (fun s => (s, ok (CreateRFCIdentifier s.1))) ;;
  _ <- call (CallCreateBranch branch BASE_BRANCH)
            (CreateBranch git branch BASE_BRANCH) ;;
  _ <- or_revoke git branch
         (call (CallCreateFile branch branch data)
               (CreateFile git branch branch data)) ;;
  _ <- or_revoke git branch
         (call (CallCreatePullRequest branch BASE_BRANCH)
               (CreatePullRequest git branch BASE_BRANCH)) ;;
  ret branch.

(** The RFC that UpdateRequest writes, from the update and the RFC read
    back from the repository. *)
Definition updated_rfc (data : RFC) (existingRFC : RFC) : result RFC :=
  actions ← sign_actions (Actions data);
  let data := RFC_AddPersistentActions existingRFC (set_Actions actions data) in
  rfcSignature ← RFC_ToSha data;
  ok (set_RFC_Signature rfcSignature data).


(** [strings.ToLower] on ASCII letters; other bytes are kept. *)
Definition lower_byte (c : ascii) : ascii :=
  let n := N_of_ascii c in
  if decide (65 <= n <= 90)%N then ascii_of_N (n + 32) else c.

Fixpoint ToLower (s : string) : string :=
  match s with
  | EmptyString => EmptyString
  | String c s' => String (lower_byte c) (ToLower s')
  end.

(** The review action of ReviewRequest. *)
Definition review_action (data : Review) (login : string) (rfc : RFC) : Action :=
  let identifier :=
    if decide (Type_ data = COMMENT_REVIEW_TYPE) then CommentData
    else ReviewerData in
  let action :=
    mkAction (ToLower (Type_ data))
      (mkTarget "rfc" EmptyString SignatureLookupKey (RFC_Signature rfc))
      EmptyString
      (Some {[ identifier := VStr login ]}) in
  if decide (TopLevelComment data ≠ EmptyString)
  then set_Data
         (Some (<["comment" := VStr (TopLevelComment data)]>
                  (default ∅ (Data action)))) action
  else action.

Definition review_needs_comment (data : Review) : string :=
  "Review of type " +:+ Type_ data
    +:+ " must include a top level comment or inline comments".

Definition approved_and_loading (rfcIdentifier : string) : string :=
  "Successfully approved RFC " +:+ rfcIdentifier
    +:+ ". A load request was submitted. You may query the load status"
    +:+ String "010" (String "009" (String "009"
          "through the /status endpoint.")).

Definition reviewed (rfcIdentifier type : string) : string :=
  "Successfully reviewed RFC " +:+ rfcIdentifier
    +:+ " with type of '" +:+ type +:+ "'".

(** ReviewRequest orchestrates submitting a review based on the given
    data.  [seed2] and [seed3] are the iteration orders of AddComments. *)
Definition ReviewRequest (seed2 seed3 : nat) (git gitMachine : Git W)
    (data : Review) : M string :=
  if bool_decide ((Type_ data = COMMENT_REVIEW_TYPE
                   ∨ Type_ data = REQUEST_CHANGES_REVIEW_TYPE)
                  ∧ TopLevelComment data = EmptyString
                  ∧ size (Comments data) = 0%nat)
  then lift (err (Errorf (review_needs_comment data)))
  else
    pr <- call (CallGetPullRequest (Review_RFCIdentifier data))
               (GetPullRequest git (Review_RFCIdentifier data)) ;;
    login <- call CallGetUserLogin (GetUserLogin git) ;;
    content <- call (CallGetRFCContents (Review_RFCIdentifier data))
                    (GetRFCContents git (Review_RFCIdentifier data)) ;;
    rfc <- lift (json_Unmarshal content.1) ;;
    rfc <- lift_method (RFC_AddComments seed2 seed3 (Comments data) login rfc) ;;
    rfc <- (if bool_decide (Type_ data ≠ COMMENT_REVIEW_TYPE
                            ∨ TopLevelComment data ≠ EmptyString)
            then lift_method (RFC_AddAction (review_action data login rfc) rfc)
            else ret rfc) ;;
    _ <- call (CallUpdateFile pr rfc) (UpdateFile git pr rfc) ;;
    _ <- call (CallCreateReview pr data) (CreateReview git pr data) ;;
    if bool_decide (Type_ data = APPROVE_REVIEW_TYPE) && LoadOnApproval data
    then
      _ <- go (GoAttemptLoadAndMerge pr rfc (Review_RFCIdentifier data)) ;;
      ret (approved_and_loading (Review_RFCIdentifier data))
    else ret (reviewed (Review_RFCIdentifier data) (Type_ data)).

End Controllers.

End controllers.

Import json models git controllers.

(* ===================================================================== *)
(** ** Notions used in the statements *)
(* ===================================================================== *)

(** The size of a list of object members, one separator counted after
    each of them. *)
Definition weight (l : list string) : nat :=
  foldr (fun s n => (String.length s + 1 + n)%nat) 0%nat l.

Definition unsigned (a : Action) : Action := set_Action_Signature EmptyString a.

(** What signing an action before it is appended gives. *)
Definition sign (a : Action) : Action :=
  match Action_ToSha a with
  | ok sha => set_Action_Signature sha a
  | err _ => a
  end.

Definition signable (a : Action) : Prop := exists sha, Action_ToSha a = ok sha.

Definition is_string (v : value) : Prop := exists s, v = VStr s.

(** The RFC signature is the content hash of the RFC as it stands. *)
Definition signature_current (rfc : RFC) : Prop :=
  RFC_ToSha (set_RFC_Signature EmptyString rfc) = ok (RFC_Signature rfc).

Definition is_comment (a : Action) : Prop := ActionType a = CommentAction.

#[global] Instance is_comment_dec a : Decision (is_comment a).
Proof. unfold is_comment. apply _. Defined.

Definition is_load (a : Action) : Prop := ActionType a = LoadAction.

#[global] Instance is_load_dec a : Decision (is_load a).
Proof. unfold is_load. apply _. Defined.

Definition count_load (rfc : RFC) : nat :=
  length (filter is_load (elems (Actions rfc))).

(** A sequence of calls of UpdateLoadStatus, each given by its status
    and its requester. *)
Definition UpdateLoadStatus_calls (calls : list (string * string)) (rfc : RFC)
  : RFC :=
  fold_left (fun rfc '(status, requester) =>
               (RFC_UpdateLoadStatus status requester rfc).1) calls rfc.

(** How many actions carry the signature [sig]. *)
Definition matches (sig : string) (actions : list Action) : nat :=
  length (filter (fun a => Action_Signature a = sig) actions).

(** The comments that AddComments builds for one entry of the comments
    map: for a signature that no action carries, one comment on the RFC
    per comment string; otherwise one comment on the action per comment
    string, for each action that carries the signature. *)
Definition expected_comments (rfc : RFC) (commenter : string)
    (entry : string * list string) : list Action :=
  let n := matches entry.1 (elems (Actions rfc)) in
  if decide (n = 0%nat)
  then (fun cmt => rfc_comment (RFC_Signature rfc) entry.1 cmt commenter)
         <$> entry.2
  else mjoin (replicate n
                ((fun cmt => action_comment entry.1 cmt commenter) <$> entry.2)).

(** attachComments as the specification words it: a target signature
    that matches an existing action yields one comment on that action per
    comment string; any other target yields one comment on the RFC per
    comment string. *)
Definition attachComments_spec (rfc : RFC) (commenter : string)
    (entry : string * list string) : list Action :=
  if decide (matches entry.1 (elems (Actions rfc)) = 0%nat)
  then (fun cmt => rfc_comment (RFC_Signature rfc) entry.1 cmt commenter)
         <$> entry.2
  else (fun cmt => action_comment entry.1 cmt commenter) <$> entry.2.

(** What the map [processed] of AddComments holds for the key [k] after
    the first loop has gone through the actions [l]. *)
Definition processed_by_actions (comments : gmap string (list string))
    (commenter : string) (l : list Action) (k : string)
  : option (list Action) :=
  match comments !! k with
  | Some cmts =>
      if decide (cmts = [] \/ matches k l = 0%nat) then None
      else Some (mjoin (replicate (matches k l)
                          ((fun cmt => action_comment k cmt commenter) <$> cmts)))
  | None => None
  end.

(** What it holds for the key [k] after the second loop. *)
Definition processed_entry (comments : gmap string (list string))
    (commenter : string) (rfc : RFC) (k : string) : option (list Action) :=
  comments !! k ≫= fun cmts =>
    if decide (cmts = []) then None
    else Some (expected_comments rfc commenter (k, cmts)).

(** A client of the GitHub API all of whose calls succeed. *)
Definition ok_client (statuses : nat -> github_CombinedStatus)
    (pulls : nat -> github_PullRequest) (n m : nat) (z : Z) : github_client :=
  mkClient (fun i => ok (statuses i)) (fun i => ok (pulls i)) n m z.

Definition resolved (p : github_PullRequest) : Prop :=
  still_calculating p = false.

#[global] Instance resolved_dec p : Decision (resolved p).
Proof. unfold resolved. apply _. Defined.

(** The merge state is unknown or absent in each of the polls that
    GetMergeability has the right to make. *)
Definition unknown_after_retries (c : github_client) : Prop :=
  forall i, (i < MERGEABILITY_RETRY_COUNT)%nat ->
    exists p, pull_request c (pull_calls c + i)%nat = ok p
              /\ still_calculating p = true.

(* ===================================================================== *)
(** ** Test data (src/controllers/controller_test.go) *)
(* ===================================================================== *)

Module controller_test.

(** mockGit: every method answers with a fixed result. *)
Record mockGit : Type := mkMock {
  createBranch : result unit;
  deleteBranch : result unit;
  createFile : result unit;
  createPullRequest : result unit;
  getRFCContents : result (string * string);
  updateFile : result unit;
  getPullRequest : result PullRequest;
  getReviews : result PullRequestReviews;
  createReview : result unit;
  dismissApprovalReviews : result unit;
  getUserLogin : result string
}.

Definition mock (mg : mockGit) : Git unit :=
  mkGit unit
    (fun _ _ w => (w, createBranch mg))
    (fun _ w => (w, deleteBranch mg))
    (fun _ _ _ w => (w, createFile mg))
    (fun _ _ w => (w, createPullRequest mg))
    (fun _ w => (w, getRFCContents mg))
    (fun _ _ w => (w, updateFile mg))
    (fun _ w => (w, getPullRequest mg))
    (fun _ w => (w, getReviews mg))
    (fun _ _ w => (w, createReview mg))
    (fun _ _ w => (w, dismissApprovalReviews mg))
    (fun w => (w, getUserLogin mg)).

Definition identifier : string := "test-identifier".

Definition createRFCIdentifier : unit -> string := fun _ => identifier.

Definition all_ok : mockGit :=
  mkMock (ok tt) (ok tt) (ok tt) (ok tt) (ok ("{}", "junk-sha")) (ok tt)
         (ok (OtherPullRequest "nil")) (ok []) (ok tt) (ok tt) (ok "octocat").

(** The case "failed create file and delete branch". *)
Definition failed_create_file_and_delete_branch : mockGit :=
  mkMock (ok tt) (err (Errorf "delete branch error"))
         (err (Errorf "create file error")) (ok tt)
         (ok ("{}", "junk-sha")) (ok tt)
         (ok (OtherPullRequest "nil")) (ok []) (ok tt) (ok tt) (ok "octocat").

(** The action of the case "failed to create file", with the signatures
    the test expects for it and for the RFC that holds it. *)
Definition entity_add : Action :=
  mkAction AddAction (mkTarget ItemTarget "entity" EmptyString EmptyString)
    EmptyString (Some {[ "id" := VStr "123" ]}).

Definition entity_add_sha : string :=
  "49991c32fc001d99b9c5908005509686aff6ba7d16a14cd3ecaebc5d6d916cf0".

Definition entity_rfc_sha : string :=
  "7fe5c325b99df102515c1f8d5e1cdde084dc9beabec4a346f07dcd90d4ddb4b1".

(** The persisted comment of the case "failed to update file". *)
Definition test_comment : Action :=
  mkAction CommentAction zero_Target EmptyString
    (Some {[ "test" := VBool true ]}).

Definition test_comment_rfc_sha : string :=
  "a02e316df3bc6f8b3da979fd5cdb5c070962fc03c8fbd46345a7eac682a26f0a".

(** The RFC that SubmitRequest stores for [entity_add]. *)
Definition stored_rfc : RFC :=
  mkRFC (Some [set_Action_Signature entity_add_sha entity_add])
        entity_rfc_sha EmptyString.

(** The same actions under the hash of the RFC as it stands. *)
Definition current_rfc : RFC :=
  mkRFC (Some [set_Action_Signature entity_add_sha entity_add])
        "0017df5e9bd353b53eafc8d4e4279f2eb0021da36bce96079aaa01954c7c249c"
        EmptyString.

(** An RFC in which the same action was submitted twice. *)
Definition twin_rfc : RFC :=
  mkRFC (Some [set_Action_Signature entity_add_sha entity_add;
               set_Action_Signature entity_add_sha entity_add])
        entity_rfc_sha EmptyString.

Definition twin_comments : gmap string (list string) :=
  {[ entity_add_sha := ["Why twice?"] ]}.

(** A COMMENT review with a top-level comment only. *)
Definition comment_review : Review :=
  mkReview identifier COMMENT_REVIEW_TYPE "This is my review comment!" ∅ false.

(** A COMMENT review without any comment. *)
Definition empty_review : Review :=
  mkReview identifier COMMENT_REVIEW_TYPE EmptyString ∅ false.

(** A COMMENT review whose comments map has an entry, for the signature
    of the stored action, without any comment string in it. *)
Definition no_comment_strings_review : Review :=
  mkReview identifier COMMENT_REVIEW_TYPE EmptyString
           {[ entity_add_sha := [] ]} false.

(** An RFC whose load action came without a data field. *)
Definition dataless_load_rfc : RFC :=
  mkRFC (Some [mkAction LoadAction zero_Target EmptyString None])
        EmptyString EmptyString.

(** The API answers the first poll of the pull request with an unknown
    merge state and fails afterwards. *)
Definition flaky_client : github_client :=
  mkClient (fun _ => ok (mkCombinedStatus (Some "success")))
           (fun i => match i with
                     | O => ok (mkPullRequest 7 identifier (Some "unknown"))
                     | _ => err (ApiError "502 Bad Gateway")
                     end)
           0 0 0.

End controller_test.
Import controller_test.

(* ===================================================================== *)
(** ** package set (src/services/set/set.go, immutable.go) *)
(* ===================================================================== *)

Module set.

(** The two implementations of the interface [Set[K]]: the struct [set]
    and the struct [immutableSet]. *)
Inductive implementation : Type := Mutable | Immutable.

(** How a call that may dereference a nil interface ends. *)
Inductive may_panic (A : Type) : Type :=
  | Normal (a : A)
  | NilDereference.
Arguments Normal {A} a.
Arguments NilDereference {A}.

Section Sets.

Context {K : Type} {EqK : EqDecision K} {CountK : Countable K}.

(** A set: which struct it is, and the keys of its map [vals]. *)
Record Set_ : Type := mkSet {
  impl : implementation;
  vals : gset K
}.

(** [for _, val := range vals { m[val] = exists }] *)
Definition put_all (values : list K) (m : gset K) : gset K :=
  fold_left (fun m val => {[val]} ∪ m) values m.

(** [for _, val := range vals { delete(m, val) }] *)
Definition delete_all (values : list K) (m : gset K) : gset K :=
  fold_left (fun m val => m ∖ {[val]}) values m.

(** NewSet creates a new empty, mutable set. *)
Definition NewSet : Set_ := mkSet Mutable ∅.

(** NewSetOf creates and initializes a mutable set with the given values. *)
Definition NewSetOf (values : list K) : Set_ :=
  mkSet Mutable (put_all values ∅).

(** NewImmutableOf creates and initializes an immutable set with the
    given values. *)
Definition NewImmutableOf (values : list K) : Set_ :=
  mkSet Immutable (put_all values ∅).

(** Add adds the given values to the set; an immutable set refuses. *)
Definition Add (values : list K) (s : Set_) : Set_ * option error :=
  match impl s with
  | Mutable => (mkSet Mutable (put_all values (vals s)), None)
  | Immutable =>
      (s, Some (Errorf
                  "unsupported operation: Add. cannot modify an immutable set"))
  end.

(** Delete removes the values from the set; an immutable set refuses. *)
Definition Delete (values : list K) (s : Set_) : Set_ * option error :=
  match impl s with
  | Mutable => (mkSet Mutable (delete_all values (vals s)), None)
  | Immutable =>
      (s, Some (Errorf
                  "unsupported operation: Delete. cannot modify an immutable set"))
  end.

(** Contains returns true if the given value is contained within the set. *)
Definition Contains (val : K) (s : Set_) : bool := bool_decide (val ∈ vals s).

(** Size returns the size of the set. *)
Definition Size (s : Set_) : nat := size (vals s).

(** Values returns a slice containing the values of the set, in the
    order in which [range] visits the map ([seed] selects it). *)
Definition Values (seed : nat) (s : Set_) : list K :=
  permute seed (elements (vals s)).

(** Intersect returns the intersection of the set with the given other
    set, an interface value that may be nil ([None]): [other.Contains]
    is called once per value of the receiver. *)
Definition Intersect (seed : nat) (other : option Set_) (s : Set_)
  : may_panic Set_ :=
  let build := match impl s with
               | Mutable => NewSetOf
               | Immutable => NewImmutableOf
               end in
  match other with
  | Some o => Normal (build (List.filter (fun val => Contains val o)
                                         (Values seed s)))
  | None =>
      match Values seed s with
      | [] => Normal (build [])
      | _ :: _ => NilDereference
      end
  end.

(** Equals returns true if the set is equal to the given other set.  The
    receiver is a set (not a nil pointer); the other set is an interface
    value that may be nil (an interface that wraps a nil pointer is not
    considered).  The first test of the source, on the identity of the
    two pointers, is a shortcut: for the same pointer the remaining
    tests give true as well. *)
Definition Equals (seed : nat) (other : option Set_) (s : Set_) : bool :=
  match other with
  | None => false
  | Some o =>
      if negb (Size s =? Size o)%nat then false
      else forallb (fun val => Contains val o) (Values seed s)
  end.

End Sets.

Arguments Set_ K {_ _}.

(** MarshalJSON of a set of strings: [json.Marshal(s.Values())], where
    [Values] gives a nil slice for an empty set. *)
Definition MarshalJSON (seed : nat) (s : Set_ string) : string :=
  match Values seed s with
  | [] => "null"
  | values => json.array (json.quote <$> values)
  end.

End set.

(* ===================================================================== *)
(** ** package models, continued: the requests that carry only the
       identifier of an RFC *)
(* ===================================================================== *)

Module route.

Record Load : Type := mkLoad { Load_RFCIdentifier : string }.

Record Merge : Type := mkMerge { Merge_RFCIdentifier : string }.

Record Status : Type := mkStatus { Status_RFCIdentifier : string }.

Record GetRfcContents : Type :=
  mkGetRfcContents { GetRfcContents_RFCIdentifier : string }.

(** The request for the list of RFCs: the number of requests wanted
    (-1 for all), their state, and the two optional filters. *)
Record GetRfcs : Type := mkGetRfcs {
  GetRfcs_Count : Z;
  GetRfcs_State : string;
  GetRfcs_Owner : option string;
  GetRfcs_Merged : option bool
}.

End route.

(* ===================================================================== *)
(** ** package controllers, continued: loading, merging, status *)
(* ===================================================================== *)

Module controller.

(** Statuses for RFC loads. *)
Definition LOAD_REQUESTED_STATUS : string := "load_requested".
Definition NOT_APPLICABLE_STATUS : string := "not_applicable".
Definition LOADING_STATUS : string := "loading".
Definition SUCCESSFUL_STATUS : string := "successful".
Definition FAILED_STATUS : string := "failed".

(** The interface Git in full: the methods of [Git] and the three
    others that these controllers call. *)
Record FullGit (W : Type) : Type := mkFullGit {
  methods :> Git W;
  GetMergeability : PullRequest -> W -> W * result bool;
  MergePullRequest : PullRequest -> W -> W * result string;
  CreateTag : string -> string -> W -> W * result unit
}.
Arguments methods {W} _.
Arguments GetMergeability {W} _ _ _.
Arguments MergePullRequest {W} _ _ _.
Arguments CreateTag {W} _ _ _ _.

(** The events of these controllers: those of [event], the calls of the
    three other methods, the goroutine of LoadRequest. *)
Inductive call_event : Type :=
  | Earlier (ev : event)
  | CallGetMergeability (pr : PullRequest)
  | CallMergePullRequest (pr : PullRequest)
  | CallCreateTag (sha tag : string)
  | GoLoadRequest (pr : PullRequest) (rfc : RFC).

(** How a controller that calls UpdateLoadStatus ends: it returns, with
    a value or an error, or it panics. *)
Inductive outcome (A : Type) : Type :=
  | Done (r : result A)
  | Panics (msg : string).
Arguments Done {A} r.
Arguments Panics {A} msg.

Section Controller.

Context {W : Type}.

(** [json.Unmarshal] into a [models.RFC]. *)
Variable json_Unmarshal : string -> result RFC.

(** [fmt.Sprint] on a value of the data map of an action; [None] is the
    nil interface, which is what a missing key gives. *)
Variable Sprint : option value -> string.

Definition Run (A : Type) : Type :=
  W * list call_event -> (W * list call_event) * outcome A.

Definition yield {A} (a : A) : Run A := fun s => (s, Done (ok a)).

Definition and_then {A B} (m : Run A) (k : A -> Run B) : Run B := fun s =>
  match m s with
  | (s', Done (ok a)) => k a s'
  | (s', Done (err e)) => (s', Done (err e))
  | (s', Panics msg) => (s', Panics msg)
  end.

Definition of_result {A} (r : result A) : Run A := fun s => (s, Done r).

(** A method of the ledger that may panic. *)
Definition of_method (r : RFC * completion) : Run RFC := fun s =>
  match r with
  | (rfc, Returned None) => (s, Done (ok rfc))
  | (_, Returned (Some e)) => (s, Done (err e))
  | (_, Panicked msg) => (s, Panics msg)
  end.

Definition invoke {A} (ev : call_event) (f : W -> W * result A) : Run A :=
  fun '(w, trace) => let '(w', r) := f w in ((w', trace ++ [ev]), Done r).

Definition spawn (ev : call_event) : Run unit :=
  fun '(w, trace) => ((w, trace ++ [ev]), Done (ok tt)).

Notation "x <~ m ;; k" := (and_then m (fun x => k))
  (at level 100, m at next level, right associativity).

(** GetLoadStatus gets the current RFC load status, if any, nil is
    returned otherwise (src/models/base.go). *)
Fixpoint first_load_status (actions : list Action) : option string :=
  match actions with
  | [] => None
  | action :: rest =>
      if decide (ActionType action = LoadAction)
      then Some (Sprint (Data action ≫= fun m => m !! LoadStatus))
      else first_load_status rest
  end.

Definition RFC_GetLoadStatus (rfc : RFC) : option string :=
  first_load_status (elems (Actions rfc)).

(** mergeRequest merges the given pr and creates a tag with the given
    tag name. *)
Definition mergeRequest (git : FullGit W) (pr : PullRequest) (tag : string)
  : Run unit :=
  sha <~ invoke (CallMergePullRequest pr) (MergePullRequest git pr) ;;
  invoke (CallCreateTag sha tag) (CreateTag git sha tag).

Definition merged_and_tagged (rfcIdentifier : string) : string :=
  "Successfully merged and tagged RFC " +:+ rfcIdentifier.

(** MergeRequest orchestrates merging the given RFC and tagging it for
    tracking, returns a message if successful. *)
Definition MergeRequest (git : FullGit W) (data : route.Merge) : Run string :=
  let id := route.Merge_RFCIdentifier data in
  pr <~ invoke (Earlier (CallGetPullRequest id)) (GetPullRequest git id) ;;
  _ <~ mergeRequest git pr id ;;
  yield (merged_and_tagged id).

(** loadRequest loads the given rfc content into the backing data
    store. *)
Definition loadRequest (git : FullGit W) (pr : PullRequest) (rfc : RFC)
  : Run unit :=
  user <~ invoke (Earlier CallGetUserLogin) (GetUserLogin git) ;;
  rfc <~ of_method (RFC_UpdateLoadStatus LOADING_STATUS user rfc) ;;
  _ <~ invoke (Earlier (CallUpdateFile pr rfc)) (UpdateFile git pr rfc) ;;
  content <~ of_result (marshal_RFC rfc) ;;
  rfc <~ of_method (RFC_UpdateLoadStatus SUCCESSFUL_STATUS user rfc) ;;
  invoke (Earlier (CallUpdateFile pr rfc)) (UpdateFile git pr rfc).

(** LoadRequest orchestrates loading the given RFC data into the backing
    datastore asynchronously. *)
Definition LoadRequest (git : FullGit W) (data : route.Load) : Run unit :=
  let id := route.Load_RFCIdentifier data in
  user <~ invoke (Earlier CallGetUserLogin) (GetUserLogin git) ;;
  pr <~ invoke (Earlier (CallGetPullRequest id)) (GetPullRequest git id) ;;
  content <~ invoke (Earlier (CallGetRFCContents id)) (GetRFCContents git id) ;;
  rfc <~ of_result (json_Unmarshal content.1) ;;
  rfc <~ of_method (RFC_UpdateLoadStatus LOAD_REQUESTED_STATUS user rfc) ;;
  _ <~ invoke (Earlier (CallUpdateFile pr rfc)) (UpdateFile git pr rfc) ;;
  spawn (GoLoadRequest pr rfc).

(** Status returns the current load status of the given RFC, if any. *)
Definition Status (git : FullGit W) (data : route.Status)
  : Run (option string) :=
  let id := route.Status_RFCIdentifier data in
  content <~ invoke (Earlier (CallGetRFCContents id)) (GetRFCContents git id) ;;
  rfc <~ of_result (json_Unmarshal content.1) ;;
  yield (RFC_GetLoadStatus rfc).

(** GetRfcContents returns the contents of the target RFC. *)
Definition GetRfcContents (git : FullGit W) (data : route.GetRfcContents)
  : Run string :=
  let id := route.GetRfcContents_RFCIdentifier data in
  content <~ invoke (Earlier (CallGetRFCContents id)) (GetRFCContents git id) ;;
  yield content.1.

Definition not_mergeable_after_load (rfcIdentifier : string) : string :=
  "Attempted to merge RFC " +:+ rfcIdentifier
    +:+ ", but it is not mergeable - NOTE: LOADED BUT NOT MERGED.".

(** attemptLoadAndMerge attempts to load and then merge the given RFC
    data and corresponding pull request. *)
Definition attemptLoadAndMerge (git : FullGit W) (pr : PullRequest)
    (rfc : RFC) (rfcIdentifier : string) : Run unit :=
  user <~ invoke (Earlier CallGetUserLogin) (GetUserLogin git) ;;
  rfc <~ of_method (RFC_UpdateLoadStatus LOAD_REQUESTED_STATUS user rfc) ;;
  _ <~ invoke (Earlier (CallUpdateFile pr rfc)) (UpdateFile git pr rfc) ;;
  mergeable <~ invoke (CallGetMergeability pr) (GetMergeability git pr) ;;
  if negb mergeable then
    rfc <~ of_method (RFC_UpdateLoadStatus NOT_APPLICABLE_STATUS user rfc) ;;
    invoke (Earlier (CallUpdateFile pr rfc)) (UpdateFile git pr rfc)
  else
    _ <~ loadRequest git pr rfc ;;
    mergeable <~ invoke (CallGetMergeability pr) (GetMergeability git pr) ;;
    if negb mergeable
    then of_result (err (Errorf (not_mergeable_after_load rfcIdentifier)))
    else mergeRequest git pr rfcIdentifier.

End Controller.

(** What a trace shows of a run: the kind of each call and, for a write
    of the RFC file, the load status that the written RFC reads. *)
Inductive step : Type :=
  | Login
  | ReadPullRequest
  | ReadContents
  | WriteStatus (status : option string)
  | CheckMergeability
  | MergeIt
  | TagIt (tag : string)
  | StartLoad (status : option string)
  | OtherCall.

Definition step_of (Sprint : option value -> string) (ev : call_event) : step :=
  match ev with
  | Earlier CallGetUserLogin => Login
  | Earlier (CallGetPullRequest _) => ReadPullRequest
  | Earlier (CallGetRFCContents _) => ReadContents
  | Earlier (CallUpdateFile _ rfc) => WriteStatus (RFC_GetLoadStatus Sprint rfc)
  | Earlier _ => OtherCall
  | CallGetMergeability _ => CheckMergeability
  | CallMergePullRequest _ => MergeIt
  | CallCreateTag _ tag => TagIt tag
  | GoLoadRequest _ rfc => StartLoad (RFC_GetLoadStatus Sprint rfc)
  end.

(** The two complete runs of attemptLoadAndMerge. *)
Definition not_mergeable_run : list step :=
  [Login; WriteStatus (Some LOAD_REQUESTED_STATUS); CheckMergeability;
   WriteStatus (Some NOT_APPLICABLE_STATUS)].

Definition load_run : list step :=
  [Login; WriteStatus (Some LOADING_STATUS);
   WriteStatus (Some SUCCESSFUL_STATUS)].

Definition load_and_merge_run (rfcIdentifier : string) : list step :=
  [Login; WriteStatus (Some LOAD_REQUESTED_STATUS); CheckMergeability]
  ++ load_run ++ [CheckMergeability; MergeIt; TagIt rfcIdentifier].

(** The pull request that a call is made on, if it is made on one. *)
Definition pull_request_of (ev : call_event) : option PullRequest :=
  match ev with
  | Earlier (CallUpdateFile pr _) => Some pr
  | CallGetMergeability pr | CallMergePullRequest pr => Some pr
  | GoLoadRequest pr _ => Some pr
  | _ => None
  end.

Definition on_pull_request (pr : PullRequest) (events : list call_event)
  : Prop :=
  Forall (fun ev => forall pr', pull_request_of ev = Some pr' -> pr' = pr)
         events.


(** A backend whose calls all succeed: the mergeability checks answer
    from a script, one answer per check. *)
Definition scripted_git : FullGit (list bool) :=
  mkFullGit (list bool)
    (mkGit (list bool)
       (fun _ _ w => (w, ok tt))
       (fun _ w => (w, ok tt))
       (fun _ _ _ w => (w, ok tt))
       (fun _ _ w => (w, ok tt))
       (fun _ w => (w, ok ("{}", "junk-sha")))
       (fun _ _ w => (w, ok tt))
       (fun _ w => (w, ok (OtherPullRequest "nil")))
       (fun _ w => (w, ok []))
       (fun _ _ w => (w, ok tt))
       (fun _ _ w => (w, ok tt))
       (fun w => (w, ok "octocat")))
    (fun _ w => match w with
                | [] => (w, err (ApiError "no answer"))
                | b :: w' => (w', ok b)
                end)
    (fun _ w => (w, ok "merge-sha"))
    (fun _ _ w => (w, ok tt)).

(** [fmt.Sprint] where the statements need it: on strings and on nil. *)
Definition sprint_plain (v : option value) : string :=
  match v with
  | Some (VStr s) => s
  | _ => "<nil>"
  end.

End controller.

(* ===================================================================== *)
(** ** package git, continued: the GitHub implementation over the API
       (src/services/git/github.go) *)
(* ===================================================================== *)

Module github.

Definition OWNER : string := "<repository-owner>".
Definition RFC_FILE_NAME : string := "RFC.json".
Definition BASE_RFC_DIRECTORY_NAME : string := "RFC".
Definition ALL_PR_FILTER : string := "all".

(** A pull request as the listing functions read it: the fields of
    [github_PullRequest], the title, the login of the user (absent when
    [User] or [User.Login] is nil) and the field [Merged]. *)
Record PullRequestDetails : Type := mkDetails {
  pull : github_PullRequest;
  Title : string;
  User_Login : option string;
  Merged : option bool
}.

(** An element of [PullRequests], a slice of interface values. *)
Inductive ListedPullRequest : Type :=
  | Listed (d : PullRequestDetails)
  | NotGitHub (what : string).

Definition PullRequests : Type := list ListedPullRequest.

Definition FilterOption : Type := ListedPullRequest -> bool.

Definition IdsAndTitles : Type := list (gmap string string).

Record DraftReviewComment : Type := mkDraft {
  Path : string;
  Body : string;
  Position : Z
}.

Record PullRequestReviewRequest : Type := mkReviewRequest {
  Event : string;
  Request_Body : option string;
  Request_Comments : list DraftReviewComment
}.

(** The requests that these methods send to the API. *)
Inductive request : Type :=
  | ListPullRequests (state : string) (page perPage : Z)
  | DismissReview (number id : Z) (message : string)
  | CreateReview (number : Z) (param : PullRequestReviewRequest)
  | ListUserTeams (page perPage : Z).

(** The endpoints over a state [W] of the API; a listing returns the
    page and the number of the next page, 0 after the last one. *)
Record Client (W : Type) : Type := mkApi {
  PullRequests_List :
    string -> Z -> Z -> W -> W * result (list PullRequestDetails * Z);
  PullRequests_DismissReview : Z -> Z -> string -> W -> W * result unit;
  PullRequests_CreateReview :
    Z -> PullRequestReviewRequest -> W -> W * result unit;
  Teams_ListUserTeams : Z -> Z -> W -> W * result (list string * Z)
}.
Arguments PullRequests_List {W} _ _ _ _ _.
Arguments PullRequests_DismissReview {W} _ _ _ _ _.
Arguments PullRequests_CreateReview {W} _ _ _ _.
Arguments Teams_ListUserTeams {W} _ _ _ _.

Section GitHub.

Context {W : Type}.
Variable api : Client W.

(** A request on the API, recorded. *)
Definition send {A} (req : request) (f : W -> W * result A)
    (s : W * list request) : (W * list request) * result A :=
  let '(w', r) := f s.1 in ((w', s.2 ++ [req]), r).



(** The file to target for review comments. *)
Definition review_path (rfcIdentifier : string) : string :=
  BASE_RFC_DIRECTORY_NAME +:+ "/" +:+ rfcIdentifier +:+ "/" +:+ RFC_FILE_NAME.

(** The comment structure attached to the review: one draft comment
    per comment string, all on the only line of the RFC. *)
Definition draft_comments (path : string)
    (entries : list (string * list string)) : list DraftReviewComment :=
  flat_map (fun '(_, cmts) => (fun cmt => mkDraft path cmt 1) <$> cmts) entries.

(** CreateReview generates a pull request review on the given pull
    request using the given data; [seed] selects the order of the
    [range] over the map of comments. *)
Definition GitHub_CreateReview (seed : nat) (pr : PullRequest) (data : Review)
    (s : W * list request) : (W * list request) * result unit :=
  match pr with
  | OtherPullRequest _ =>
      (s, err (Errorf "given pull request is not of type github.PullRequest"))
  | GitHubPullRequest githubPr =>
      let path := review_path (Review_RFCIdentifier data) in
      let comments := draft_comments path (range_map seed (Comments data)) in
      let param :=
        mkReviewRequest (Type_ data)
          (if decide (TopLevelComment data ≠ EmptyString)
           then Some (TopLevelComment data) else None)
          comments in
      send (CreateReview (Number githubPr) param)
           (PullRequests_CreateReview api (Number githubPr) param) s
  end.

(** WithOwner: true if a given PR is owned by the given user; if no
    user is given, true. *)
Definition WithOwner (owner : option string) : FilterOption := fun pr =>
  match pr with
  | NotGitHub _ => false
  | Listed githubPr =>
      match owner with
      | Some owner =>
          match User_Login githubPr with
          | None => false
          | Some login => bool_decide (owner = login)
          end
      | None => true
      end
  end.

(** IsMerged: true if a given PR has a merged state equal to the
    provided state; if no state is given, true. *)
Definition IsMerged (merged : option bool) : FilterOption := fun pr =>
  match pr with
  | NotGitHub _ => false
  | Listed githubPr =>
      match merged with
      | Some merged =>
          match Merged githubPr with
          | None => negb merged
          | Some m => bool_decide (merged = m)
          end
      | None => true
      end
  end.

(** [isValid = true; for _, opt := range opts { isValid = isValid && opt(result) }] *)
Definition is_valid (opts : list FilterOption) (result : PullRequestDetails)
  : bool :=
  fold_left (fun isValid opt => isValid && opt (Listed result)) opts true.

(** The loop over the results of one page. *)
Definition serialize (count : Z) (opts : list FilterOption)
    (results : list PullRequestDetails) (prs : PullRequests) (retrieved : Z)
  : PullRequests * Z :=
  fold_left
    (fun '(prs, retrieved) result =>
       if is_valid opts result
          && (bool_decide (Z.of_nat (length prs) < count)
              || bool_decide (count = -1))
       then (prs ++ [Listed result], retrieved + 1)
       else (prs, retrieved))
    results (prs, retrieved).

(** The loop over the pages; [None] when [fuel] iterations were not
    enough. *)
Fixpoint retrieve (fuel : nat) (state : string) (count perPage : Z)
    (opts : list FilterOption) (pageNumber : Z) (prs : PullRequests)
    (retrieved : Z) (s : W * list request)
  : (W * list request) * option (result PullRequests) :=
  if bool_decide (retrieved < count) || bool_decide (count = -1) then
    match fuel with
    | O => (s, None)
    | S fuel' =>
        match send (ListPullRequests state pageNumber perPage)
                   (PullRequests_List api state pageNumber perPage) s with
        | (s', err e) => (s', Some (err e))
        | (s', ok (results, nextPage)) =>
            let '(prs, retrieved) :=
              serialize count opts results prs retrieved in
            if bool_decide (nextPage = 0) then (s', Some (ok prs))
            else retrieve fuel' state count perPage opts nextPage prs
                          retrieved s'
        end
    end
  else (s, Some (ok prs)).

(** GetPullRequests returns all pull requests with the given state.
    Paginated output. *)
Definition GitHub_GetPullRequests (fuel : nat) (state : string) (count : Z)
    (opts : list FilterOption) (s : W * list request)
  : (W * list request) * option (result PullRequests) :=
  let perPage := if decide (count ≠ -1) then Z.min count 100 else 100 in
  let state := if decide (state = EmptyString) then ALL_PR_FILTER else state in
  retrieve fuel state count perPage opts 1 [] 0 s.

(** GetIdsAndTitles is a helper method used to retrieve UI data from an
    array of Pull Requests. *)
Fixpoint GitHub_GetIdsAndTitles (prs : PullRequests) : result IdsAndTitles :=
  match prs with
  | [] => ok []
  | NotGitHub _ :: _ =>
      err (Errorf "cannot convert given pull request to github.PullRequest")
  | Listed githubPr :: rest =>
      rest' ← GitHub_GetIdsAndTitles rest;
      ok ({[ Head_Ref (pull githubPr) := Title githubPr ]} :: rest')
  end.

(** The loop of GetUserTeams over the pages. *)
Fixpoint list_teams (fuel : nat) (page : Z) (teams : set.Set_ string)
    (s : W * list request)
  : (W * list request) * option (result (set.Set_ string)) :=
  if bool_decide (page ≠ 0) then
    match fuel with
    | O => (s, None)
    | S fuel' =>
        match send (ListUserTeams page 100)
                   (Teams_ListUserTeams api page 100) s with
        | (s', err e) => (s', Some (err e))
        | (s', ok (ghTeams, nextPage)) =>
            let teams :=
              fold_left (fun teams name => (set.Add [name] teams).1)
                        ghTeams teams in
            list_teams fuel' nextPage teams s'
        end
    end
  else (s, Some (ok teams)).

(** GetUserTeams returns a set of teams for the current authenticated
    user. *)
Definition GitHub_GetUserTeams (fuel : nat) (s : W * list request)
  : (W * list request) * option (result (set.Set_ string)) :=
  list_teams fuel 1 set.NewSet s.

(** GetRfcs (controller.go) on the GitHub implementation: returns all
    submitted RFCs based on given data filtering. *)
Definition GetRfcs (fuel : nat) (data : route.GetRfcs) (s : W * list request)
  : (W * list request) * option (result IdsAndTitles) :=
  let filters := [WithOwner (route.GetRfcs_Owner data);
                  IsMerged (route.GetRfcs_Merged data)] in
  match GitHub_GetPullRequests fuel (route.GetRfcs_State data)
          (route.GetRfcs_Count data) filters s with
  | (s', Some (ok prs)) => (s', Some (GitHub_GetIdsAndTitles prs))
  | (s', Some (err e)) => (s', Some (err e))
  | (s', None) => (s', None)
  end.

End GitHub.

End github.

(* ===================================================================== *)
(** ** package models, continued: the response that lists the RFCs *)
(* ===================================================================== *)

Module response.

(** The list of RFCs: maps from an identifier to a title (a nil map is
    [None]), and a count that may be absent. *)
Record RFCs : Type := mkRFCs {
  RFCs_RFCs : list (option (gmap string string));
  RFCs_Count : option Z
}.

(** The cutset of [bytes.Trim(entryJson, "{}")]. *)
Definition in_cutset (c : ascii) : bool :=
  bool_decide (c = "{"%char) || bool_decide (c = "}"%char).

Fixpoint TrimLeft (s : string) : string :=
  match s with
  | EmptyString => EmptyString
  | String c s' => if in_cutset c then TrimLeft s' else s
  end.

Fixpoint TrimRight (s : string) : string :=
  match s with
  | EmptyString => EmptyString
  | String c s' =>
      match TrimRight s' with
      | EmptyString => if in_cutset c then EmptyString else String c EmptyString
      | t => String c t
      end
  end.

(** [bytes.Trim]: all leading and trailing bytes of the cutset are
    removed. *)
Definition Trim (s : string) : string := TrimRight (TrimLeft s).

(** [json.Marshal] on a [map[string]string]. *)
Definition marshal_entry (rfc : option (gmap string string)) : string :=
  match rfc with
  | None => "null"
  | Some m => json.object (json.sort_keys (map_to_list (json.quote <$> m)))
  end.

(** The loop of MarshalJSON over the entries. *)
Definition append_entries (rfcs : list (option (gmap string string)))
    (marshaled : string) : string :=
  (fold_left
     (fun '(marshaled, i) rfc =>
        let marshaled := marshaled +:+ Trim (marshal_entry rfc) in
        (if bool_decide (i < Z.of_nat (length rfcs) - 1)
         then marshaled +:+ "," else marshaled,
         i + 1))
     rfcs (marshaled, 0)).1.

(** MarshalJSON makes the output more compact while retaining the
    meaning of an ordered set of key value pairs. *)
Definition RFCs_MarshalJSON (r : RFCs) : string :=
  let marshaled := "{" +:+ json.dq +:+ "rfcs" +:+ json.dq +:+ ": {" in
  let marshaled := append_entries (RFCs_RFCs r) marshaled in
  let marshaled := marshaled +:+ "}" in
  let marshaled :=
    match RFCs_Count r with
    | Some c => marshaled +:+ ", " +:+ json.dq +:+ "count" +:+ json.dq +:+ ": "
                  +:+ pretty c
    | None => marshaled
    end in
  marshaled +:+ "}".

End response.

(* ===================================================================== *)
(** ** Further notions used in the statements *)
(* ===================================================================== *)

(** The client [c'] is the client [c] after at most [n] calls of the
    status endpoint and [m] calls of the pull request endpoint, with at
    most one wait per call: the responses are the same. *)
Definition polled (n m : nat) (c c' : github_client) : Prop :=
  combined_status c' = combined_status c
  /\ pull_request c' = pull_request c
  /\ (status_calls c <= status_calls c' <= status_calls c + n)%nat
  /\ (pull_calls c <= pull_calls c' <= pull_calls c + m)%nat
  /\ slept c <= slept c'
     <= slept c + MERGEABILITY_WAIT_TIME
                  * Z.of_nat ((status_calls c' - status_calls c)
                              + (pull_calls c' - pull_calls c)).


(** All the comment strings of a review, entry by entry. *)
Definition comment_strings (data : Review) : list string :=
  flat_map snd (map_to_list (Comments data)).

(** The listing of pull requests is paged up to the page [last]: a
    response names a later page, not beyond [last], or none. *)
Definition paged {W : Type} (api : github.Client W) (last : Z) : Prop :=
  forall state page perPage w w' results next,
    github.PullRequests_List api state page perPage w
    = (w', ok (results, next)) ->
    next = 0 \/ page < next <= last.

(** The pull request passes each of the filters. *)
Definition passes (opts : list github.FilterOption)
    (d : github.PullRequestDetails) : Prop :=
  Forall (fun opt => opt (github.Listed d) = true) opts.

(** The requests are listings of pull requests in the given state, by
    pages of the given size. *)
Definition listings (state : string) (perPage : Z)
    (requests : list github.request) : Prop :=
  Forall (fun req => exists page,
            req = github.ListPullRequests state page perPage) requests.

(** An API with one page of pull requests and one page of teams. *)
Definition one_page (results : list github.PullRequestDetails)
    (teams : list string) : github.Client unit :=
  github.mkApi unit
    (fun _ _ _ w => (w, ok (results, 0)))
    (fun _ _ _ w => (w, ok tt))
    (fun _ _ w => (w, ok tt))
    (fun _ _ w => (w, ok (teams, 0))).

Definition octocat_open : github.PullRequestDetails :=
  github.mkDetails (mkPullRequest 7 "1700000000" None)
    "Add an entity" (Some "octocat") None.

Definition hubot_merged : github.PullRequestDetails :=
  github.mkDetails (mkPullRequest 8 "1700000001" None)
    "Remove an entity" (Some "hubot") (Some true).

(** The pages of teams that a walk from the page [p] visits, when the
    page after [q] is [next q] and 0 means that there is none. *)
Inductive reach (next : Z -> Z) : Z -> Z -> Prop :=
  | reach_here (p : Z) : p <> 0 -> reach next p p
  | reach_step (p q : Z) : p <> 0 -> reach next (next p) q -> reach next p q.

(** The API lists the teams by pages of 100: the page [p] holds the
    names [names p] and is followed by the page [next p], a later page
    not beyond [last], or none. *)
Definition serves_teams {W : Type} (api : github.Client W)
    (names : Z -> list string) (next : Z -> Z) (last : Z) : Prop :=
  (forall page w,
      github.Teams_ListUserTeams api page 100 w
      = (w, ok (names page, next page)))
  /\ (forall page, next page = 0 \/ page < next page <= last).

(** The members of one entry of the list of RFCs, as they stand between
    the braces of its JSON object: the keys sorted, the values quoted;
    for a nil map, the word null. *)
Definition members (rfc : option (gmap string string)) : string :=
  match rfc with
  | None => "null"
  | Some m =>
      String.concat ","
        ((fun kv => json.member kv.1 kv.2)
           <$> json.sort_keys (map_to_list (json.quote <$> m)))
  end.

(** What a change of the load status has no business with: the actions
    that are not load actions, in their order, the signature and the
    identifier of the RFC. *)
Definition besides_load (rfc : RFC) : list Action * string * string :=
  (filter (fun a => ~ is_load a) (elems (Actions rfc)),
   RFC_Signature rfc, Identifier rfc).

(** The RFCs that a run has written with UpdateFile. *)
Definition written (events : list controller.call_event) : list RFC :=
  omap (fun ev => match ev with
                  | controller.Earlier (CallUpdateFile _ rfc) => Some rfc
                  | _ => None
                  end) events.

(* ===================================================================== *)
(** ** The encoder and the hash on the values the tests expect *)
(* ===================================================================== *)

Example sha256_abc :
  sha256.sum_hex "abc"
  = "ba7816bf8f01cfea414140de5dae2223b00361a396177a9cb410ff61f20015ad".
Proof. vm_compute. reflexivity. Qed.

(** TestSubmitRequest, "failed to create file": the signature of the
    action and the signature of the RFC, taken before the action is
    signed. *)
Example entity_add_ToSha : Action_ToSha entity_add = ok entity_add_sha.
Proof. vm_compute. reflexivity. Qed.

Example entity_rfc_ToSha :
  RFC_ToSha (mkRFC (Some [entity_add]) EmptyString EmptyString)
  = ok entity_rfc_sha.
Proof. vm_compute. reflexivity. Qed.

(** TestUpdateRequest, "failed to update file". *)
Example test_comment_rfc_ToSha :
  RFC_ToSha (mkRFC (Some [test_comment]) EmptyString EmptyString)
  = ok test_comment_rfc_sha.
Proof. vm_compute. reflexivity. Qed.

Example stored_rfc_is_submitted :
  sign_submission (mkRFC (Some [entity_add]) EmptyString EmptyString)
  = ok stored_rfc.
Proof. vm_compute. reflexivity. Qed.

(* ===================================================================== *)
(** ** Signing *)
(* ===================================================================== *)

Section Strings.

Lemma string_length_app (s1 s2 : string) :
  String.length (s1 +:+ s2) = (String.length s1 + String.length s2)%nat.
Proof. induction s1 as [|c s1 IH]; simpl; [done | by rewrite IH]. Qed.

Lemma weight_app (l1 l2 : list string) :
  weight (l1 ++ l2) = (weight l1 + weight l2)%nat.
Proof. induction l1 as [|x l1 IH]; simpl; [done | rewrite IH; lia]. Qed.

Lemma length_concat (l : list string) :
  l ≠ [] -> (String.length (String.concat "," l) + 1 = weight l)%nat.
Proof.
  induction l as [|x l IH]; [done|]. intros _.
  destruct l as [|y l]; [simpl; lia|].
  change (String.concat "," (x :: y :: l))
    with (x +:+ "," +:+ String.concat "," (y :: l)).
  rewrite !string_length_app.
  assert (Hne : y :: l ≠ []) by done. specialize (IH Hne).
  change (weight (x :: y :: l))
    with (String.length x + 1 + weight (y :: l))%nat.
  simpl String.length at 2. lia.
Qed.

Lemma length_braces (l : list string) :
  l ≠ [] -> String.length (braces l) = (weight l + 1)%nat.
Proof.
  intros Hl. unfold braces. rewrite !string_length_app. simpl.
  pose proof (length_concat l Hl). lia.
Qed.

Lemma omitempty_weight (k v : string) :
  v ≠ EmptyString -> (0 < weight (omitempty k v))%nat.
Proof.
  intros Hv. unfold omitempty. rewrite decide_False by done. simpl. lia.
Qed.

(** An object grows when a member with [omitempty] gets a value. *)
Lemma length_braces_omitempty (pre post : list string) (k v : string) :
  pre ≠ [] -> v ≠ EmptyString ->
  (String.length (braces (pre ++ omitempty k EmptyString ++ post))
   < String.length (braces (pre ++ omitempty k v ++ post)))%nat.
Proof.
  intros Hpre Hv.
  rewrite !length_braces by (destruct pre; done).
  rewrite !weight_app. pose proof (omitempty_weight k v Hv).
  change (weight (omitempty k EmptyString)) with 0%nat. lia.
Qed.

End Strings.

Lemma marshal_Action_signature (a : Action) (s : string) :
  Action_Signature a ≠ EmptyString ->
  marshal_Action a = ok s ->
  exists s0, marshal_Action (unsigned a) = ok s0
             /\ (String.length s0 < String.length s)%nat.
Proof.
  intros Hsig. unfold marshal_Action, unsigned.
  change (Data (set_Action_Signature EmptyString a)) with (Data a).
  destruct (marshal_Data (Data a)) as [d|e]; [|done].
  intros [= <-]. eexists; split; [reflexivity|].
  by apply (length_braces_omitempty [_; _] d "signature" (Action_Signature a)).
Qed.

Lemma marshal_RFC_signature (rfc : RFC) (s : string) :
  RFC_Signature rfc ≠ EmptyString ->
  marshal_RFC rfc = ok s ->
  exists s0, marshal_RFC (set_RFC_Signature EmptyString rfc) = ok s0
             /\ (String.length s0 < String.length s)%nat.
Proof.
  intros Hsig. unfold marshal_RFC.
  change (Actions (set_RFC_Signature EmptyString rfc)) with (Actions rfc).
  destruct (marshal_Actions (Actions rfc)) as [d|e]; [|done].
  intros [= <-]. eexists; split; [reflexivity|].
  by apply (length_braces_omitempty [_] _ "signature" (RFC_Signature rfc)).
Qed.

(** C1, as amended.  Signing does not leave the signature field out:
    ToSha hashes the JSON encoding of the whole entity, and the encoding
    omits the signature member only when the Signature field is empty.
    For an action (an RFC) with a non-empty Signature that can be
    signed, the bytes that are hashed differ from the bytes hashed for
    the same action (RFC) with an empty Signature. *)
Theorem ToSha_hashes_signature (a : Action) (rfc : RFC) :
  Action_Signature a ≠ EmptyString ->
  RFC_Signature rfc ≠ EmptyString ->
  is_ok (Action_ToSha a) = true ->
  is_ok (RFC_ToSha rfc) = true ->
  (exists s s0,
     marshal_Action a = ok s /\ marshal_Action (unsigned a) = ok s0
     /\ s ≠ s0
     /\ Action_ToSha a = ok (sha256.sum_hex s)
     /\ Action_ToSha (unsigned a) = ok (sha256.sum_hex s0))
  /\ (exists s s0,
        marshal_RFC rfc = ok s
        /\ marshal_RFC (set_RFC_Signature EmptyString rfc) = ok s0
        /\ s ≠ s0
        /\ RFC_ToSha rfc = ok (sha256.sum_hex s)
        /\ RFC_ToSha (set_RFC_Signature EmptyString rfc)
           = ok (sha256.sum_hex s0)).
Proof.
  intros Ha Hrfc Hoka Hokr. split.
  - unfold Action_ToSha in *.
    destruct (marshal_Action a) as [s|e] eqn:Hs; [|done].
    destruct (marshal_Action_signature a s Ha Hs) as (s0 & Hs0 & Hlt).
    exists s, s0. rewrite Hs0. repeat split; try done.
    intros ->. lia.
  - unfold RFC_ToSha in *.
    destruct (marshal_RFC rfc) as [s|e] eqn:Hs; [|done].
    destruct (marshal_RFC_signature rfc s Hrfc Hs) as (s0 & Hs0 & Hlt).
    exists s, s0. rewrite Hs0. repeat split; try done.
    intros ->. lia.
Qed.

Lemma ToSha_hashes_signature_witness :
  Action_Signature (set_Action_Signature entity_add_sha entity_add) ≠ EmptyString
  /\ RFC_Signature stored_rfc ≠ EmptyString
  /\ exists s s0,
       marshal_Action (set_Action_Signature entity_add_sha entity_add) = ok s
       /\ marshal_Action entity_add = ok s0
       /\ s ≠ s0.
Proof.
  split; [discriminate|]. split; [discriminate|].
  destruct (ToSha_hashes_signature
              (set_Action_Signature entity_add_sha entity_add) stored_rfc)
    as [(s & s0 & H1 & H2 & H3 & _) _];
    [discriminate | discriminate | vm_compute; reflexivity
     | vm_compute; reflexivity |].
  exists s, s0. split; [exact H1|]. split; [exact H2|exact H3].
Defined.

(** C1, as stated, fails: signing the signed action of the test does not
    give the hash that signing it without its signature gives; likewise
    for the RFC that holds it. *)
Lemma ToSha_depends_on_signature :
  Action_ToSha entity_add = ok entity_add_sha
  /\ Action_ToSha (set_Action_Signature entity_add_sha entity_add)
     = ok "2cc4c0cd8a0018c4b13dd8a9ebbd1e921c65577c6ebcd5cc0151fd8fb18f7d79"
  /\ Action_ToSha (set_Action_Signature entity_add_sha entity_add)
     ≠ Action_ToSha (set_Action_Signature EmptyString entity_add)
  /\ RFC_ToSha stored_rfc
     ≠ RFC_ToSha (set_RFC_Signature EmptyString stored_rfc).
Proof.
  split; [vm_compute; reflexivity|].
  split; [vm_compute; reflexivity|].
  split; vm_compute; discriminate.
Qed.

(* ===================================================================== *)
(** ** Carrying persistent actions over *)
(* ===================================================================== *)

Lemma AddPersistentActions_fold (l : list Action) (rfc : RFC) :
  let rfc' :=
    fold_left
      (fun rfc action =>
         if decide (ActionType action = CommentAction)
         then set_Actions (Some (elems (Actions rfc) ++ [action])) rfc
         else rfc) l rfc in
  elems (Actions rfc') = elems (Actions rfc) ++ filter is_comment l
  /\ RFC_Signature rfc' = RFC_Signature rfc
  /\ Identifier rfc' = Identifier rfc.
Proof.
  revert rfc. induction l as [|a l IH]; intros rfc; simpl.
  - by rewrite app_nil_r.
  - destruct (IH (if decide (ActionType a = CommentAction)
                  then set_Actions (Some (elems (Actions rfc) ++ [a])) rfc
                  else rfc)) as (IH1 & IH2 & IH3).
    rewrite IH1, IH2, IH3. unfold filter at 2. simpl. unfold is_comment at 2.
    destruct (decide (ActionType a = CommentAction)); simpl.
    + by rewrite <- app_assoc.
    + done.
Qed.

(** C9.  AddPersistentActions appends to the new RFC exactly the comment
    actions of the old RFC, in their order and as they are (signature
    included); no other action is carried over, and what the new RFC
    held stays in front, untouched. *)
Theorem AddPersistentActions_carries_comments (newRFC oldRFC : RFC) :
  let rfc' := RFC_AddPersistentActions oldRFC newRFC in
  elems (Actions rfc')
  = elems (Actions newRFC) ++ filter is_comment (elems (Actions oldRFC))
  /\ RFC_Signature rfc' = RFC_Signature newRFC
  /\ Identifier rfc' = Identifier newRFC.
Proof. apply AddPersistentActions_fold. Qed.

Lemma sign_actions_elems (s s' : option (list Action)) :
  sign_actions s = ok s' -> sign_each (elems s) = ok (elems s').
Proof.
  destruct s as [l|]; simpl.
  - destruct (sign_each l) as [l'|e]; simpl; [|done]. by intros [= <-].
  - by intros [= <-].
Qed.


(* ===================================================================== *)
(** ** Adding actions and the signature of the RFC *)
(* ===================================================================== *)

Lemma AddAction_Signature (action : Action) (rfc : RFC) :
  RFC_Signature (RFC_AddAction action rfc).1 = RFC_Signature rfc
  /\ Identifier (RFC_AddAction action rfc).1 = Identifier rfc.
Proof. unfold RFC_AddAction. by destruct (Action_ToSha action). Qed.

Lemma add_comments_Signature (comments : list Action) (rfc : RFC) :
  RFC_Signature (add_comments comments rfc).1 = RFC_Signature rfc
  /\ Identifier (add_comments comments rfc).1 = Identifier rfc.
Proof.
  revert rfc. induction comments as [|c cs IH]; intros rfc; simpl; [done|].
  pose proof (AddAction_Signature c rfc) as [H1 H2].
  destruct (RFC_AddAction c rfc) as [rfc' [e|]]; simpl in *; [done|].
  destruct (IH rfc') as [-> ->]. done.
Qed.

Lemma add_processed_Signature (groups : list (string * list Action))
    (rfc : RFC) :
  RFC_Signature (add_processed groups rfc).1 = RFC_Signature rfc
  /\ Identifier (add_processed groups rfc).1 = Identifier rfc.
Proof.
  revert rfc. induction groups as [|[k cs] gs IH]; intros rfc; simpl; [done|].
  pose proof (add_comments_Signature cs rfc) as [H1 H2].
  destruct (add_comments cs rfc) as [rfc' [e|]]; simpl in *; [done|].
  destruct (IH rfc') as [-> ->]. done.
Qed.

(** AddAction signs what it appends. *)
Lemma AddAction_appends (action : Action) (rfc : RFC) (sha : string) :
  Action_ToSha action = ok sha ->
  RFC_AddAction action rfc
  = (set_Actions
       (Some (elems (Actions rfc) ++ [set_Action_Signature sha action])) rfc,
     None).
Proof. intros H. unfold RFC_AddAction. by rewrite H. Qed.

(** C2, as amended.  Adding does not refresh the signature of the RFC:
    AddAction and AddComments (the review-recording append of
    ReviewRequest is a call of AddAction) leave the Signature field of
    the RFC as it was before the add.  The signature is taken anew only
    where the caller does it, as UpdateRequest does after the persistent
    actions are carried over: there the new signature is the hash of the
    RFC as it stands, under the signature the update came with. *)
Theorem adding_keeps_RFC_Signature (action : Action) (seed2 seed3 : nat)
    (comments : gmap string (list string)) (commenter : string)
    (rfc existingRFC : RFC) :
  RFC_Signature (RFC_AddAction action rfc).1 = RFC_Signature rfc
  /\ RFC_Signature (RFC_AddComments seed2 seed3 comments commenter rfc).1
     = RFC_Signature rfc
  /\ match updated_rfc rfc existingRFC with
     | ok rfc' =>
         RFC_ToSha (set_RFC_Signature (RFC_Signature rfc) rfc')
         = ok (RFC_Signature rfc')
     | err _ => True
     end.
Proof.
  split; [apply AddAction_Signature|].
  split; [unfold RFC_AddComments; apply add_processed_Signature|].
  unfold updated_rfc.
  destruct (sign_actions (Actions rfc)) as [acts|e]; [|done]. simpl.
  set (data := RFC_AddPersistentActions existingRFC (set_Actions acts rfc)).
  destruct (RFC_ToSha data) as [sha|e] eqn:Hsha; [|done]. simpl.
  pose proof (AddPersistentActions_fold (elems (Actions existingRFC))
                (set_Actions acts rfc)) as (_ & Hsig & _).
  fold (RFC_AddPersistentActions existingRFC (set_Actions acts rfc)) in Hsig.
  fold data in Hsig. simpl in Hsig. rewrite <- Hsig, <- Hsha.
  f_equal.
Qed.

(** C2, as stated, fails: an RFC whose signature is the hash of the RFC
    as it stands no longer has that property once AddAction has appended
    an action; the Signature field is the one from before the add. *)
Lemma AddAction_leaves_signature_stale :
  signature_current current_rfc
  /\ (RFC_AddAction test_comment current_rfc).2 = None
  /\ RFC_Signature (RFC_AddAction test_comment current_rfc).1
     = RFC_Signature current_rfc
  /\ ~ signature_current (RFC_AddAction test_comment current_rfc).1
  /\ RFC_ToSha (RFC_AddAction test_comment current_rfc).1
     ≠ ok (RFC_Signature (RFC_AddAction test_comment current_rfc).1).
Proof.
  split; [vm_compute; reflexivity|].
  split; [vm_compute; reflexivity|].
  split; [vm_compute; reflexivity|].
  split; [unfold signature_current|]; vm_compute; discriminate.
Qed.

(* ===================================================================== *)
(** ** Actions whose data are strings can always be signed *)
(* ===================================================================== *)

Lemma marshal_VObj (m : gmap string value) :
  marshal (VObj m)
  = (fun kvs => object (sort_keys kvs)) <$>
      map_fold (fun k x acc => s ← marshal x; kvs ← acc; ok ((k, s) :: kvs))
               (ok []) m.
Proof. reflexivity. Qed.

Lemma marshal_map_ok (m : gmap string value) :
  map_Forall (fun _ v => is_ok (marshal v) = true) m ->
  is_ok (marshal_map m) = true.
Proof.
  unfold marshal_map. rewrite marshal_VObj. intros Hm.
  assert (H : is_ok (map_fold
                       (fun k x acc =>
                          s ← marshal x; kvs ← acc; ok ((k, s) :: kvs))
                       (ok []) m) = true).
  { revert Hm.
    apply (map_fold_weak_ind (fun r m =>
             map_Forall (fun _ v => is_ok (marshal v) = true) m ->
             is_ok r = true)).
    - done.
    - intros i x m' r Hi IH Hall.
      apply map_Forall_insert in Hall as [Hx Hall]; [|done].
      specialize (IH Hall).
      destruct (marshal x); [|done]. destruct r; done. }
  destruct (map_fold _ _ m); done.
Qed.

Lemma marshal_Data_strings (m : gmap string value) :
  map_Forall (fun _ v => is_string v) m ->
  is_ok (marshal_Data (Some m)) = true.
Proof.
  intros Hm. unfold marshal_Data. destruct (decide (m = ∅)); [done|].
  assert (H : is_ok (marshal_map m) = true).
  { apply marshal_map_ok. eapply map_Forall_impl; [exact Hm|].
    intros _ v [s ->]. done. }
  destruct (marshal_map m); done.
Qed.

Lemma ToSha_strings (a : Action) (m : gmap string value) :
  Data a = Some m ->
  map_Forall (fun _ v => is_string v) m ->
  signable a.
Proof.
  intros Ha Hm. unfold signable, Action_ToSha, marshal_Action. rewrite Ha.
  pose proof (marshal_Data_strings m Hm) as H.
  destruct (marshal_Data (Some m)); [|done]. simpl. eauto.
Qed.

Lemma new_load_action_signable (status requester : string) :
  signable (new_load_action status requester).
Proof.
  eapply ToSha_strings; [reflexivity|].
  apply map_Forall_insert_2; [by eexists|].
  apply map_Forall_singleton. by eexists.
Qed.

Lemma action_comment_signable (sig cmt commenter : string) :
  signable (action_comment sig cmt commenter).
Proof.
  eapply ToSha_strings; [reflexivity|].
  apply map_Forall_insert_2; [by eexists|].
  apply map_Forall_singleton. by eexists.
Qed.

Lemma rfc_comment_signable (rfcSignature target cmt commenter : string) :
  signable (rfc_comment rfcSignature target cmt commenter).
Proof.
  unfold rfc_comment. case_decide.
  - eapply ToSha_strings; [reflexivity|]. simpl.
    apply map_Forall_insert_2; [by eexists|].
    apply map_Forall_insert_2; [by eexists|].
    apply map_Forall_singleton. by eexists.
  - eapply ToSha_strings; [reflexivity|].
    apply map_Forall_insert_2; [by eexists|].
    apply map_Forall_singleton. by eexists.
Qed.

(* ===================================================================== *)
(** ** The load status *)
(* ===================================================================== *)

(** The search loop finds the first load action and overwrites it in
    place. *)
Lemma update_load_action_find (status requester : string) (l : list Action) :
  update_load_action status requester l
  = match list_find is_load l with
    | Some (i, a) =>
        Some (<[i := (overwrite_load status requester a).1]> l,
              (overwrite_load status requester a).2)
    | None => None
    end.
Proof.
  induction l as [|a l IH]; [done|].
  cbn [update_load_action list_find]. unfold is_load at 1.
  destruct (decide (ActionType a = LoadAction)) as [Ha|Ha].
  - by destruct (overwrite_load status requester a).
  - rewrite IH. destruct (list_find is_load l) as [[i b]|]; done.
Qed.

Lemma overwrite_load_type (status requester : string) (a : Action) :
  ActionType (overwrite_load status requester a).1 = ActionType a
  /\ Action_Target (overwrite_load status requester a).1 = Action_Target a.
Proof.
  unfold overwrite_load. destruct (Data a); [|done].
  by destruct (Action_ToSha _).
Qed.

(** What a successful overwrite leaves in the load action: the two
    entries, the other data, and the hash of the action as it was hashed,
    under its former signature. *)
Lemma overwrite_load_returned (status requester : string) (a a' : Action) :
  overwrite_load status requester a = (a', Returned None) ->
  exists m,
    Data a = Some m
    /\ Data a' = Some (<[LoadRequester := VStr requester]>
                         (<[LoadStatus := VStr status]> m))
    /\ Action_ToSha (set_Action_Signature (Action_Signature a) a')
       = ok (Action_Signature a').
Proof.
  unfold overwrite_load. destruct (Data a) as [m|]; [|done].
  destruct (Action_ToSha _) as [sha|e] eqn:Hsha; [|done].
  intros [= <-]. exists m. repeat split; done.
Qed.

Lemma overwrite_load_panics (status requester : string) (a : Action) (msg : string) :
  (overwrite_load status requester a).2 = Panicked msg <-> 
  Data a = None /\ msg = "assignment to entry in nil map".
Proof.
  unfold overwrite_load. destruct (Data a) as [m|].
  - destruct (Action_ToSha _); simpl; split; (done || intros [? _]; done).
  - simpl. split; [by intros [= <-]|by intros [_ ->]].
Qed.

Lemma filter_insert_same {A} (P : A -> Prop) `{!forall x, Decision (P x)}
    (l : list A) (i : nat) (a a' : A) :
  l !! i = Some a -> P a -> P a' ->
  length (filter P (<[i := a']> l)) = length (filter P l).
Proof.
  intros Hi Ha Ha'.
  rewrite insert_take_drop by (by eapply lookup_lt_Some).
  rewrite <- (take_drop_middle l i a Hi) at 3.
  rewrite !filter_app, !filter_cons, !decide_True by done.
  by rewrite !length_app.
Qed.

(** UpdateLoadStatus is an upsert of the first load action. *)
Lemma UpdateLoadStatus_upsert (status requester : string) (rfc : RFC) :
  RFC_UpdateLoadStatus status requester rfc
  = match list_find is_load (elems (Actions rfc)) with
    | Some (i, a) =>
        (set_Actions
           (Some (<[i := (overwrite_load status requester a).1]>
                    (elems (Actions rfc)))) rfc,
         (overwrite_load status requester a).2)
    | None =>
        (set_Actions
           (Some (elems (Actions rfc)
                  ++ [sign (new_load_action status requester)])) rfc,
         Returned None)
    end.
Proof.
  unfold RFC_UpdateLoadStatus. rewrite update_load_action_find.
  destruct (list_find is_load (elems (Actions rfc))) as [[i a]|]; [done|].
  destruct (new_load_action_signable status requester) as [sha Hsha].
  rewrite (AddAction_appends _ _ sha Hsha). unfold sign. by rewrite Hsha.
Qed.

Lemma UpdateLoadStatus_count (status requester : string) (rfc : RFC) :
  count_load (RFC_UpdateLoadStatus status requester rfc).1
  = Nat.max 1 (count_load rfc).
Proof.
  rewrite UpdateLoadStatus_upsert. unfold count_load.
  destruct (list_find is_load (elems (Actions rfc))) as [[i a]|] eqn:Hfind.
  - apply list_find_Some in Hfind as (Hi & Ha & _).
    cbn [fst Actions set_Actions elems default from_option id].
    rewrite (filter_insert_same is_load _ i a); [|done|done|].
    + assert (0 < length (filter is_load (elems (Actions rfc))))%nat; [|lia].
      rewrite <- (take_drop_middle _ i a Hi), filter_app, filter_cons,
        decide_True by done.
      rewrite length_app. simpl. lia.
    + unfold is_load.
      by rewrite (proj1 (overwrite_load_type status requester a)).
  - apply list_find_None in Hfind.
    cbn [fst Actions set_Actions elems default from_option id].
    rewrite filter_app, length_app.
    assert (Hnone : filter is_load (elems (Actions rfc)) = []).
    { clear -Hfind. induction Hfind as [|b l Hb _ IH]; [done|].
      by rewrite filter_cons, decide_False. }
    rewrite Hnone. unfold sign.
    destruct (new_load_action_signable status requester) as [sha ->].
    reflexivity.
Qed.

Lemma UpdateLoadStatus_calls_count (calls : list (string * string)) (rfc : RFC) :
  count_load (UpdateLoadStatus_calls calls rfc)
  = match calls with
    | [] => count_load rfc
    | _ :: _ => Nat.max 1 (count_load rfc)
    end.
Proof.
  revert rfc. induction calls as [|[s r] calls IH]; intros rfc; [done|].
  cbn [UpdateLoadStatus_calls fold_left].
  fold (UpdateLoadStatus_calls calls (RFC_UpdateLoadStatus s r rfc).1).
  rewrite IH, UpdateLoadStatus_count. destruct calls; lia.
Qed.

(** C4.  UpdateLoadStatus never produces more than one load action.
    When the RFC holds a load action, the call overwrites the first one
    in place (its status and requester, then its signature) and appends
    nothing; when it holds none, the call appends exactly one, signed.
    An overwrite that returns without an error has written the status
    and the requester into the data of that action, kept its type and
    target, and signed it again.
    So the number of load actions after one call, and after any sequence
    of calls, is the number before or one, whichever is larger: from an
    RFC with at most one load action, no count of calls yields two. *)
Theorem UpdateLoadStatus_single_load (status requester : string) (rfc : RFC)
    (calls : list (string * string)) (a : Action) :
  RFC_UpdateLoadStatus status requester rfc
  = match list_find is_load (elems (Actions rfc)) with
    | Some (i, a) =>
        (set_Actions
           (Some (<[i := (overwrite_load status requester a).1]>
                    (elems (Actions rfc)))) rfc,
         (overwrite_load status requester a).2)
    | None =>
        (set_Actions
           (Some (elems (Actions rfc)
                  ++ [sign (new_load_action status requester)])) rfc,
         Returned None)
    end
  /\ count_load (RFC_UpdateLoadStatus status requester rfc).1
     = Nat.max 1 (count_load rfc)
  /\ count_load (UpdateLoadStatus_calls calls rfc)
     = match calls with
       | [] => count_load rfc
       | _ :: _ => Nat.max 1 (count_load rfc)
       end
  /\ match overwrite_load status requester a with
     | (a', Returned None) =>
         ActionType a' = ActionType a
         /\ Action_Target a' = Action_Target a
         /\ exists m,
              Data a = Some m
              /\ Data a' = Some (<[LoadRequester := VStr requester]>
                                   (<[LoadStatus := VStr status]> m))
              /\ Action_ToSha (set_Action_Signature (Action_Signature a) a')
                 = ok (Action_Signature a')
     | (a', _) => ActionType a' = ActionType a
     end.
Proof.
  split; [apply UpdateLoadStatus_upsert|].
  split; [apply UpdateLoadStatus_count|].
  split; [apply UpdateLoadStatus_calls_count|].
  pose proof (overwrite_load_type status requester a) as [Htype Htarget].
  pose proof (overwrite_load_returned status requester a) as Hret.
  destruct (overwrite_load status requester a) as [a' [[e|]|msg]];
    simpl in *; [done| |done].
  split; [done|]. split; [done|]. by apply Hret.
Qed.

(** The load status as the service drives it, from an RFC without a load
    action: one load action at every point. *)
Example load_status_sequence :
  count_load stored_rfc = 0%nat
  /\ count_load
       (UpdateLoadStatus_calls
          [("load_requested", "octocat"); ("loading", "octocat");
           ("successful", "octocat")] stored_rfc) = 1%nat.
Proof. split; vm_compute; reflexivity. Qed.

(** C10.  UpdateLoadStatus does not panic when every load action of the
    RFC has a non-nil data map. *)
Theorem UpdateLoadStatus_no_panic (status requester : string) (rfc : RFC) :
  (forall a, a ∈ elems (Actions rfc) ->
             ActionType a = LoadAction -> Data a <> None) ->
  forall msg, (RFC_UpdateLoadStatus status requester rfc).2 <> Panicked msg.
Proof.
  intros Hdata msg. rewrite UpdateLoadStatus_upsert.
  destruct (list_find is_load (elems (Actions rfc))) as [[i a]|] eqn:Hfind;
    [|done].
  apply list_find_Some in Hfind as (Hi & Ha & _).
  cbn [snd]. intros Hpanic. apply overwrite_load_panics in Hpanic as [Hnone _].
  apply (Hdata a); [|done|done]. by eapply list_elem_of_lookup_2.
Qed.

Lemma UpdateLoadStatus_no_panic_witness :
  (forall a, a ∈ elems (Actions (RFC_UpdateLoadStatus "loading" "octocat" stored_rfc).1) ->
             ActionType a = LoadAction -> Data a <> None)
  /\ forall msg,
       (RFC_UpdateLoadStatus "successful" "octocat"
          (RFC_UpdateLoadStatus "loading" "octocat" stored_rfc).1).2
       <> Panicked msg.
Proof.
  assert (H : forall a,
             a ∈ elems (Actions (RFC_UpdateLoadStatus "loading" "octocat" stored_rfc).1) ->
             ActionType a = LoadAction -> Data a <> None).
  { intros a Ha Hload.
    apply list_elem_of_In in Ha. vm_compute in Ha.
    destruct Ha as [<-|[<-|[]]]; [discriminate Hload|discriminate]. }
  split; [exact H|].
  exact (UpdateLoadStatus_no_panic "successful" "octocat" _ H).
Defined.

(** The precondition is needed: a load action that came without a data
    field makes the call panic; in general the call panics exactly when
    the first load action has a nil data map. *)
Lemma UpdateLoadStatus_panics (status requester : string) (rfc : RFC)
    (msg : string) :
  (RFC_UpdateLoadStatus status requester rfc).2 = Panicked msg
  <-> exists i a, list_find is_load (elems (Actions rfc)) = Some (i, a)
                  /\ Data a = None
                  /\ msg = "assignment to entry in nil map".
Proof.
  rewrite UpdateLoadStatus_upsert.
  destruct (list_find is_load (elems (Actions rfc))) as [[i a]|]; cbn [snd].
  - rewrite overwrite_load_panics. split.
    + intros [? ?]. by exists i, a.
    + by intros (? & ? & [= <- <-] & ? & ?).
  - split; [done|]. by intros (? & ? & ? & _).
Qed.

Example dataless_load_panics :
  (RFC_UpdateLoadStatus "load_requested" "octocat" dataless_load_rfc).2
  = Panicked "assignment to entry in nil map".
Proof. reflexivity. Qed.

(* ===================================================================== *)
(** ** Attaching comments *)
(* ===================================================================== *)

Lemma insert_at_Permutation {A} (i : nat) (x : A) (l : list A) :
  insert_at i x l ≡ₚ x :: l.
Proof.
  unfold insert_at. rewrite <- Permutation_middle.
  by rewrite take_drop.
Qed.

Lemma permute_Permutation {A} (seed : nat) (l : list A) : permute seed l ≡ₚ l.
Proof.
  revert seed. induction l as [|x l IH]; intros seed; simpl; [done|].
  by rewrite insert_at_Permutation, IH.
Qed.

Lemma map_to_list_imap {A B} (f : string -> A -> option B) (m : gmap string A) :
  map_to_list (map_imap f m)
    ≡ₚ omap (fun kv => (fun y => (kv.1, y)) <$> f kv.1 kv.2) (map_to_list m).
Proof.
  induction m as [|i x m Hi IH] using map_ind.
  - by rewrite map_imap_empty, !map_to_list_empty.
  - rewrite map_imap_insert.
    assert (Hi' : map_imap f m !! i = None) by (by rewrite map_lookup_imap, Hi).
    rewrite (omap_Permutation _ _ _ (map_to_list_insert m i x Hi)). simpl.
    destruct (f i x) as [y|]; simpl.
    + rewrite map_to_list_insert by done. by rewrite IH.
    + by rewrite delete_id.
Qed.

Section AddComments.
Variable comments : gmap string (list string).
Variable commenter : string.
Variable rfc : RFC.

Lemma fold_append (k : string) (f : string -> Action) (cmts : list string)
    (p : gmap string (list Action)) :
  fold_left (fun p cmt => append_processed k (f cmt) p) cmts p
  = if decide (cmts = []) then p
    else <[k := default [] (p !! k) ++ (f <$> cmts)]> p.
Proof.
  revert p. induction cmts as [|c cs IH]; intros p; [done|].
  simpl. rewrite IH. unfold append_processed.
  destruct (decide (cs = [])) as [->|Hcs]; [done|].
  rewrite lookup_insert_eq, insert_insert_eq. simpl.
  by rewrite <- app_assoc.
Qed.

Lemma matches_snoc k l a :
  matches k (l ++ [a])
  = (matches k l + if decide (Action_Signature a = k) then 1 else 0)%nat.
Proof.
  unfold matches. rewrite filter_app, length_app, filter_cons.
  destruct (decide (Action_Signature a = k)); simpl; done.
Qed.

Lemma comments_on_actions_lookup (l : list Action) (k : string) :
  comments_on_actions comments commenter l ∅ !! k = processed_by_actions comments commenter l k.
Proof.
  induction l as [|a l IH] using rev_ind.
  - unfold processed_by_actions. simpl. rewrite lookup_empty.
    destruct (comments !! k); [|done]. by rewrite decide_True by (by right).
  - unfold comments_on_actions in *. rewrite fold_left_app. simpl.
    set (p := fold_left _ l ∅) in *.
    unfold processed_by_actions in *. rewrite matches_snoc.
    destruct (decide (Action_Signature a = k)) as [Hk|Hk]; cbv iota.
    + rewrite Hk. destruct (comments !! k) as [cmts|]; [|done].
      rewrite fold_append.
      destruct (decide (cmts = [])) as [->|Hc].
      * rewrite IH. by rewrite !decide_True by (by left).
      * rewrite lookup_insert_eq, IH.
        destruct (decide (cmts = [] \/ (matches k l + 1)%nat = 0%nat))
          as [[?|?]|_]; [done|lia|].
        f_equal. rewrite Nat.add_1_r, replicate_S_end, join_app. simpl.
        rewrite app_nil_r. f_equal.
        destruct (decide (cmts = [] \/ matches k l = 0%nat)) as [[?|H0]|?]; [done| |done].
        by rewrite H0.
    + rewrite Nat.add_0_r.
      destruct (comments !! Action_Signature a) as [cmts'|]; [|done].
      rewrite fold_append. destruct (decide (cmts' = [])); [done|].
      by rewrite lookup_insert_ne.
Qed.

Lemma comments_on_rfc_lookup (es : list (string * list string))
    (p : gmap string (list Action)) :
  NoDup es.*1 ->
  (forall k cmts, (k, cmts) ∈ es -> comments !! k = Some cmts) ->
  (forall k, k ∈ es.*1 -> p !! k = processed_by_actions comments commenter (elems (Actions rfc)) k) ->
  forall k,
    comments_on_rfc (RFC_Signature rfc) commenter es p !! k
    = if decide (k ∈ es.*1) then processed_entry comments commenter rfc k else p !! k.
Proof.
  revert p. induction es as [|[k0 c0] es IH]; intros p Hnd Hin Hp k.
  - done.
  - simpl in Hnd. apply NoDup_cons in Hnd as [Hk0 Hnd].
    unfold comments_on_rfc in *. simpl fold_left.
    set (p1 := match p !! k0 with Some _ => p | None => _ end).
    assert (Hk0c : comments !! k0 = Some c0) by (apply Hin; left).
    assert (Hp0 : p !! k0 = processed_by_actions comments commenter (elems (Actions rfc)) k0)
      by (apply Hp; simpl; left).
    assert (Hp1 : forall k', k' ≠ k0 -> p1 !! k' = p !! k').
    { intros k' Hne. unfold p1. destruct (p !! k0); [done|].
      rewrite fold_append. destruct (decide (c0 = [])); [done|].
      by rewrite lookup_insert_ne. }
    assert (Hp1k0 : p1 !! k0 = processed_entry comments commenter rfc k0).
    { assert (Hfinal : processed_entry comments commenter rfc k0 = if decide (c0 = []) then None
                else Some (expected_comments rfc commenter (k0, c0))).
      { unfold processed_entry. by rewrite Hk0c. }
      rewrite Hfinal. unfold p1. clear Hfinal Hp1.
      unfold processed_by_actions in Hp0. rewrite Hk0c in Hp0.
      destruct (decide (c0 = [])) as [->|Hc0].
      - rewrite decide_True in Hp0 by (by left). by rewrite Hp0.
      - unfold expected_comments. cbn [fst snd].
        destruct (decide (matches k0 (elems (Actions rfc)) = 0%nat)) as [H0|H0].
        + rewrite decide_True in Hp0 by (by right). rewrite Hp0.
          rewrite fold_append, decide_False by done.
          by rewrite lookup_insert_eq, Hp0.
        + rewrite decide_False in Hp0 by (intros [?|?]; done).
          by rewrite Hp0. }
    rewrite IH; [|done| |].
    + simpl. destruct (decide (k ∈ es.*1)) as [Hk|Hk].
      * by rewrite decide_True by (by right).
      * destruct (decide (k = k0)) as [->|Hne].
        -- by rewrite decide_True by (by left).
        -- rewrite decide_False by (rewrite elem_of_cons; intros [?|?]; done).
           by apply Hp1.
    + intros k' cmts' H'. apply Hin. by right.
    + intros k' Hk'. rewrite Hp1 by (intros ->; done). apply Hp. simpl. by right.
Qed.

Lemma processed_final (seed2 : nat) :
  comments_on_rfc (RFC_Signature rfc) commenter (range_map seed2 comments)
    (comments_on_actions comments commenter (elems (Actions rfc)) ∅)
  = map_imap (fun k cmts =>
                if decide (cmts = []) then None
                else Some (expected_comments rfc commenter (k, cmts))) comments.
Proof.
  apply map_eq. intros k. unfold range_map.
  pose proof (permute_Permutation seed2 (map_to_list comments)) as Hperm.
  rewrite comments_on_rfc_lookup.
  - rewrite map_lookup_imap. fold (processed_entry comments commenter rfc k).
    destruct (decide (k ∈ (permute seed2 (map_to_list comments)).*1)) as [Hk|Hk]; [done|].
    rewrite comments_on_actions_lookup. unfold processed_by_actions, processed_entry.
    destruct (comments !! k) as [cmts|] eqn:Hc; [|done].
    exfalso. apply Hk. rewrite Hperm.
    apply list_elem_of_fmap. exists (k, cmts). split; [done|].
    by apply elem_of_map_to_list.
  - rewrite Hperm. apply NoDup_fst_map_to_list.
  - intros k' cmts' H'. rewrite Hperm in H'. by apply elem_of_map_to_list.
  - intros k' _. apply comments_on_actions_lookup.
Qed.
End AddComments.

Lemma expected_comments_signable rfc commenter entry :
  Forall signable (expected_comments rfc commenter entry).
Proof.
  unfold expected_comments. case_decide.
  - apply Forall_fmap, Forall_forall. intros cmt _. unfold compose.
    apply rfc_comment_signable.
  - apply Forall_forall. intros a Ha.
    apply list_elem_of_join in Ha as (l & Ha & Hl).
    apply elem_of_replicate in Hl as [-> _].
    apply list_elem_of_fmap in Ha as (cmt & -> & _).
    apply action_comment_signable.
Qed.

Lemma add_comments_signable (cs : list Action) (rfc : RFC) :
  Forall signable cs ->
  exists rfc',
    add_comments cs rfc = (rfc', None)
    /\ elems (Actions rfc') = elems (Actions rfc) ++ (sign <$> cs).
Proof.
  revert rfc. induction cs as [|c cs IH]; intros rfc Hcs.
  - exists rfc. simpl. by rewrite app_nil_r.
  - apply Forall_cons in Hcs as [[sha Hc] Hcs]. simpl.
    unfold RFC_AddAction. rewrite Hc.
    destruct (IH (set_Actions (Some (elems (Actions rfc) ++ [set_Action_Signature sha c])) rfc) Hcs)
      as (rfc' & -> & Hrfc').
    exists rfc'. split; [done|]. rewrite Hrfc'. simpl.
    unfold sign at 2. rewrite Hc. by rewrite <- app_assoc.
Qed.

Lemma add_processed_signable (groups : list (string * list Action)) (rfc : RFC) :
  Forall (fun g => Forall signable g.2) groups ->
  exists rfc',
    add_processed groups rfc = (rfc', None)
    /\ elems (Actions rfc') = elems (Actions rfc) ++ (sign <$> mjoin groups.*2).
Proof.
  revert rfc. induction groups as [|[k cs] gs IH]; intros rfc Hgs.
  - exists rfc. simpl. by rewrite app_nil_r.
  - apply Forall_cons in Hgs as [Hcs Hgs]. simpl in Hcs. simpl.
    destruct (add_comments_signable cs rfc Hcs) as (rfc1 & -> & H1).
    destruct (IH rfc1 Hgs) as (rfc' & -> & H').
    exists rfc'. split; [done|]. rewrite H', H1, fmap_app. by rewrite <- app_assoc.
Qed.

Lemma join_omap_flat_map {A B K} (key : A -> K) (f : A -> option (list B))
    (g : A -> list B) (l : list A) :
  (forall x, f x = None -> g x = []) ->
  (forall x y, f x = Some y -> g x = y) ->
  mjoin (omap (fun x => (fun y => (key x, y)) <$> f x) l).*2 = flat_map g l.
Proof.
  intros HNone HSome. induction l as [|x l IH]; [done|].
  simpl. destruct (f x) as [y|] eqn:Hfx; simpl.
  - rewrite <- IH, (HSome x y Hfx). reflexivity.
  - rewrite <- IH, (HNone x Hfx). reflexivity.
Qed.

Lemma expected_comments_nil rfc commenter k :
  expected_comments rfc commenter (k, []) = [].
Proof.
  unfold expected_comments. cbn [fst snd]. case_decide; [done|].
  generalize (matches k (elems (Actions rfc))). intros n.
  induction n as [|n IH]; [done|]. done.
Qed.

Lemma join_expected rfc commenter (l : list (string * list string)) :
  mjoin (omap (fun kv =>
                 (fun y => (kv.1, y)) <$>
                   (if decide (kv.2 = []) then None
                    else Some (expected_comments rfc commenter (kv.1, kv.2)))) l).*2
  = flat_map (expected_comments rfc commenter) l.
Proof.
  apply (join_omap_flat_map fst
           (fun kv => if decide (kv.2 = []) then None
                      else Some (expected_comments rfc commenter (kv.1, kv.2)))).
  - intros [k cmts] H. cbn [fst snd] in H. case_decide as Hc; [|done].
    rewrite Hc. apply expected_comments_nil.
  - intros [k cmts] y H. cbn [fst snd] in H. case_decide; [done|]. by injection H.
Qed.

(** What AddComments appends, whatever the orders of its loops. *)
Lemma AddComments_appends (seed2 seed3 : nat)
    (comments : gmap string (list string)) (commenter : string) (rfc : RFC) :
  exists rfc' added,
    RFC_AddComments seed2 seed3 comments commenter rfc = (rfc', None)
    /\ elems (Actions rfc') = elems (Actions rfc) ++ added
    /\ added ≡ₚ sign <$> flat_map (expected_comments rfc commenter)
                           (map_to_list comments)
    /\ RFC_Signature rfc' = RFC_Signature rfc.
Proof.
  unfold RFC_AddComments. rewrite processed_final.
  set (f := fun k cmts => if decide (cmts = []) then None
                          else Some (expected_comments rfc commenter (k, cmts))).
  pose proof (permute_Permutation seed3 (map_to_list (map_imap f comments))) as Hperm.
  pose proof (map_to_list_imap f comments) as Himap.
  destruct (add_processed_signable (range_map seed3 (map_imap f comments)) rfc)
    as (rfc' & Hrun & Helems).
  { unfold range_map. rewrite Hperm, Himap.
    apply Forall_forall. intros [k cs] Hin.
    apply list_elem_of_omap in Hin as ([k0 cmts] & _ & Hf). simpl in Hf.
    unfold f in Hf. case_decide; [done|]. simpl in Hf. injection Hf as <- <-.
    apply expected_comments_signable. }
  exists rfc', (sign <$> mjoin (range_map seed3 (map_imap f comments)).*2).
  split; [done|]. split; [done|]. split.
  - unfold range_map. rewrite Hperm, Himap. unfold f.
    by rewrite (join_expected rfc commenter (map_to_list comments)).
  - pose proof (add_processed_Signature (range_map seed3 (map_imap f comments)) rfc) as [H _].
    by rewrite Hrun in H.
Qed.

(** The shape of the two kinds of comment. *)
Lemma action_comment_shape (sig cmt commenter : string) :
  ActionType (action_comment sig cmt commenter) = CommentAction
  /\ Action_Target (action_comment sig cmt commenter)
     = mkTarget "action" EmptyString "signature" sig
  /\ Data (action_comment sig cmt commenter)
     = Some {[ "comment" := VStr cmt; "commenter" := VStr commenter ]}.
Proof. done. Qed.

Lemma dangling_note_nonempty (target : string) :
  dangling_note target ≠ EmptyString.
Proof. done. Qed.

Lemma rfc_comment_shape (rfcSignature target cmt commenter : string) :
  ActionType (rfc_comment rfcSignature target cmt commenter) = CommentAction
  /\ Action_Target (rfc_comment rfcSignature target cmt commenter)
     = mkTarget "rfc" EmptyString "signature" rfcSignature
  /\ exists m,
       Data (rfc_comment rfcSignature target cmt commenter) = Some m
       /\ m !! "comment" = Some (VStr cmt)
       /\ m !! "commenter" = Some (VStr commenter)
       /\ m !! "note"
          = if decide (target = rfcSignature) then None
            else Some (VStr (dangling_note target)).
Proof.
  unfold rfc_comment.
  destruct (decide (target = rfcSignature)) as [Heq|Hne].
  - destruct (decide (target ≠ rfcSignature)) as [|_]; [done|].
    repeat split. eexists. split; [reflexivity|].
    repeat split; by simplify_map_eq.
  - destruct (decide (target ≠ rfcSignature)) as [_|]; [|done].
    repeat split. eexists. split; [reflexivity|]. simpl.
    repeat split; by simplify_map_eq.
Qed.

(** C5, as amended.  Whatever orders the two loops over maps take,
    AddComments returns no error and appends, up to their order, exactly
    these signed comment actions and nothing else: for each entry of the
    comments map whose target signature is carried by n > 0 actions, n
    comments on the action ({targetType: action, lookupKey: signature,
    lookupValue: the signature}) per comment string, that is one for each
    action that carries the signature; for each entry whose target is
    carried by no action, one comment on the RFC per comment string,
    with a non-empty note when the target differs from the signature of
    the RFC.  No comment string is dropped. *)
Theorem AddComments_attaches (seed2 seed3 : nat)
    (comments : gmap string (list string)) (commenter : string) (rfc : RFC) :
  (exists rfc' added,
     RFC_AddComments seed2 seed3 comments commenter rfc = (rfc', None)
     /\ elems (Actions rfc') = elems (Actions rfc) ++ added
     /\ added ≡ₚ sign <$> flat_map (expected_comments rfc commenter)
                            (map_to_list comments))
  /\ (forall sig cmts,
        expected_comments rfc commenter (sig, cmts)
        = if decide (matches sig (elems (Actions rfc)) = 0%nat)
          then (fun cmt => rfc_comment (RFC_Signature rfc) sig cmt commenter)
                 <$> cmts
          else mjoin (replicate (matches sig (elems (Actions rfc)))
                        ((fun cmt => action_comment sig cmt commenter) <$> cmts)))
  /\ (forall sig cmt,
        ActionType (action_comment sig cmt commenter) = "comment"
        /\ Action_Target (action_comment sig cmt commenter)
           = mkTarget "action" EmptyString "signature" sig
        /\ Data (action_comment sig cmt commenter)
           = Some {[ "comment" := VStr cmt; "commenter" := VStr commenter ]})
  /\ (forall sig cmt,
        ActionType (rfc_comment (RFC_Signature rfc) sig cmt commenter)
        = "comment"
        /\ Action_Target (rfc_comment (RFC_Signature rfc) sig cmt commenter)
           = mkTarget "rfc" EmptyString "signature" (RFC_Signature rfc)
        /\ exists m,
             Data (rfc_comment (RFC_Signature rfc) sig cmt commenter) = Some m
             /\ m !! "comment" = Some (VStr cmt)
             /\ m !! "commenter" = Some (VStr commenter)
             /\ m !! "note"
                = if decide (sig = RFC_Signature rfc) then None
                  else Some (VStr (dangling_note sig)))
  /\ (forall sig, dangling_note sig ≠ EmptyString).
Proof.
  split.
  { destruct (AddComments_appends seed2 seed3 comments commenter rfc)
      as (rfc' & added & H1 & H2 & H3 & _).
    by exists rfc', added. }
  split; [done|].
  split; [intros; apply action_comment_shape|].
  split; [intros; apply rfc_comment_shape|].
  apply dangling_note_nonempty.
Qed.


(** When no two actions share a signature, the comments are those of the
    specification: one per comment string. *)
Lemma expected_comments_NoDup (rfc : RFC) (commenter : string)
    (entry : string * list string) :
  NoDup (Action_Signature <$> elems (Actions rfc)) ->
  expected_comments rfc commenter entry
  = attachComments_spec rfc commenter entry.
Proof.
  intros Hnd. unfold expected_comments, attachComments_spec.
  case_decide as H0; [done|].
  assert (H1 : matches entry.1 (elems (Actions rfc)) = 1%nat).
  { revert Hnd H0. unfold matches.
    induction (elems (Actions rfc)) as [|a l IH]; [done|].
    rewrite fmap_cons, NoDup_cons, filter_cons. intros [Ha Hnd].
    destruct (decide (Action_Signature a = entry.1)) as [Heq|Hne].
    - intros _. simpl. f_equal.
      assert (Hnil : filter (fun a0 => Action_Signature a0 = entry.1) l = []).
      { clear -Ha Heq. induction l as [|b l IH]; [done|].
        rewrite filter_cons. rewrite fmap_cons, not_elem_of_cons in Ha.
        destruct Ha as [Hb Hl]. rewrite decide_False by congruence. auto. }
      by rewrite Hnil.
    - auto. }
  rewrite H1. simpl. by rewrite app_nil_r.
Qed.

(** C5, as stated, fails when two actions carry the same signature: one
    comment string on that signature yields two comment actions, not
    one. *)
Lemma AddComments_duplicate_signature :
  (RFC_AddComments 0 0 twin_comments "octocat" twin_rfc).2 = None
  /\ length (drop 2 (elems (Actions
               (RFC_AddComments 0 0 twin_comments "octocat" twin_rfc).1)))
     = 2%nat
  /\ drop 2 (elems (Actions
               (RFC_AddComments 0 0 twin_comments "octocat" twin_rfc).1))
     = sign <$> [action_comment entity_add_sha "Why twice?" "octocat";
                 action_comment entity_add_sha "Why twice?" "octocat"]
  /\ flat_map (attachComments_spec twin_rfc "octocat")
              (map_to_list twin_comments)
     = [action_comment entity_add_sha "Why twice?" "octocat"].
Proof. repeat split; vm_compute; reflexivity. Qed.

(* ===================================================================== *)
(** ** The mergeability poller *)
(* ===================================================================== *)

(** As long as the API answers, the first loop ends without an error and
    makes no call on the pull request. *)
Lemma poll_combined_status_ok (k : nat) statuses pulls (n m : nat) (z : Z) :
  exists n' z',
    poll_combined_status k (ok_client statuses pulls n m z)
    = (ok_client statuses pulls n' m z', None).
Proof.
  revert n z. induction k as [|k IH]; intros n z; simpl.
  - by exists n, z.
  - case_bool_decide.
    + apply IH.
    + by exists (S n), z.
Qed.

(** C6, as amended.  For a GitHub pull request and an API all of whose
    calls succeed, GetMergeability returns the error "unable to
    determine mergeability of rfc" exactly when the merge state is
    unknown or absent in each of the MERGEABILITY_RETRY_COUNT polls of
    the pull request; otherwise it returns a verdict, which is true
    exactly when the first merge state that is neither absent nor
    unknown is the clean state. *)
Theorem GetMergeability_verdict statuses pulls (n m : nat) (z : Z)
    (p : github_PullRequest) :
  (GitHub_GetMergeability (GitHubPullRequest p)
     (ok_client statuses pulls n m z)).2
  = match list_find resolved [pulls m; pulls (S m); pulls (S (S m))] with
    | Some (_, q) =>
        ok (bool_decide (MergeableState q = Some MERGEABILITY_CLEAN_STATE))
    | None => err (Errorf "unable to determine mergeability of rfc")
    end.
Proof.
  unfold GitHub_GetMergeability.
  destruct (poll_combined_status_ok MERGEABILITY_RETRY_COUNT
              statuses pulls n m z) as (n' & z' & ->).
  unfold MERGEABILITY_RETRY_COUNT, poll_pull_request, PullRequests_Get,
    ok_client.
  cbn [pull_request pull_calls combined_status status_calls slept Sleep].
  cbn [list_find].
  destruct (decide (resolved (pulls m))) as [H0|H0]; unfold resolved in H0.
  { rewrite H0. simpl. by rewrite H0. }
  apply not_false_iff_true in H0. rewrite H0.
  destruct (decide (resolved (pulls (S m)))) as [H1|H1]; unfold resolved in H1.
  { rewrite H1. simpl. by rewrite H1. }
  apply not_false_iff_true in H1. rewrite H1.
  destruct (decide (resolved (pulls (S (S m))))) as [H2|H2];
    unfold resolved in H2.
  { rewrite H2. simpl. by rewrite H2. }
  apply not_false_iff_true in H2. rewrite H2. simpl. by rewrite H2.
Qed.

(** The scenarios of the specification: pending, then clean; and unknown
    in every poll. *)
Example pending_then_clean :
  (GitHub_GetMergeability
     (GitHubPullRequest (mkPullRequest 7 identifier None))
     (mkClient
        (fun i => ok (mkCombinedStatus
                        (Some (match i with O => "pending" | _ => "success" end))))
        (fun _ => ok (mkPullRequest 7 identifier (Some "clean")))
        0 0 0)).2
  = ok true.
Proof. reflexivity. Qed.

Example stuck_at_unknown :
  (GitHub_GetMergeability
     (GitHubPullRequest (mkPullRequest 7 identifier None))
     (ok_client (fun _ => mkCombinedStatus (Some "success"))
                (fun _ => mkPullRequest 7 identifier (Some "unknown"))
                0 0 0)).2
  = err (Errorf "unable to determine mergeability of rfc").
Proof. reflexivity. Qed.

(** A value that is not a GitHub pull request is refused. *)
Lemma GetMergeability_other (what : string) (c : github_client) :
  GitHub_GetMergeability (OtherPullRequest what) c
  = (c, err (Errorf "given pull request is not of type github.PullRequest")).
Proof. reflexivity. Qed.

(** C6, as stated, fails: when the API fails in the second poll of the
    pull request, GetMergeability returns that error, neither a verdict
    nor the outcome of retries that ran out on an unknown state. *)
Lemma GetMergeability_api_failure :
  GitHub_GetMergeability
    (GitHubPullRequest (mkPullRequest 7 identifier None)) flaky_client
  = (mkClient (combined_status flaky_client) (pull_request flaky_client)
              1 2 10,
     err (ApiError "502 Bad Gateway"))
  /\ ~ unknown_after_retries flaky_client.
Proof.
  split; [reflexivity|].
  intros H. destruct (H 1%nat) as (p & Hp & _);
    [unfold MERGEABILITY_RETRY_COUNT; lia|].
  discriminate Hp.
Qed.

(* ===================================================================== *)
(** ** Submitting *)
(* ===================================================================== *)

(** C7.  When the branch was created and writing the file fails, the
    branch is deleted (the call is made, right after the failed write)
    and SubmitRequest returns the error of the write, whatever the
    deletion returns; when the file was written and opening the pull
    request fails, the branch is deleted likewise and the error of the
    pull request is returned. *)
Theorem SubmitRequest_compensation {W : Type} (CreateRFCIdentifier : W -> string)
    (git : Git W) (data data' : RFC)
    (w w1 w2 : W) (trace : list event) (written : result unit) :
  let branch := CreateRFCIdentifier w in
  sign_submission data = ok data' ->
  CreateBranch git branch BASE_BRANCH w = (w1, ok tt) ->
  CreateFile git branch branch data' w1 = (w2, written) ->
  match written with
  | err e =>
      SubmitRequest CreateRFCIdentifier git data (w, trace)
      = (((DeleteBranch git branch w2).1,
          trace ++ [CallCreateBranch branch BASE_BRANCH;
                    CallCreateFile branch branch data';
                    CallDeleteBranch branch]),
         err e)
  | ok _ =>
      forall w3 e,
        CreatePullRequest git branch BASE_BRANCH w2 = (w3, err e) ->
        SubmitRequest CreateRFCIdentifier git data (w, trace)
        = (((DeleteBranch git branch w3).1,
            trace ++ [CallCreateBranch branch BASE_BRANCH;
                      CallCreateFile branch branch data';
                      CallCreatePullRequest branch BASE_BRANCH;
                      CallDeleteBranch branch]),
           err e)
  end.
Proof.
  intros branch Hsign Hcb Hcf.
  unfold SubmitRequest, bind, lift, or_revoke, revoke, call, ret.
  rewrite Hsign. simpl. fold branch. rewrite Hcb. simpl. rewrite Hcf.
  destruct written as [[]|e].
  - intros w3 e Hpr. simpl. rewrite Hpr. simpl.
    destruct (DeleteBranch git branch w3) as [w4 r]. simpl.
    by rewrite <- !app_assoc.
  - simpl. destruct (DeleteBranch git branch w2) as [w4 r]. simpl.
    by rewrite <- !app_assoc.
Qed.

(** TestSubmitRequest, "failed create file and delete branch". *)
Lemma SubmitRequest_compensation_witness :
  sign_submission (mkRFC (Some [entity_add]) EmptyString EmptyString)
  = ok stored_rfc
  /\ DeleteBranch (mock failed_create_file_and_delete_branch) identifier tt
     = (tt, err (Errorf "delete branch error"))
  /\ SubmitRequest createRFCIdentifier
       (mock failed_create_file_and_delete_branch)
       (mkRFC (Some [entity_add]) EmptyString EmptyString) (tt, [])
     = ((tt, [CallCreateBranch identifier BASE_BRANCH;
              CallCreateFile identifier identifier stored_rfc;
              CallDeleteBranch identifier]),
        err (Errorf "create file error")).
Proof.
  split; [vm_compute; reflexivity|]. split; [reflexivity|].
  apply (SubmitRequest_compensation createRFCIdentifier
           (mock failed_create_file_and_delete_branch)
           (mkRFC (Some [entity_add]) EmptyString EmptyString) stored_rfc
           tt tt tt [] (err (Errorf "create file error")));
    [vm_compute; reflexivity | reflexivity | reflexivity].
Defined.

(* ===================================================================== *)
(** ** Reviewing *)
(* ===================================================================== *)

(** A COMMENT or REQUEST_CHANGES review with neither a top-level comment
    nor an entry in its comments map is rejected with a validation error
    before anything is done: no call on the backend is made (the trace
    and the backend state are those of the start). *)
Lemma ReviewRequest_requires_comment {W : Type}
    (json_Unmarshal : string -> result RFC) (seed2 seed3 : nat)
    (git gitMachine : Git W) (data : Review) (s : W * list event) :
  Type_ data = COMMENT_REVIEW_TYPE
  \/ Type_ data = REQUEST_CHANGES_REVIEW_TYPE ->
  TopLevelComment data = EmptyString ->
  size (Comments data) = 0%nat ->
  ReviewRequest json_Unmarshal seed2 seed3 git gitMachine data s
  = (s, err (Errorf (review_needs_comment data))).
Proof.
  intros Htype Htop Hcomments. unfold ReviewRequest.
  by rewrite bool_decide_eq_true_2.
Qed.

Lemma ReviewRequest_requires_comment_witness :
  (Type_ empty_review = COMMENT_REVIEW_TYPE
   \/ Type_ empty_review = REQUEST_CHANGES_REVIEW_TYPE)
  /\ TopLevelComment empty_review = EmptyString
  /\ size (Comments empty_review) = 0%nat
  /\ ReviewRequest (fun _ => ok stored_rfc) 0 0 (mock all_ok) (mock all_ok)
       empty_review (tt, [])
     = ((tt, []),
        err (Errorf "Review of type COMMENT must include a top level comment or inline comments")).
Proof.
  split; [left; reflexivity|]. split; [reflexivity|]. split; [reflexivity|].
  apply (ReviewRequest_requires_comment (fun _ => ok stored_rfc) 0 0
           (mock all_ok) (mock all_ok) empty_review (tt, []));
    [left; reflexivity | reflexivity | reflexivity].
Defined.

(** C8 at a COMMENT review without a top-level comment whose comments map
    holds one entry with an empty list of comments: the review carries
    no comment at all, yet it is not rejected; the validation counts the
    entries of the map.  The backend is called: the stored RFC is
    written back as it was and the review is created. *)
Theorem ReviewRequest_accepts_empty_comment_lists :
  TopLevelComment no_comment_strings_review = EmptyString
  /\ flat_map snd (map_to_list (Comments no_comment_strings_review)) = []
  /\ ReviewRequest (fun _ => ok stored_rfc) 0 0 (mock all_ok) (mock all_ok)
       no_comment_strings_review (tt, [])
     = ((tt,
         [CallGetPullRequest identifier; CallGetUserLogin;
          CallGetRFCContents identifier;
          CallUpdateFile (OtherPullRequest "nil") stored_rfc;
          CallCreateReview (OtherPullRequest "nil") no_comment_strings_review]),
        ok "Successfully reviewed RFC test-identifier with type of 'COMMENT'").
Proof. repeat split; vm_compute; reflexivity. Qed.

(** The review action of an APPROVE or REQUEST_CHANGES review (any type
    but COMMENT): on the RFC, typed by the lower-cased review type, the
    login under "reviewer", the top-level comment under "comment" when
    there is one. *)
Lemma review_action_reviewer (data : Review) (login : string) (rfc : RFC) :
  Type_ data ≠ COMMENT_REVIEW_TYPE ->
  let action := review_action data login rfc in
  ActionType action = ToLower (Type_ data)
  /\ Action_Target action
     = mkTarget "rfc" EmptyString "signature" (RFC_Signature rfc)
  /\ exists m,
       Data action = Some m
       /\ m !! "reviewer" = Some (VStr login)
       /\ m !! "comment"
          = if decide (TopLevelComment data = EmptyString) then None
            else Some (VStr (TopLevelComment data)).
Proof.
  intros Htype action. unfold action, review_action.
  destruct (decide (Type_ data = COMMENT_REVIEW_TYPE)) as [|_]; [done|].
  destruct (decide (TopLevelComment data = EmptyString)) as [Htop|Htop].
  - destruct (decide (TopLevelComment data ≠ EmptyString)) as [|_]; [done|].
    repeat split. eexists. split; [reflexivity|]. by simplify_map_eq.
  - destruct (decide (TopLevelComment data ≠ EmptyString)) as [_|]; [|done].
    repeat split. eexists. split; [reflexivity|]. simpl. by simplify_map_eq.
Qed.

(** The review action of a COMMENT review, which is built only when
    there is a top-level comment: the login is written under "comment"
    and then overwritten by the comment; no key holds the login. *)
Lemma review_action_comment (data : Review) (login : string) (rfc : RFC) :
  Type_ data = COMMENT_REVIEW_TYPE ->
  TopLevelComment data ≠ EmptyString ->
  review_action data login rfc
  = mkAction "comment"
      (mkTarget "rfc" EmptyString "signature" (RFC_Signature rfc))
      EmptyString
      (Some {[ "comment" := VStr (TopLevelComment data) ]}).
Proof.
  intros Htype Htop. unfold review_action.
  rewrite Htype, !decide_True by done.
  unfold set_Data. simpl. by rewrite insert_singleton_eq.
Qed.

(** C3 at a COMMENT review with a top-level comment, by the user
    octocat: the review action that ReviewRequest appends and writes has
    the comment under "comment" and nothing under "commenter"; the login
    of the acting user is not recorded. *)
Theorem ReviewRequest_comment_review_drops_commenter :
  review_action comment_review "octocat" stored_rfc
  = mkAction "comment" (mkTarget "rfc" EmptyString "signature" entity_rfc_sha)
      EmptyString (Some {[ "comment" := VStr "This is my review comment!" ]})
  /\ (forall m, Data (review_action comment_review "octocat" stored_rfc) = Some m ->
                m !! CommenterData = None)
  /\ ReviewRequest (fun _ => ok stored_rfc) 0 0 (mock all_ok) (mock all_ok)
       comment_review (tt, [])
     = ((tt,
         [CallGetPullRequest identifier; CallGetUserLogin;
          CallGetRFCContents identifier;
          CallUpdateFile (OtherPullRequest "nil")
            (set_Actions
               (Some [set_Action_Signature entity_add_sha entity_add;
                      sign (review_action comment_review "octocat" stored_rfc)])
               stored_rfc);
          CallCreateReview (OtherPullRequest "nil") comment_review]),
        ok "Successfully reviewed RFC test-identifier with type of 'COMMENT'").
Proof.
  split; [vm_compute; reflexivity|]. split.
  - intros m. vm_compute. intros [= <-]. reflexivity.
  - vm_compute. reflexivity.
Qed.

Lemma review_action_signable (data : Review) (login : string) (rfc : RFC) :
  signable (review_action data login rfc).
Proof.
  unfold review_action. case_decide.
  - eapply ToSha_strings; [reflexivity|]. simpl.
    apply map_Forall_insert_2; [by eexists|].
    apply map_Forall_singleton. by eexists.
  - eapply ToSha_strings; [reflexivity|].
    apply map_Forall_singleton. by eexists.
Qed.

(** X19 (controller.go, ReviewRequest).  What ReviewRequest writes.
    Once the review is accepted and the pull
    request, the login and the stored RFC are read, the RFC handed to
    UpdateFile is the stored one, with the comments added and, for a
    review that is not a bare comment, the signed review action at the
    end; its Signature field is that of the stored RFC. *)
Lemma ReviewRequest_writes {W : Type} (json_Unmarshal : string -> result RFC)
    (seed2 seed3 : nat) (git gitMachine : Git W) (data : Review)
    (w w1 w2 w3 : W) (trace : list event) (pr : PullRequest)
    (login : string) (content : string * string) (rfc0 : RFC) :
  let id := Review_RFCIdentifier data in
  let rfc1 := (RFC_AddComments seed2 seed3 (Comments data) login rfc0).1 in
  let rfc2 :=
    if bool_decide (Type_ data ≠ COMMENT_REVIEW_TYPE
                    ∨ TopLevelComment data ≠ EmptyString)
    then set_Actions
           (Some (elems (Actions rfc1)
                  ++ [sign (review_action data login rfc1)])) rfc1
    else rfc1 in
  ~ ((Type_ data = COMMENT_REVIEW_TYPE
      \/ Type_ data = REQUEST_CHANGES_REVIEW_TYPE)
     /\ TopLevelComment data = EmptyString
     /\ size (Comments data) = 0%nat) ->
  GetPullRequest git id w = (w1, ok pr) ->
  GetUserLogin git w1 = (w2, ok login) ->
  GetRFCContents git id w2 = (w3, ok content) ->
  json_Unmarshal content.1 = ok rfc0 ->
  RFC_Signature rfc2 = RFC_Signature rfc0
  /\ exists events,
       (ReviewRequest json_Unmarshal seed2 seed3 git gitMachine data
          (w, trace)).1.2
       = trace ++ [CallGetPullRequest id; CallGetUserLogin;
                   CallGetRFCContents id; CallUpdateFile pr rfc2] ++ events.
Proof.
  intros id rfc1 rfc2 Hvalid Hpr Hlogin Hcontent Hrfc0.
  destruct (AddComments_appends seed2 seed3 (Comments data) login rfc0)
    as (rfc1' & added & Hadd & _ & _ & Hsig1).
  assert (Hrfc1 : rfc1 = rfc1') by (unfold rfc1; by rewrite Hadd).
  split.
  { unfold rfc2. case_bool_decide; simpl; by rewrite Hrfc1. }
  unfold ReviewRequest. rewrite bool_decide_eq_false_2 by done.
  unfold bind, call, lift, lift_method, ret, go. fold id.
  rewrite Hpr, Hlogin, Hcontent, Hrfc0, Hadd. fold rfc1. rewrite <- Hrfc1.
  destruct (review_action_signable data login rfc1) as [sha Hsha].
  assert (Hsign : sign (review_action data login rfc1)
                  = set_Action_Signature sha (review_action data login rfc1))
    by (unfold sign; by rewrite Hsha).
  unfold rfc2. rewrite Hsign. clear Hsign.
  case_bool_decide.
  - rewrite (AddAction_appends _ _ sha Hsha).
    destruct (UpdateFile git pr _ w3) as [w4 [[]|e]].
    + destruct (CreateReview git pr data w4) as [w5 [[]|e]].
      * destruct (bool_decide (Type_ data = APPROVE_REVIEW_TYPE)
                  && LoadOnApproval data); simpl;
          rewrite <- !app_assoc; simpl; eexists; reflexivity.
      * simpl. rewrite <- !app_assoc. simpl. eexists; reflexivity.
    + simpl. rewrite <- !app_assoc. simpl. by exists [].
  - destruct (UpdateFile git pr _ w3) as [w4 [[]|e]].
    + destruct (CreateReview git pr data w4) as [w5 [[]|e]].
      * destruct (bool_decide (Type_ data = APPROVE_REVIEW_TYPE)
                  && LoadOnApproval data); simpl;
          rewrite <- !app_assoc; simpl; eexists; reflexivity.
      * simpl. rewrite <- !app_assoc. simpl. eexists; reflexivity.
    + simpl. rewrite <- !app_assoc. simpl. by exists [].
Qed.

(* ===================================================================== *)
(** ** Sets *)
(* ===================================================================== *)

(** [set_solver] clears hypotheses by name; the ones it does not find
    are no concern here. *)
#[local] Set Warnings "-clear-no-such-hyp".

Section SetProofs.

Context {K : Type} {EqK : EqDecision K} {CountK : Countable K}.
Implicit Types (s o : set.Set_ K) (values : list K) (x : K).

Lemma put_all_elem values (m : gset K) x :
  x ∈ set.put_all values m <-> x ∈ values \/ x ∈ m.
Proof.
  revert m. induction values as [|v values IH]; intros m; simpl.
  - set_solver.
  - rewrite IH. set_solver.
Qed.

Lemma put_all_list_to_set values :
  set.put_all values ∅ = list_to_set values.
Proof.
  apply set_eq. intros x. rewrite put_all_elem. set_solver.
Qed.

Lemma delete_all_elem values (m : gset K) x :
  x ∈ set.delete_all values m <-> x ∈ m /\ x ∉ values.
Proof.
  revert m. induction values as [|v values IH]; intros m; simpl.
  - set_solver.
  - rewrite IH. set_solver.
Qed.

Lemma Values_elem seed s x : x ∈ set.Values seed s <-> x ∈ set.vals s.
Proof.
  unfold set.Values. rewrite permute_Permutation. apply elem_of_elements.
Qed.

Lemma Contains_true x s : set.Contains x s = true <-> x ∈ set.vals s.
Proof. unfold set.Contains. apply bool_decide_eq_true. Qed.

(** X1 (set.go, NewSetOf; immutable.go, NewImmutableOf).  A set built
    from a list of values contains exactly the values of the list, and
    its size counts each distinct value once, whatever the number of its
    occurrences in the list. *)
Theorem NewSetOf_values values :
  (forall x, set.Contains x (set.NewSetOf values) = true <-> x ∈ values) /\
  (forall x, set.Contains x (set.NewImmutableOf values) = true <-> x ∈ values) /\
  set.Size (set.NewSetOf values) = length (remove_dups values) /\
  set.Size (set.NewImmutableOf values) = length (remove_dups values).
Proof.
  assert (Hsize : size (set.put_all values ∅) = length (remove_dups values)).
  { rewrite <- (size_list_to_set (C := gset K) (remove_dups values))
      by apply NoDup_remove_dups.
    f_equal. apply set_eq. intros x.
    rewrite put_all_elem, elem_of_list_to_set, elem_of_remove_dups.
    set_solver. }
  repeat split; try done;
    rewrite ?Contains_true; simpl; rewrite put_all_elem; set_solver.
Qed.

(** X2 (set.go and immutable.go, Add).  Adding values to a mutable set
    gives no error and a set that contains a value exactly when it was
    added or was there before, so that adding values already present
    changes nothing; an immutable set answers with an error and stays
    as it is. *)
Theorem Add_membership values s :
  match set.impl s with
  | set.Mutable =>
      (set.Add values s).2 = None /\
      set.impl (set.Add values s).1 = set.Mutable /\
      (forall x, set.Contains x (set.Add values s).1
                 = bool_decide (x ∈ values) || set.Contains x s) /\
      (Forall (fun x => set.Contains x s = true) values ->
       (set.Add values s).1 = s)
  | set.Immutable =>
      set.Add values s =
        (s, Some (Errorf
                    "unsupported operation: Add. cannot modify an immutable set"))
  end.
Proof.
  destruct s as [[] m]; unfold set.Add; simpl; [|done].
  split_and!; try done.
  - intros x. unfold set.Contains. simpl.
    rewrite <- bool_decide_or. apply bool_decide_ext, put_all_elem.
  - intros Hall. f_equal. apply set_eq. intros x.
    rewrite put_all_elem. rewrite Forall_forall in Hall.
    split; [|by right]. intros [Hx|Hx]; [|done].
    by apply (Contains_true x (set.mkSet set.Mutable m)), Hall.
Qed.

(** X3 (set.go and immutable.go, Delete).  Deleting values from a
    mutable set gives no error and a set that contains a value exactly
    when it was there before and was not deleted, so that deleting
    absent values changes nothing; an immutable set answers with an
    error and stays as it is. *)
Theorem Delete_membership values s :
  match set.impl s with
  | set.Mutable =>
      (set.Delete values s).2 = None /\
      set.impl (set.Delete values s).1 = set.Mutable /\
      (forall x, set.Contains x (set.Delete values s).1
                 = set.Contains x s && negb (bool_decide (x ∈ values))) /\
      (Forall (fun x => set.Contains x s = false) values ->
       (set.Delete values s).1 = s)
  | set.Immutable =>
      set.Delete values s =
        (s, Some (Errorf
                    "unsupported operation: Delete. cannot modify an immutable set"))
  end.
Proof.
  destruct s as [[] m]; unfold set.Delete; simpl; [|done].
  split_and!; try done.
  - intros x. unfold set.Contains. simpl.
    apply eq_true_iff_eq.
    rewrite andb_true_iff, negb_true_iff, !bool_decide_eq_true,
      bool_decide_eq_false.
    apply delete_all_elem.
  - intros Hall. f_equal. apply set_eq. intros x.
    rewrite delete_all_elem. rewrite Forall_forall in Hall.
    split; [by intros [? _]|]. intros Hx. split; [done|].
    intros Hin. specialize (Hall x Hin).
    unfold set.Contains in Hall. simpl in Hall.
    by apply bool_decide_eq_false in Hall.
Qed.

(** X4 (set.go, Values and Size).  In whatever order the map is
    visited, Values lists every value of the set once: the slice has no
    duplicates, as many entries as Size says, and holds a value exactly
    when Contains answers true. *)
Theorem Values_lists_the_set seed s :
  NoDup (set.Values seed s) /\
  length (set.Values seed s) = set.Size s /\
  forall x, x ∈ set.Values seed s <-> set.Contains x s = true.
Proof.
  split_and!.
  - unfold set.Values. rewrite permute_Permutation. apply NoDup_elements.
  - unfold set.Values, set.Size. by rewrite permute_Permutation.
  - intros x. by rewrite Values_elem, Contains_true.
Qed.

(** X5 (set.go and immutable.go, Intersect).  The intersection with
    another set holds exactly the values that both sets contain and is a
    set of the receiver's kind; with a nil other set the call ends in a
    nil dereference unless the receiver is empty. *)
Theorem Intersect_common_values seed other s :
  match other with
  | Some o =>
      exists r, set.Intersect seed other s = set.Normal r /\
                set.impl r = set.impl s /\
                set.vals r = set.vals s ∩ set.vals o
  | None =>
      if decide (set.vals s = ∅)
      then exists r, set.Intersect seed other s = set.Normal r /\
                     set.impl r = set.impl s /\ set.vals r = ∅
      else set.Intersect seed other s = set.NilDereference
  end.
Proof.
  destruct other as [o|].
  - eexists. split; [done|]. split; [by destruct s as [[] ?]|].
    transitivity (set.put_all
                    (List.filter (fun val => set.Contains val o)
                                 (set.Values seed s)) ∅);
      [by destruct s as [[] ?]|].
    apply set_eq. intros x.
    rewrite put_all_elem, elem_of_intersection.
    rewrite <- (Values_elem seed s x), <- (Contains_true x o).
    rewrite list_elem_of_In, filter_In, <- list_elem_of_In.
    set_solver.
  - unfold set.Intersect.
    destruct (decide (set.vals s = ∅)) as [He|Hne].
    + assert (Hnil : set.Values seed s = []).
      { unfold set.Values. rewrite He, elements_empty. done. }
      rewrite Hnil. eexists. split; [done|].
      by destruct s as [[] ?].
    + destruct (set.Values seed s) as [|v l] eqn:Hv; [|done].
      exfalso. apply Hne. apply set_eq. intros x.
      rewrite <- (Values_elem seed s x), Hv. set_solver.
Qed.

(** X6 (set.go and immutable.go, Equals).  Two sets are equal exactly
    when they hold the same values, whichever of the two kinds each of
    them is and in whatever order the map is visited; no set equals the
    nil set. *)
Theorem Equals_same_values seed other s :
  set.Equals seed other s = true <->
  exists o, other = Some o /\ set.vals s = set.vals o.
Proof.
  destruct other as [o|]; simpl; [|split; [done|by intros (? & ? & _)]].
  unfold set.Size.
  destruct (Nat.eqb_spec (size (set.vals s)) (size (set.vals o)))
    as [Hsz|Hsz]; simpl.
  - rewrite forallb_forall. split.
    + intros Hall. exists o. split; [done|].
      apply set_subseteq_size_eq; [|lia].
      intros x Hx. apply Contains_true, Hall, list_elem_of_In.
      by apply Values_elem.
    + intros (o' & [= <-] & Heq) x Hx.
      apply Contains_true. rewrite <- Heq.
      by apply (Values_elem seed), list_elem_of_In.
  - split; [done|]. intros (o' & [= <-] & Heq). by rewrite Heq in Hsz.
Qed.

End SetProofs.

Lemma array_not_null (items : list string) : json.array items <> "null".
Proof. unfold json.array. by destruct items. Qed.

(** X7 (set.go, MarshalJSON).  A set of strings is rendered as the JSON
    array of its quoted values, in the order of the visit, except the
    empty set: its slice of values is nil and is rendered as null. *)
Theorem MarshalJSON_empty_is_null seed (s : set.Set_ string) :
  (set.vals s = ∅ -> set.MarshalJSON seed s = "null") /\
  (set.vals s <> ∅ ->
   set.MarshalJSON seed s = json.array (json.quote <$> set.Values seed s) /\
   set.MarshalJSON seed s <> "null").
Proof.
  unfold set.MarshalJSON. split.
  - intros He. unfold set.Values. by rewrite He, elements_empty.
  - intros Hne. destruct (set.Values seed s) as [|v l] eqn:Hv.
    + exfalso. apply Hne. apply set_eq. intros x.
      rewrite <- (Values_elem seed s x), Hv. set_solver.
    + split; [done|]. apply array_not_null.
Qed.

(* ===================================================================== *)
(** ** Reading the load status back *)
(* ===================================================================== *)

Import controller.

Lemma first_load_status_find (Sprint : option value -> string)
    (l : list Action) :
  controller.first_load_status Sprint l
  = (fun ia => Sprint (Data ia.2 ≫= fun m => m !! LoadStatus))
      <$> list_find is_load l.
Proof.
  induction l as [|a l IH]; [done|].
  cbn [controller.first_load_status list_find]. unfold is_load at 1.
  destruct (decide (ActionType a = LoadAction)); [done|].
  rewrite IH. by destruct (list_find is_load l) as [[i b]|].
Qed.

Lemma first_load_status_app (Sprint : option value -> string)
    (l k : list Action) :
  list_find is_load l = None ->
  controller.first_load_status Sprint (l ++ k)
  = controller.first_load_status Sprint k.
Proof.
  intros Hnone. apply list_find_None in Hnone.
  induction Hnone as [|a l Ha _ IH]; [done|].
  simpl. by rewrite decide_False.
Qed.

Lemma first_load_status_insert (Sprint : option value -> string)
    (l : list Action) (i : nat) (a a' : Action) :
  list_find is_load l = Some (i, a) -> is_load a' ->
  controller.first_load_status Sprint (<[i := a']> l)
  = Some (Sprint (Data a' ≫= fun m => m !! LoadStatus)).
Proof.
  revert i. induction l as [|b l IH]; intros i; [done|].
  cbn [list_find]. destruct (decide (is_load b)) as [Hb|Hb].
  - intros [= <- <-] Ha'. simpl. by rewrite decide_True.
  - destruct (list_find is_load l) as [[j c]|] eqn:Hfind; [|done].
    simpl. intros [= <- <-] Ha'. simpl. rewrite decide_False by done.
    by apply IH.
Qed.

(** After an update that returned without an error the status reads as
    what was written. *)
Lemma status_after_update (Sprint : option value -> string)
    (status requester : string) (rfc rfc' : RFC) :
  (forall s, Sprint (Some (VStr s)) = s) ->
  RFC_UpdateLoadStatus status requester rfc = (rfc', Returned None) ->
  controller.RFC_GetLoadStatus Sprint rfc' = Some status.
Proof.
  intros HSprint. rewrite UpdateLoadStatus_upsert.
  unfold controller.RFC_GetLoadStatus.
  destruct (list_find is_load (elems (Actions rfc))) as [[i a]|] eqn:Hfind.
  - destruct (overwrite_load status requester a) as [a' c] eqn:Hover.
    cbn [fst snd]. intros [= <- ->]. cbn [Actions set_Actions elems default
                                           from_option id].
    pose proof (overwrite_load_type status requester a) as [Hty _].
    rewrite Hover in Hty. cbn [fst] in Hty.
    apply overwrite_load_returned in Hover as (m & _ & Hdata & _).
    rewrite (first_load_status_insert Sprint _ i a a' Hfind).
    + rewrite Hdata. cbn [mbind option_bind].
      rewrite lookup_insert_ne by done. rewrite lookup_insert.
      by rewrite decide_True, HSprint by done.
    + unfold is_load. rewrite Hty.
      by apply list_find_Some in Hfind as (_ & Ha & _).
  - intros [= <-]. cbn [Actions set_Actions elems default from_option id].
    rewrite first_load_status_app by done. unfold sign.
    destruct (new_load_action_signable status requester) as [sha ->].
    cbn. rewrite decide_True by done. f_equal.
    rewrite lookup_insert. rewrite decide_True by done. apply HSprint.
Qed.

(** X8 (base.go, GetLoadStatus after UpdateLoadStatus).  When
    UpdateLoadStatus returns without an error, GetLoadStatus on the
    resulting RFC gives the status that was written, whether the load
    action was overwritten or appended, and whatever the requester. *)
Theorem GetLoadStatus_reads_last_update (Sprint : option value -> string)
    (status requester : string) (rfc rfc' : RFC) :
  (forall s, Sprint (Some (VStr s)) = s) ->
  RFC_UpdateLoadStatus status requester rfc = (rfc', Returned None) ->
  controller.RFC_GetLoadStatus Sprint rfc' = Some status.
Proof. apply status_after_update. Qed.

Lemma GetLoadStatus_reads_last_update_witness :
  controller.RFC_GetLoadStatus controller.sprint_plain
    (RFC_UpdateLoadStatus "successful" "octocat"
       (RFC_UpdateLoadStatus "loading" "octocat" stored_rfc).1).1
  = Some "successful".
Proof.
  apply (GetLoadStatus_reads_last_update controller.sprint_plain
           "successful" "octocat"
           (RFC_UpdateLoadStatus "loading" "octocat" stored_rfc).1).
  - reflexivity.
  - vm_compute. reflexivity.
Defined.

(** X9 (base.go, GetLoadStatus).  GetLoadStatus gives nil exactly when
    the RFC holds no load action, so never after a call of
    UpdateLoadStatus, however that call ended; when the first load
    action has no data or no status entry, the result is not nil but the
    rendering of the nil value. *)
Theorem GetLoadStatus_absent (Sprint : option value -> string) (rfc : RFC) :
  (controller.RFC_GetLoadStatus Sprint rfc = None <-> count_load rfc = 0%nat)
  /\ (forall status requester,
        controller.RFC_GetLoadStatus Sprint
          (RFC_UpdateLoadStatus status requester rfc).1 <> None)
  /\ (forall i a,
        list_find is_load (elems (Actions rfc)) = Some (i, a) ->
        (Data a ≫= fun m => m !! LoadStatus) = None ->
        controller.RFC_GetLoadStatus Sprint rfc = Some (Sprint None)).
Proof.
  assert (Hiff : forall rfc,
             controller.RFC_GetLoadStatus Sprint rfc = None
             <-> count_load rfc = 0%nat).
  { clear rfc. intros rfc.
    unfold controller.RFC_GetLoadStatus, count_load.
    induction (elems (Actions rfc)) as [|a l IH]; [done|].
    simpl. rewrite filter_cons. unfold is_load at 1.
    destruct (decide (ActionType a = LoadAction)); simpl; [done|apply IH]. }
  split_and!.
  - apply Hiff.
  - intros status requester. rewrite Hiff, UpdateLoadStatus_count. lia.
  - intros i a Hfind Hdata. unfold controller.RFC_GetLoadStatus.
    rewrite first_load_status_find, Hfind. simpl. by rewrite Hdata.
Qed.

(* ===================================================================== *)
(** ** Loading and merging *)
(* ===================================================================== *)

Ltac run_call :=
  match goal with
  | |- context [RFC_UpdateLoadStatus ?s ?u ?r] =>
      let H := fresh "Hupd" in
      destruct (RFC_UpdateLoadStatus s u r) as [? [[?|]|?]] eqn:H
  | |- context [GetUserLogin ?g ?w] =>
      destruct (GetUserLogin g w) as [? [?|?]] eqn:?
  | |- context [GetPullRequest ?g ?b ?w] =>
      destruct (GetPullRequest g b w) as [? [?|?]] eqn:?
  | |- context [GetRFCContents ?g ?b ?w] =>
      destruct (GetRFCContents g b w) as [? [[? ?]|?]] eqn:?
  | |- context [UpdateFile ?g ?p ?r ?w] =>
      destruct (UpdateFile g p r w) as [? [[]|?]] eqn:?
  | |- context [controller.GetMergeability ?g ?p ?w] =>
      destruct (controller.GetMergeability g p w) as [? [[|]|?]] eqn:?
  | |- context [controller.MergePullRequest ?g ?p ?w] =>
      destruct (controller.MergePullRequest g p w) as [? [?|?]] eqn:?
  | |- context [controller.CreateTag ?g ?s ?t ?w] =>
      destruct (controller.CreateTag g s t w) as [? [[]|?]] eqn:?
  | |- context [marshal_RFC ?r] =>
      destruct (marshal_RFC r) as [?|?] eqn:?
  end;
  cbv beta iota zeta delta [fst snd negb].

Ltac run_all := repeat run_call.

Ltac unfold_run :=
  cbv beta iota zeta delta
    [controller.loadRequest controller.mergeRequest controller.MergeRequest
     controller.LoadRequest controller.Status controller.GetRfcContents
     controller.attemptLoadAndMerge
     controller.and_then controller.invoke controller.of_method
     controller.of_result controller.yield controller.spawn fst snd negb].

Ltac read_statuses Sprint HSprint :=
  repeat match goal with
    | H : RFC_UpdateLoadStatus _ _ _ = (_, Returned None) |- _ =>
        apply (status_after_update Sprint) in H; [|exact HSprint]
    end.

Ltac name_events :=
  eexists; split; [rewrite <- ?app_assoc; simpl; reflexivity|];
  cbn [map controller.step_of];
  repeat match goal with
    | H : controller.RFC_GetLoadStatus _ _ = Some _ |- _ => rewrite !H; clear H
    end.

Ltac on_pr := repeat constructor; cbn; by intros ? [= <-].



(** X11 (controller.go, attemptLoadAndMerge).  Whatever the backend
    answers, the calls of attemptLoadAndMerge form a beginning of one of
    two sequences.  Not mergeable: login, write load_requested, check
    mergeability, write not_applicable.  Mergeable: login, write
    load_requested, check mergeability, the sequence of loadRequest
    (login, write loading, write successful), check mergeability again,
    merge, tag with the identifier of the RFC.  So the pull request is
    merged only after the status successful was written and a second
    check, and tagged only after the merge; all calls are on the given
    pull request, and the function returns without an error only after
    one of the two whole sequences. *)
Theorem attemptLoadAndMerge_protocol {W : Type}
    (Sprint : option value -> string)
    (git : controller.FullGit W) (pr : PullRequest) (rfc : RFC)
    (rfcIdentifier : string) (w : W) (trace : list controller.call_event) :
  (forall s, Sprint (Some (VStr s)) = s) ->
  let r := controller.attemptLoadAndMerge git pr rfc rfcIdentifier (w, trace) in
  exists events,
    r.1.2 = trace ++ events
    /\ (map (controller.step_of Sprint) events
          `prefix_of` controller.not_mergeable_run
        \/ map (controller.step_of Sprint) events
          `prefix_of` controller.load_and_merge_run rfcIdentifier)
    /\ (forall u, r.2 = controller.Done (ok u) ->
        map (controller.step_of Sprint) events = controller.not_mergeable_run
        \/ map (controller.step_of Sprint) events
           = controller.load_and_merge_run rfcIdentifier)
    /\ controller.on_pull_request pr events.
Proof.
  intros Sprint_string. unfold_run. run_all.
  all: read_statuses Sprint Sprint_string.
  all: name_events.
  all: split_and!;
    [ first [ left; eexists; reflexivity | right; eexists; reflexivity ]
    | try (intros ? [=]); first [ by left | by right | done ]
    | on_pr ].
Qed.

Lemma attemptLoadAndMerge_protocol_witness :
  exists events,
    (controller.attemptLoadAndMerge controller.scripted_git
       (OtherPullRequest "nil") stored_rfc identifier
       ([true; true], [])).1.2 = [] ++ events
    /\ (map (controller.step_of controller.sprint_plain) events
          `prefix_of` controller.not_mergeable_run
        \/ map (controller.step_of controller.sprint_plain) events
          `prefix_of` controller.load_and_merge_run identifier)
    /\ (forall u,
          (controller.attemptLoadAndMerge controller.scripted_git
             (OtherPullRequest "nil") stored_rfc identifier
             ([true; true], [])).2 = controller.Done (ok u) ->
          map (controller.step_of controller.sprint_plain) events
          = controller.not_mergeable_run
          \/ map (controller.step_of controller.sprint_plain) events
             = controller.load_and_merge_run identifier)
    /\ controller.on_pull_request (OtherPullRequest "nil") events.
Proof.
  apply (attemptLoadAndMerge_protocol controller.sprint_plain
           controller.scripted_git (OtherPullRequest "nil") stored_rfc
           identifier [true; true] []).
  reflexivity.
Defined.

(** The run of the witness above goes through the whole second
    sequence and returns without an error. *)
Example attemptLoadAndMerge_merges :
  let r := controller.attemptLoadAndMerge controller.scripted_git
             (OtherPullRequest "nil") stored_rfc identifier
             ([true; true], []) in
  r.2 = controller.Done (ok tt)
  /\ map (controller.step_of controller.sprint_plain) r.1.2
     = controller.load_and_merge_run identifier.
Proof. vm_compute. done. Qed.

(** X12 (controller.go, attemptLoadAndMerge).  When the pull request is
    mergeable before the load and no longer after it, the RFC stays
    loaded and unmerged: the last status written is successful, no merge
    and no tag are attempted, and the error says so. *)
Theorem attemptLoadAndMerge_loaded_not_merged {W : Type}
    (git : controller.FullGit W) (pr : PullRequest)
    (rfc rfc1 rfc2 rfc3 : RFC) (rfcIdentifier user user' content : string)
    (w w1 w2 w3 w4 w5 w6 w7 : W) (trace : list controller.call_event) :
  GetUserLogin git w = (w1, ok user) ->
  RFC_UpdateLoadStatus controller.LOAD_REQUESTED_STATUS user rfc
  = (rfc1, Returned None) ->
  UpdateFile git pr rfc1 w1 = (w2, ok tt) ->
  controller.GetMergeability git pr w2 = (w3, ok true) ->
  GetUserLogin git w3 = (w4, ok user') ->
  RFC_UpdateLoadStatus controller.LOADING_STATUS user' rfc1
  = (rfc2, Returned None) ->
  UpdateFile git pr rfc2 w4 = (w5, ok tt) ->
  marshal_RFC rfc2 = ok content ->
  RFC_UpdateLoadStatus controller.SUCCESSFUL_STATUS user' rfc2
  = (rfc3, Returned None) ->
  UpdateFile git pr rfc3 w5 = (w6, ok tt) ->
  controller.GetMergeability git pr w6 = (w7, ok false) ->
  controller.attemptLoadAndMerge git pr rfc rfcIdentifier (w, trace)
  = ((w7, trace ++ [controller.Earlier CallGetUserLogin;
                    controller.Earlier (CallUpdateFile pr rfc1);
                    controller.CallGetMergeability pr;
                    controller.Earlier CallGetUserLogin;
                    controller.Earlier (CallUpdateFile pr rfc2);
                    controller.Earlier (CallUpdateFile pr rfc3);
                    controller.CallGetMergeability pr]),
     controller.Done
       (err (Errorf (controller.not_mergeable_after_load rfcIdentifier)))).
Proof.
  intros H1 H2 H3 H4 H5 H6 H7 H8 H9 H10 H11. unfold_run.
  rewrite H1. cbv beta iota zeta. rewrite H2. cbv beta iota zeta.
  rewrite H3. cbv beta iota zeta. rewrite H4. cbv beta iota zeta.
  rewrite H5. cbv beta iota zeta. rewrite H6. cbv beta iota zeta.
  rewrite H7. cbv beta iota zeta. rewrite H8. cbv beta iota zeta.
  rewrite H9. cbv beta iota zeta.
  rewrite H10. cbv beta iota zeta. rewrite H11. cbv beta iota zeta.
  by rewrite <- !app_assoc.
Qed.

Lemma attemptLoadAndMerge_loaded_not_merged_witness :
  let rfc1 := (RFC_UpdateLoadStatus LOAD_REQUESTED_STATUS "octocat"
                 stored_rfc).1 in
  let rfc2 := (RFC_UpdateLoadStatus LOADING_STATUS "octocat" rfc1).1 in
  let rfc3 := (RFC_UpdateLoadStatus SUCCESSFUL_STATUS "octocat" rfc2).1 in
  attemptLoadAndMerge scripted_git (OtherPullRequest "nil") stored_rfc
    identifier ([true; false], [])
  = (([], [] ++ [Earlier CallGetUserLogin;
                 Earlier (CallUpdateFile (OtherPullRequest "nil") rfc1);
                 CallGetMergeability (OtherPullRequest "nil");
                 Earlier CallGetUserLogin;
                 Earlier (CallUpdateFile (OtherPullRequest "nil") rfc2);
                 Earlier (CallUpdateFile (OtherPullRequest "nil") rfc3);
                 CallGetMergeability (OtherPullRequest "nil")]),
     Done (err (Errorf (not_mergeable_after_load identifier)))).
Proof.
  intros rfc1 rfc2 rfc3.
  assert (Hsome : exists content, marshal_RFC rfc2 = ok content).
  { vm_compute. eexists. reflexivity. }
  destruct Hsome as [content Hcontent].
  apply (attemptLoadAndMerge_loaded_not_merged scripted_git
           (OtherPullRequest "nil") stored_rfc rfc1 rfc2 rfc3 identifier
           "octocat" "octocat" content
           [true; false] [true; false] [true; false] [false] [false] [false]
           [false] [] []).
  - reflexivity.
  - vm_compute. reflexivity.
  - reflexivity.
  - reflexivity.
  - reflexivity.
  - vm_compute. reflexivity.
  - reflexivity.
  - exact Hcontent.
  - vm_compute. reflexivity.
  - reflexivity.
  - reflexivity.
Defined.



(** X14 (controller.go, MergeRequest and mergeRequest).  MergeRequest
    reads the pull request of the identifier, merges it and tags the
    commit that the merge returned with the identifier; it never
    panics.  It answers with its message only when the three calls
    succeeded.  It stops at the first failure and returns that error:
    nothing is merged when the pull request cannot be read, nothing is
    tagged when the merge fails, and a failure of the tag leaves the
    pull request merged. *)
Theorem MergeRequest_runs {W : Type} (git : FullGit W) (data : route.Merge)
    (w : W) (trace : list call_event) :
  let id := route.Merge_RFCIdentifier data in
  let r := MergeRequest git data (w, trace) in
  match GetPullRequest git id w with
  | (w1, err e) =>
      r = ((w1, trace ++ [Earlier (CallGetPullRequest id)]), Done (err e))
  | (w1, ok pr) =>
      match MergePullRequest git pr w1 with
      | (w2, err e) =>
          r = ((w2, trace ++ [Earlier (CallGetPullRequest id);
                              CallMergePullRequest pr]), Done (err e))
      | (w2, ok sha) =>
          r = (((CreateTag git sha id w2).1,
                trace ++ [Earlier (CallGetPullRequest id);
                          CallMergePullRequest pr;
                          CallCreateTag sha id]),
               match (CreateTag git sha id w2).2 with
               | ok _ => Done (ok (merged_and_tagged id))
               | err e => Done (err e)
               end)
      end
  end.
Proof.
  intros id r. subst r. unfold_run. fold id.
  destruct (GetPullRequest git id w) as [w1 [pr|e]]; [|done].
  destruct (MergePullRequest git pr w1) as [w2 [sha|e]]; [|by rewrite <- !app_assoc].
  destruct (CreateTag git sha id w2) as [w3 [[]|e]];
    by rewrite <- !app_assoc.
Qed.



(* ===================================================================== *)
(** ** What the load workflow leaves alone *)
(* ===================================================================== *)

Lemma filter_insert_others {A} (P : A -> Prop) `{!forall x, Decision (P x)}
    (l : list A) (i : nat) (a a' : A) :
  l !! i = Some a -> ~ P a -> ~ P a' ->
  filter P (<[i := a']> l) = filter P l.
Proof.
  intros Hi Ha Ha'.
  rewrite insert_take_drop by (by eapply lookup_lt_Some).
  rewrite <- (take_drop_middle l i a Hi) at 3.
  by rewrite !filter_app, !filter_cons, !decide_False by done.
Qed.

Lemma UpdateLoadStatus_besides_load (status requester : string) (rfc : RFC) :
  besides_load (RFC_UpdateLoadStatus status requester rfc).1
  = besides_load rfc.
Proof.
  rewrite UpdateLoadStatus_upsert. unfold besides_load.
  destruct (list_find is_load (elems (Actions rfc))) as [[i a]|] eqn:Hfind;
    cbn [fst Actions set_Actions RFC_Signature Identifier elems default
         from_option id]; do 2 f_equal.
  - apply list_find_Some in Hfind as (Hi & Ha & _).
    apply (filter_insert_others _ _ i a); [done|by intros []|].
    intros []. unfold is_load.
    by rewrite (proj1 (overwrite_load_type status requester a)).
  - rewrite filter_app, filter_cons, decide_False, filter_nil, app_nil_r;
      [done|].
    intros []. unfold sign.
    by destruct (new_load_action_signable status requester) as [sha ->].
Qed.

Ltac keep_besides_load :=
  repeat match goal with
    | H : RFC_UpdateLoadStatus ?s ?u ?r = (?r', _) |- _ =>
        let E := fresh "Hkeep" in
        pose proof (UpdateLoadStatus_besides_load s u r) as E;
        rewrite H in E; cbn [fst] in E; clear H
    end.

(** X28 (controller.go, attemptLoadAndMerge and loadRequest; base.go,
    UpdateLoadStatus).  The load workflow changes nothing but the load
    action.  Whatever the backend answers, every RFC that
    attemptLoadAndMerge or loadRequest writes to the repository holds
    the actions other than load actions of the RFC it was given, in
    their order, and its signature and identifier: the signature of the
    RFC is not taken anew when the load status changes. *)
Theorem load_workflow_keeps_the_ledger {W : Type} (git : FullGit W)
    (pr : PullRequest) (rfc : RFC) (rfcIdentifier : string) (w : W) :
  Forall (fun rfc' => besides_load rfc' = besides_load rfc)
         (written (attemptLoadAndMerge git pr rfc rfcIdentifier (w, [])).1.2)
  /\ Forall (fun rfc' => besides_load rfc' = besides_load rfc)
            (written (loadRequest git pr rfc (w, [])).1.2).
Proof.
  split; unfold_run; run_all; keep_besides_load;
    cbn [app written omap list_omap]; repeat constructor; congruence.
Qed.

(* ===================================================================== *)
(** ** Submitting, updating and reviewing: the runs *)
(* ===================================================================== *)

Lemma sign_each_Forall2 (l l' : list Action) :
  sign_each l = ok l' ->
  Forall2 (fun a a' => Action_ToSha a = ok (Action_Signature a')
                       /\ a' = set_Action_Signature (Action_Signature a') a)
          l l'.
Proof.
  revert l'. induction l as [|a l IH]; intros l'; simpl.
  - intros [= <-]. constructor.
  - destruct (Action_ToSha a) as [sha|e] eqn:Hsha; [|done]. simpl.
    destruct (sign_each l) as [rest|e]; [|done]. simpl.
    intros [= <-]. constructor; [done|by apply IH].
Qed.

(** X16 (controller.go, SubmitRequest, the signing).  The RFC that
    SubmitRequest stores carries as its signature the hash of the
    submission as it came in, taken before the actions are signed; each
    stored action is the submitted action under the hash of the
    submitted action; the identifier, the number and the order of the
    actions are those of the submission. *)
Theorem sign_submission_signs (data data' : RFC) :
  sign_submission data = ok data' ->
  RFC_ToSha data = ok (RFC_Signature data')
  /\ Identifier data' = Identifier data
  /\ (Actions data' = None <-> Actions data = None)
  /\ Forall2 (fun a a' => Action_ToSha a = ok (Action_Signature a')
                          /\ a' = set_Action_Signature (Action_Signature a') a)
             (elems (Actions data)) (elems (Actions data')).
Proof.
  unfold sign_submission.
  destruct (RFC_ToSha data) as [sha|e]; [|done]. simpl.
  destruct (sign_actions (Actions data)) as [acts|e] eqn:Hsign; [|done].
  simpl. intros [= <-]. simpl. split_and!; try done.
  - destruct (Actions data) as [l|]; simpl in Hsign.
    + destruct (sign_each l); simplify_eq/=. done.
    + by simplify_eq/=.
  - apply sign_each_Forall2. by apply sign_actions_elems.
Qed.

Lemma sign_submission_signs_witness :
  RFC_ToSha (mkRFC (Some [entity_add]) EmptyString EmptyString)
  = ok (RFC_Signature stored_rfc)
  /\ Identifier stored_rfc = EmptyString
  /\ (Actions stored_rfc = None <-> Some [entity_add] = None)
  /\ Forall2 (fun a a' => Action_ToSha a = ok (Action_Signature a')
                          /\ a' = set_Action_Signature (Action_Signature a') a)
             [entity_add] (elems (Actions stored_rfc)).
Proof.
  apply (sign_submission_signs
           (mkRFC (Some [entity_add]) EmptyString EmptyString) stored_rfc).
  vm_compute. reflexivity.
Defined.

(** X17 (controller.go, SubmitRequest).  The runs of SubmitRequest
    without compensation.  When the submission cannot be signed, no
    call is made on the backend.  When the branch cannot be created,
    that call is the only one: nothing is deleted.  When branch, file
    and pull request are created, these three calls are the only ones,
    the file holds the signed submission and the identifier of the
    branch is returned. *)
Theorem SubmitRequest_runs {W : Type} (CreateRFCIdentifier : W -> string)
    (git : Git W) (data : RFC) (w : W) (trace : list event) :
  let branch := CreateRFCIdentifier w in
  let r := SubmitRequest CreateRFCIdentifier git data (w, trace) in
  match sign_submission data with
  | err e => r = ((w, trace), err e)
  | ok data' =>
      match CreateBranch git branch BASE_BRANCH w with
      | (w1, err e) =>
          r = ((w1, trace ++ [CallCreateBranch branch BASE_BRANCH]), err e)
      | (w1, ok _) =>
          forall w2 w3,
            CreateFile git branch branch data' w1 = (w2, ok tt) ->
            CreatePullRequest git branch BASE_BRANCH w2 = (w3, ok tt) ->
            r = ((w3, trace ++ [CallCreateBranch branch BASE_BRANCH;
                                CallCreateFile branch branch data';
                                CallCreatePullRequest branch BASE_BRANCH]),
                 ok branch)
      end
  end.
Proof.
  intros branch r. subst r.
  unfold SubmitRequest, controllers.bind, lift, or_revoke, revoke, call, ret.
  destruct (sign_submission data) as [data'|e]; [|done].
  simpl. fold branch.
  destruct (CreateBranch git branch BASE_BRANCH w) as [w1 [[]|e]]; [|done].
  intros w2 w3 Hfile Hpr. simpl. rewrite Hfile. simpl. rewrite Hpr. simpl.
  by rewrite <- !app_assoc.
Qed.


Lemma ReviewRequest_writes_witness :
  let data := comment_review in
  let id := Review_RFCIdentifier data in
  let rfc1 := (RFC_AddComments 0 0 (Comments data) "octocat" stored_rfc).1 in
  let rfc2 :=
    if bool_decide (Type_ data ≠ COMMENT_REVIEW_TYPE
                    ∨ TopLevelComment data ≠ EmptyString)
    then set_Actions
           (Some (elems (Actions rfc1)
                  ++ [sign (review_action data "octocat" rfc1)])) rfc1
    else rfc1 in
  RFC_Signature rfc2 = RFC_Signature stored_rfc
  /\ exists events,
       (ReviewRequest (fun _ => ok stored_rfc) 0 0 (mock all_ok) (mock all_ok)
          data (tt, [])).1.2
       = [] ++ [CallGetPullRequest id; CallGetUserLogin;
                CallGetRFCContents id;
                CallUpdateFile (OtherPullRequest "nil") rfc2] ++ events.
Proof.
  apply (ReviewRequest_writes (fun _ => ok stored_rfc) 0 0
           (mock all_ok) (mock all_ok) comment_review tt tt tt tt []
           (OtherPullRequest "nil") "octocat" ("{}", "junk-sha") stored_rfc).
  - intros (_ & Htop & _). discriminate Htop.
  - reflexivity.
  - reflexivity.
  - reflexivity.
  - reflexivity.
Defined.

(** X20 (controller.go, ReviewRequest).  When ReviewRequest answers with
    a message, it has made five calls: read the pull request, read the
    login, read the RFC file, write the RFC, create the review.  The
    load-and-merge goroutine is started after them, exactly when the
    review is an APPROVE with loadOnApproval set, on the pull request
    read and on the RFC written; the message follows the same test. *)
Theorem ReviewRequest_starts_load {W : Type}
    (json_Unmarshal : string -> result RFC) (seed2 seed3 : nat)
    (git gitMachine : Git W) (data : Review)
    (w w' : W) (trace trace' : list event) (msg : string) :
  let id := Review_RFCIdentifier data in
  let loading :=
    bool_decide (Type_ data = APPROVE_REVIEW_TYPE) && LoadOnApproval data in
  ReviewRequest json_Unmarshal seed2 seed3 git gitMachine data (w, trace)
  = ((w', trace'), ok msg) ->
  exists pr rfc,
    trace' = trace ++ [CallGetPullRequest id; CallGetUserLogin;
                       CallGetRFCContents id; CallUpdateFile pr rfc;
                       CallCreateReview pr data]
                   ++ (if loading then [GoAttemptLoadAndMerge pr rfc id]
                       else [])
    /\ msg = if loading then approved_and_loading id
             else reviewed id (Type_ data).
Proof.
  intros id loading. unfold ReviewRequest. fold id.
  case_bool_decide as Hvalid; [done|].
  unfold controllers.bind, call, lift, lift_method, ret, go.
  destruct (GetPullRequest git id w) as [w1 [pr|e]]; [|done].
  destruct (GetUserLogin git w1) as [w2 [login|e]]; [|done].
  destruct (GetRFCContents git id w2) as [w3 [content|e]]; [|done].
  destruct (json_Unmarshal content.1) as [rfc0|e]; [|done].
  destruct (AddComments_appends seed2 seed3 (Comments data) login rfc0)
    as (rfc1 & added & -> & _).
  destruct (review_action_signable data login rfc1) as [sha Hsha].
  rewrite (AddAction_appends _ _ sha Hsha).
  subst loading.
  case_bool_decide; cbn [fst snd];
    (destruct (UpdateFile git pr _ w3) as [w4 [[]|e]]; [|done]);
    (destruct (CreateReview git pr data w4) as [w5 [[]|e]]; [|done]);
    destruct (bool_decide (Type_ data = APPROVE_REVIEW_TYPE)
              && LoadOnApproval data);
    intros [= <- <- <-]; eexists pr, _; by rewrite <- !app_assoc.
Qed.

Lemma ReviewRequest_starts_load_witness :
  let data := mkReview identifier APPROVE_REVIEW_TYPE EmptyString ∅ true in
  let run := ReviewRequest (fun _ => ok stored_rfc) 0 0
               (mock all_ok) (mock all_ok) data (tt, []) in
  exists pr rfc,
    run.1.2 = [] ++ [CallGetPullRequest identifier; CallGetUserLogin;
                     CallGetRFCContents identifier; CallUpdateFile pr rfc;
                     CallCreateReview pr data]
                 ++ (if bool_decide (Type_ data = APPROVE_REVIEW_TYPE)
                        && LoadOnApproval data
                     then [GoAttemptLoadAndMerge pr rfc identifier]
                     else [])
    /\ approved_and_loading identifier
       = if bool_decide (Type_ data = APPROVE_REVIEW_TYPE)
            && LoadOnApproval data
         then approved_and_loading identifier
         else reviewed identifier (Type_ data).
Proof.
  intros data run.
  apply (ReviewRequest_starts_load (fun _ => ok stored_rfc) 0 0
           (mock all_ok) (mock all_ok) data tt run.1.1 [] run.1.2
           (approved_and_loading identifier)).
  vm_compute. reflexivity.
Defined.

(* ===================================================================== *)
(** ** The cost of a mergeability check *)
(* ===================================================================== *)

(* ===================================================================== *)
(** ** The cost of a mergeability check *)
(* ===================================================================== *)

Lemma polled_refl (c : github_client) : polled 0 0 c c.
Proof. unfold polled, MERGEABILITY_WAIT_TIME. repeat split; lia. Qed.

Lemma polled_trans (n m n' m' : nat) (c1 c2 c3 : github_client) :
  polled n m c1 c2 -> polled n' m' c2 c3 -> polled (n + n') (m + m') c1 c3.
Proof.
  unfold polled, MERGEABILITY_WAIT_TIME.
  intros (-> & -> & ? & ? & ?) (-> & -> & ? & ? & ?).
  repeat split; lia.
Qed.

Lemma poll_combined_status_polled (n : nat) (c : github_client) :
  polled n 0 c (poll_combined_status n c).1.
Proof.
  revert c. induction n as [|n IH]; intros c; [apply polled_refl|].
  cbn [poll_combined_status Repositories_GetCombinedStatus].
  destruct (combined_status c (status_calls c)) as [status|e].
  - case_bool_decide.
    + specialize (IH (Sleep MERGEABILITY_WAIT_TIME
                        (mkClient (combined_status c) (pull_request c)
                                  (S (status_calls c)) (pull_calls c)
                                  (slept c)))).
      revert IH. unfold polled, MERGEABILITY_WAIT_TIME. cbn.
      intros (-> & -> & ? & ? & ?). repeat split; lia.
    + unfold polled, MERGEABILITY_WAIT_TIME. cbn. repeat split; lia.
  - unfold polled, MERGEABILITY_WAIT_TIME. cbn. repeat split; lia.
Qed.

Lemma poll_pull_request_polled (n : nat) (p : github_PullRequest)
    (c : github_client) :
  polled 0 n c (poll_pull_request n p c).1.
Proof.
  revert p c. induction n as [|n IH]; intros p c; [apply polled_refl|].
  cbn [poll_pull_request PullRequests_Get].
  destruct (pull_request c (pull_calls c)) as [p'|e].
  - destruct (still_calculating p').
    + specialize (IH p' (Sleep MERGEABILITY_WAIT_TIME
                           (mkClient (combined_status c) (pull_request c)
                                     (status_calls c) (S (pull_calls c))
                                     (slept c)))).
      revert IH. unfold polled, MERGEABILITY_WAIT_TIME. cbn.
      intros (-> & -> & ? & ? & ?). repeat split; lia.
    + unfold polled, MERGEABILITY_WAIT_TIME. cbn. repeat split; lia.
  - unfold polled, MERGEABILITY_WAIT_TIME. cbn. repeat split; lia.
Qed.

(** X21 (github.go, GetMergeability).  Whatever the API answers, one
    call of GetMergeability asks for the combined status at most three
    times and for the pull request at most three times, waits at most
    ten seconds per call made, so at most a minute in all, and asks for
    the pull request only when the status phase ended without an
    error. *)
Theorem GetMergeability_bounded (pr : PullRequest) (c : github_client) :
  let c' := (GitHub_GetMergeability pr c).1 in
  (status_calls c <= status_calls c' <= status_calls c + 3)%nat
  /\ (pull_calls c <= pull_calls c' <= pull_calls c + 3)%nat
  /\ slept c <= slept c'
     <= slept c + 10 * Z.of_nat ((status_calls c' - status_calls c)
                                 + (pull_calls c' - pull_calls c))
  /\ slept c' <= slept c + 60
  /\ ((poll_combined_status MERGEABILITY_RETRY_COUNT c).2 <> None ->
      pull_calls c' = pull_calls c).
Proof.
  intros c'.
  assert (Hpolled : polled 3 3 c c'
                    /\ ((poll_combined_status MERGEABILITY_RETRY_COUNT c).2
                        <> None -> pull_calls c' = pull_calls c)).
  { subst c'. unfold GitHub_GetMergeability.
    destruct pr as [p|what]; [|split; [|done]].
    2:{ unfold polled, MERGEABILITY_WAIT_TIME. cbn. repeat split; lia. }
    pose proof (poll_combined_status_polled MERGEABILITY_RETRY_COUNT c) as H1.
    destruct (poll_combined_status MERGEABILITY_RETRY_COUNT c) as [c1 [e|]].
    - cbn [fst snd] in *. split.
      + revert H1. unfold polled, MERGEABILITY_RETRY_COUNT. intuition lia.
      + intros _. by destruct H1 as (_ & _ & _ & ? & _); lia.
    - cbn [fst snd] in H1.
      pose proof (poll_pull_request_polled MERGEABILITY_RETRY_COUNT p c1)
        as H2.
      destruct (poll_pull_request MERGEABILITY_RETRY_COUNT p c1)
        as [c2 [p'|e]]; cbn [fst snd] in *.
      + split; [|done].
        destruct (still_calculating p'); cbn [fst];
          apply (polled_trans 3 0 0 3 c c1 c2 H1 H2).
      + split; [|done]. apply (polled_trans 3 0 0 3 c c1 c2 H1 H2). }
  destruct Hpolled as [(_ & _ & ? & ? & Hs) Hnone].
  unfold MERGEABILITY_WAIT_TIME in Hs. split_and!; try lia. exact Hnone.
Qed.

(* ===================================================================== *)
(** ** The GitHub implementation *)
(* ===================================================================== *)



Lemma draft_comments_Body (path : string) (entries : list (string * list string)) :
  github.Body <$> github.draft_comments path entries = flat_map snd entries.
Proof.
  induction entries as [|[k cmts] entries IH]; [done|].
  cbn [github.draft_comments flat_map snd].
  rewrite fmap_app, <- list_fmap_compose.
  fold (github.draft_comments path entries). rewrite IH. f_equal.
  by induction cmts as [|c cmts IHc]; [|cbn; f_equal].
Qed.

Lemma draft_comments_Forall (path : string)
    (entries : list (string * list string)) :
  Forall (fun c => github.Path c = path /\ github.Position c = 1)
         (github.draft_comments path entries).
Proof.
  induction entries as [|[k cmts] entries IH]; [constructor|].
  cbn [github.draft_comments flat_map]. apply Forall_app. split; [|exact IH].
  apply Forall_fmap, Forall_forall. done.
Qed.

(** X23 (github.go, CreateReview).  On a GitHub pull request one review
    is requested, of the type of the review data.  Every comment string
    of the data becomes one draft comment, whatever the signature it
    was given under and in whatever order the map is visited: all draft
    comments are on the first line of the file RFC/<identifier>/RFC.json.
    The body is set exactly when there is a top-level comment.  On a
    pull request of another type no request is sent. *)
Theorem CreateReview_drafts {W : Type} (api : github.Client W) (seed : nat)
    (pr : PullRequest) (data : Review) (s : W * list github.request) :
  let r := github.GitHub_CreateReview api seed pr data s in
  match pr with
  | GitHubPullRequest githubPr =>
      exists param,
        r.1.2 = s.2 ++ [github.CreateReview (Number githubPr) param]
        /\ r.2 = (github.PullRequests_CreateReview api (Number githubPr)
                    param s.1).2
        /\ github.Event param = Type_ data
        /\ github.Request_Body param
           = (if decide (TopLevelComment data = EmptyString) then None
              else Some (TopLevelComment data))
        /\ github.Body <$> github.Request_Comments param
           ≡ₚ comment_strings data
        /\ Forall (fun c =>
                     github.Path c
                     = "RFC/" +:+ Review_RFCIdentifier data +:+ "/RFC.json"
                     /\ github.Position c = 1)
                  (github.Request_Comments param)
  | OtherPullRequest _ => r.1 = s /\ is_ok r.2 = false
  end.
Proof.
  destruct pr as [p|what]; [|done].
  cbv zeta. unfold github.GitHub_CreateReview, github.send.
  eexists. 
  destruct (github.PullRequests_CreateReview api (Number p) _ s.1)
    as [w' res] eqn:Hres.
  cbn [fst snd]. split; [reflexivity|]. rewrite Hres. cbn [snd github.Event
    github.Request_Body github.Request_Comments].
  split_and!; try done.
  - by destruct (decide (TopLevelComment data = EmptyString));
      [rewrite decide_False by (by intros []) | rewrite decide_True].
  - rewrite draft_comments_Body. unfold comment_strings, range_map.
    apply Permutation_flat_map, permute_Permutation.
  - apply draft_comments_Forall.
Qed.

(* ===================================================================== *)
(** ** Listing pull requests *)
(* ===================================================================== *)

Lemma is_valid_passes (opts : list github.FilterOption)
    (d : github.PullRequestDetails) :
  github.is_valid opts d = true <-> passes opts d.
Proof.
  unfold github.is_valid, passes.
  assert (Hgen : forall b,
             fold_left (fun isValid opt => isValid && opt (github.Listed d))
                       opts b = true
             <-> b = true /\ Forall (fun opt => opt (github.Listed d) = true) opts).
  { induction opts as [|opt opts IH]; intros b; simpl.
    - split; [by intros ->|by intros [-> _]].
    - rewrite IH, andb_true_iff, Forall_cons. tauto. }
  rewrite Hgen. tauto.
Qed.

Lemma serialize_spec (count : Z) (opts : list github.FilterOption)
    (results : list github.PullRequestDetails) (prs : github.PullRequests)
    (retrieved : Z) :
  retrieved = Z.of_nat (length prs) ->
  exists added,
    github.serialize count opts results prs retrieved
    = (prs ++ (github.Listed <$> added),
       Z.of_nat (length (prs ++ (github.Listed <$> added))))
    /\ Forall (passes opts) added
    /\ (count <> -1 ->
        Z.of_nat (length (prs ++ (github.Listed <$> added)))
        <= Z.max (Z.of_nat (length prs)) count).
Proof.
  revert prs retrieved. induction results as [|d results IH];
    intros prs retrieved ->.
  - exists []. cbn. rewrite app_nil_r. split_and!; [done|constructor|lia].
  - cbn [github.serialize fold_left].
    destruct (github.is_valid opts d
              && (bool_decide (Z.of_nat (length prs) < count)
                  || bool_decide (count = -1))) eqn:Hkeep.
    + apply andb_true_iff in Hkeep as [Hvalid Hroom].
      apply is_valid_passes in Hvalid.
      destruct (IH (prs ++ [github.Listed d]) (Z.of_nat (length prs) + 1))
        as (added & Hrun & Hpass & Hlen).
      { rewrite length_app. cbn. lia. }
      exists (d :: added).
      split_and!;
        [etrans; [exact Hrun|]; cbn [fmap list_fmap];
         by rewrite <- !app_assoc
        |by constructor|].
      cbn [fmap list_fmap].
      intros Hcount. specialize (Hlen Hcount).
      rewrite !length_app in Hlen. rewrite !length_app.
      cbn [length] in *.
      apply orb_true_iff in Hroom as [Hlt|Heq].
      * apply bool_decide_eq_true in Hlt. lia.
      * apply bool_decide_eq_true in Heq. done.
    + destruct (IH prs (Z.of_nat (length prs)) eq_refl)
        as (added & Hrun & Hpass & Hlen).
      exists added. split_and!; [exact Hrun|done|done].
Qed.

Lemma retrieve_spec {W : Type} (api : github.Client W) (last : Z)
    (fuel : nat) (state : string) (count perPage : Z)
    (opts : list github.FilterOption) (pageNumber : Z)
    (prs : github.PullRequests) (retrieved : Z)
    (s : W * list github.request) :
  paged api last ->
  (Z.to_nat (last - pageNumber) < fuel)%nat ->
  retrieved = Z.of_nat (length prs) ->
  let r := github.retrieve api fuel state count perPage opts pageNumber prs
             retrieved s in
  exists res requests,
    r.2 = Some res
    /\ r.1.2 = s.2 ++ requests
    /\ listings state perPage requests
    /\ (bool_decide (retrieved < count) || bool_decide (count = -1) = false ->
        requests = [] /\ res = ok prs)
    /\ (forall prs', res = ok prs' ->
        exists added,
          prs' = prs ++ (github.Listed <$> added)
          /\ Forall (passes opts) added
          /\ (count <> -1 ->
              Z.of_nat (length prs') <= Z.max (Z.of_nat (length prs)) count)).
Proof.
  intros Hpaged. cbv zeta.
  revert pageNumber prs retrieved s.
  induction fuel as [|fuel IH]; intros pageNumber prs retrieved s Hfuel ->;
    [lia|].
  cbn [github.retrieve].
  destruct (bool_decide (Z.of_nat (length prs) < count)
            || bool_decide (count = -1)) eqn:Hloop.
  2:{ exists (ok prs), []. cbn. rewrite app_nil_r.
      split_and!; [done|done|constructor|done|].
      intros prs' [= <-]. exists []. cbn. rewrite app_nil_r.
      split_and!; [done|constructor|lia]. }
  unfold github.send.
  destruct (github.PullRequests_List api state pageNumber perPage s.1)
    as [w' [[results next]|e]] eqn:Hlist.
  2:{ exists (err e), [github.ListPullRequests state pageNumber perPage].
      cbn [fst snd]. split_and!; [done|done| |congruence|done].
      constructor; [by eexists|constructor]. }
  destruct (serialize_spec count opts results prs (Z.of_nat (length prs))
              eq_refl) as (added & Hser & Hpass & Hlen).
  rewrite Hser.
  destruct (bool_decide (next = 0)) eqn:Hnext.
  - exists (ok (prs ++ (github.Listed <$> added))),
      [github.ListPullRequests state pageNumber perPage].
    cbn [fst snd]. split_and!; [done|done| |congruence|].
    + constructor; [by eexists|constructor].
    + intros prs' [= <-]. by exists added.
  - apply bool_decide_eq_false in Hnext.
    destruct (Hpaged _ _ _ _ _ _ _ Hlist) as [?|Hlater]; [done|].
    destruct (IH next (prs ++ (github.Listed <$> added))
                (Z.of_nat (length (prs ++ (github.Listed <$> added))))
                (w', s.2 ++ [github.ListPullRequests state pageNumber perPage]))
      as (res & requests & Hres & Htrace & Hreqs & _ & Hok); [lia|done|].
    exists res, (github.ListPullRequests state pageNumber perPage :: requests).
    split_and!; [done| | |congruence|].
    + rewrite Htrace. cbn [fst snd]. by rewrite <- app_assoc.
    + constructor; [by eexists|done].
    + intros prs' Hprs'. destruct (Hok prs' Hprs') as (more & -> & Hmore & Hbound).
      exists (added ++ more). rewrite fmap_app, app_assoc.
      split_and!; [done|by apply Forall_app|].
      intros Hcount. specialize (Hbound Hcount). specialize (Hlen Hcount). lia.
Qed.

Lemma GetPullRequests_spec {W : Type} (api : github.Client W) (last : Z)
    (fuel : nat) (state : string) (count : Z)
    (opts : list github.FilterOption) (s : W * list github.request) :
  paged api last ->
  (Z.to_nat (last - 1) < fuel)%nat ->
  let r := github.GitHub_GetPullRequests api fuel state count opts s in
  let state' :=
    if decide (state = EmptyString) then github.ALL_PR_FILTER else state in
  let perPage := if decide (count = -1) then 100 else Z.min count 100 in
  exists res requests,
    r.2 = Some res
    /\ r.1.2 = s.2 ++ requests
    /\ listings state' perPage requests
    /\ (count = 0 \/ count < -1 -> requests = [] /\ res = ok [])
    /\ (forall prs, res = ok prs ->
        exists ds,
          prs = github.Listed <$> ds
          /\ Forall (passes opts) ds
          /\ (count <> -1 -> Z.of_nat (length prs) <= Z.max 0 count)).
Proof.
  intros Hpaged Hfuel. cbv zeta. unfold github.GitHub_GetPullRequests.
  destruct (retrieve_spec api last fuel
              (if decide (state = EmptyString) then github.ALL_PR_FILTER
               else state)
              count (if decide (count ≠ -1) then Z.min count 100 else 100)
              opts 1 [] 0 s Hpaged Hfuel eq_refl)
    as (res & requests & Hres & Htrace & Hreqs & Hnone & Hok).
  exists res, requests. split_and!; [done|done| | |done].
  - destruct (decide (count = -1)) as [->|Hc]; [done|].
    by destruct (decide (count ≠ -1)).
  - intros Hcount. apply Hnone.
    rewrite (bool_decide_eq_false_2 (0 < count)) by lia.
    by rewrite (bool_decide_eq_false_2 (count = -1)) by lia.
Qed.

(** X24 (github.go, GetPullRequests).  When the listing of the API is
    paged up to some last page, GetPullRequests returns.  Each of its
    requests lists the pull requests in the given state (all, for the
    empty state) by pages of the smaller of count and 100 (of 100 when
    count is -1).  The pull requests returned are GitHub pull requests
    that pass every filter and, unless count is -1, at most count of
    them; for a count of 0 or below -1 nothing is requested and nothing
    returned. *)
Theorem GetPullRequests_count_and_filters {W : Type} (api : github.Client W)
    (last : Z) (fuel : nat) (state : string) (count : Z)
    (opts : list github.FilterOption) (s : W * list github.request) :
  paged api last ->
  (Z.to_nat (last - 1) < fuel)%nat ->
  let r := github.GitHub_GetPullRequests api fuel state count opts s in
  let state' :=
    if decide (state = EmptyString) then github.ALL_PR_FILTER else state in
  let perPage := if decide (count = -1) then 100 else Z.min count 100 in
  exists res requests,
    r.2 = Some res
    /\ r.1.2 = s.2 ++ requests
    /\ listings state' perPage requests
    /\ (count = 0 \/ count < -1 -> requests = [] /\ res = ok [])
    /\ (forall prs, res = ok prs ->
        exists ds,
          prs = github.Listed <$> ds
          /\ Forall (passes opts) ds
          /\ (count <> -1 -> Z.of_nat (length prs) <= Z.max 0 count)).
Proof. apply GetPullRequests_spec. Qed.

Lemma paged_one_page (results : list github.PullRequestDetails)
    (teams : list string) : paged (one_page results teams) 1.
Proof. intros state page perPage w w' res next [= _ _ <-]. by left. Qed.

Lemma GetPullRequests_count_and_filters_witness :
  let api := one_page [octocat_open; hubot_merged; octocat_open] [] in
  let r := github.GitHub_GetPullRequests api 1 "open" 1
             [github.WithOwner (Some "octocat")] (tt, []) in
  exists res requests,
    r.2 = Some res
    /\ r.1.2 = [] ++ requests
    /\ listings "open" 1 requests
    /\ (1 = 0 \/ 1 < -1 -> requests = [] /\ res = ok [])
    /\ (forall prs, res = ok prs ->
        exists ds,
          prs = github.Listed <$> ds
          /\ Forall (passes [github.WithOwner (Some "octocat")]) ds
          /\ (1 <> -1 -> Z.of_nat (length prs) <= Z.max 0 1)).
Proof.
  intros api r.
  apply (GetPullRequests_count_and_filters api 1 1 "open" 1
           [github.WithOwner (Some "octocat")] (tt, [])).
  - apply paged_one_page.
  - simpl. lia.
Defined.




(** The run of the witness above: the two pull requests of octocat, in
    the order of the page. *)
Example GetRfcs_of_octocat :
  (github.GetRfcs (one_page [octocat_open; hubot_merged; octocat_open] []) 1
     (route.mkGetRfcs (-1) "open" (Some "octocat") (Some false)) (tt, [])).2
  = Some (ok [ {[ "1700000000" := "Add an entity" ]};
               {[ "1700000000" := "Add an entity" ]} ]).
Proof. reflexivity. Qed.

(* ===================================================================== *)
(** ** The teams of the user *)
(* ===================================================================== *)

Lemma add_names_vals (ghTeams : list string) (teams : set.Set_ string) :
  set.impl teams = set.Mutable ->
  let teams' := fold_left (fun teams name => (set.Add [name] teams).1)
                          ghTeams teams in
  set.impl teams' = set.Mutable
  /\ set.vals teams' = list_to_set ghTeams ∪ set.vals teams.
Proof.
  cbv zeta. revert teams. induction ghTeams as [|name rest IH]; intros teams Hm.
  - split; [done|]. set_solver.
  - cbn [fold_left].
    destruct (IH (set.Add [name] teams).1) as [Himpl Hvals].
    { unfold set.Add. by rewrite Hm. }
    split; [done|]. rewrite Hvals. unfold set.Add. rewrite Hm. cbn.
    set_solver.
Qed.

Lemma list_teams_spec {W : Type} (api : github.Client W)
    (names : Z -> list string) (next : Z -> Z) (last : Z) (fuel : nat)
    (page : Z) (teams : set.Set_ string) (s : W * list github.request) :
  serves_teams api names next last ->
  (Z.to_nat (last - page) < fuel)%nat ->
  set.impl teams = set.Mutable ->
  exists teams' requests,
    github.list_teams api fuel page teams s
    = ((s.1, s.2 ++ requests), Some (ok teams'))
    /\ set.impl teams' = set.Mutable
    /\ (forall x, x ∈ set.vals teams' <->
                  x ∈ set.vals teams
                  \/ exists q, reach next page q /\ x ∈ names q)
    /\ (forall req, req ∈ requests <->
                    exists q, reach next page q
                              /\ req = github.ListUserTeams q 100).
Proof.
  intros [Hserves Hnext].
  revert page teams s. induction fuel as [|fuel IH];
    intros page teams s Hfuel Hm; [lia|].
  cbn [github.list_teams]. case_bool_decide as Hpage.
  2:{ subst page.
      exists teams, []. rewrite app_nil_r. split_and!.
      - by destruct s.
      - done.
      - intros x. split; [by left|]. intros [?|(q & Hq & _)]; [done|].
        by inversion Hq.
      - intros req. split; [by intros ?%elem_of_nil|].
        intros (q & Hq & _). by inversion Hq. }
  unfold github.send. rewrite Hserves.
  destruct (add_names_vals (names page) teams Hm) as [Himpl Hvals].
  destruct (Hnext page) as [Hend|Hlater].
  - rewrite Hend.
    assert (Hdone : forall T (s' : W * list github.request),
               github.list_teams api fuel 0 T s' = (s', Some (ok T))).
    { intros T s'. by destruct fuel. }
    rewrite Hdone. eexists _, [github.ListUserTeams page 100].
    cbn [fst snd]. split_and!; [done|done| |].
    + intros x. rewrite Hvals, elem_of_union, elem_of_list_to_set.
      split.
      * intros [Hx|Hx]; [|by left].
        right. exists page. split; [by constructor|done].
      * intros [Hx|(q & Hq & Hx)]; [by right|].
        inversion Hq; subst; [by left|].
        rewrite Hend in *. by match goal with
                              | H : reach _ 0 _ |- _ => inversion H
                              end.
    + intros req. rewrite elem_of_cons, elem_of_nil. split.
      * intros [->|[]]. exists page. split; [by constructor|done].
      * intros (q & Hq & ->). inversion Hq; subst; [by left|].
        rewrite Hend in *. by match goal with
                              | H : reach _ 0 _ |- _ => inversion H
                              end.
  - destruct (IH (next page) _ (s.1, s.2 ++ [github.ListUserTeams page 100])
                ltac:(lia) Himpl)
      as (teams' & requests & Hrun & Hm' & Hin & Hreq).
    exists teams', (github.ListUserTeams page 100 :: requests).
    rewrite Hrun. cbn [fst snd]. rewrite <- app_assoc.
    split_and!; [done|done| |].
    + intros x. rewrite Hin, Hvals, elem_of_union, elem_of_list_to_set.
      split.
      * intros [[Hx|Hx]|(q & Hq & Hx)].
        -- right. exists page. split; [by constructor|done].
        -- by left.
        -- right. exists q. split; [by apply reach_step|done].
      * intros [Hx|(q & Hq & Hx)]; [left; by right|].
        inversion Hq; subst.
        -- left. by left.
        -- right. by exists q.
    + intros req. rewrite elem_of_cons, Hreq. split.
      * intros [->|(q & Hq & ->)].
        -- exists page. split; [by constructor|done].
        -- exists q. split; [by apply reach_step|done].
      * intros (q & Hq & ->). inversion Hq; subst; [by left|].
        right. by exists q.
Qed.

(** X26 (github.go, GetUserTeams).  When the API lists the teams by
    pages, each followed by a later page or by none, GetUserTeams
    returns a mutable set that holds exactly the names on the pages
    visited from page 1 on, each name once however often it is listed;
    it has requested exactly these pages, by 100 entries, and has left
    the API as it was. *)
Theorem GetUserTeams_collects {W : Type} (api : github.Client W)
    (names : Z -> list string) (next : Z -> Z) (last : Z) (fuel : nat)
    (s : W * list github.request) :
  serves_teams api names next last ->
  (Z.to_nat (last - 1) < fuel)%nat ->
  exists teams requests,
    github.GitHub_GetUserTeams api fuel s
    = ((s.1, s.2 ++ requests), Some (ok teams))
    /\ set.impl teams = set.Mutable
    /\ (forall x, set.Contains x teams = true <->
                  exists q, reach next 1 q /\ x ∈ names q)
    /\ (forall req, req ∈ requests <->
                    exists q, reach next 1 q
                              /\ req = github.ListUserTeams q 100).
Proof.
  intros Hserves Hfuel. unfold github.GitHub_GetUserTeams.
  destruct (list_teams_spec api names next last fuel 1 set.NewSet s
              Hserves Hfuel eq_refl)
    as (teams & requests & Hrun & Hm & Hin & Hreq).
  exists teams, requests. split_and!; [done|done| |done].
  intros x. rewrite Contains_true, Hin. cbn. set_solver.
Qed.

Lemma GetUserTeams_collects_witness :
  let api := one_page [] ["disney/streaming"; "disney/harmonia";
                          "disney/streaming"] in
  exists teams requests,
    github.GitHub_GetUserTeams api 1 (tt, [])
    = ((tt, [] ++ requests), Some (ok teams))
    /\ set.impl teams = set.Mutable
    /\ (forall x, set.Contains x teams = true <->
                  exists q, reach (fun _ => 0) 1 q
                            /\ x ∈ (fun _ : Z => ["disney/streaming";
                                                  "disney/harmonia";
                                                  "disney/streaming"]) q)
    /\ (forall req, req ∈ requests <->
                    exists q, reach (fun _ => 0) 1 q
                              /\ req = github.ListUserTeams q 100).
Proof.
  intros api.
  apply (GetUserTeams_collects api
           (fun _ => ["disney/streaming"; "disney/harmonia";
                      "disney/streaming"])
           (fun _ => 0) 1 1 (tt, [])).
  - split; [by intros ? []|by left].
  - simpl. lia.
Defined.

(* ===================================================================== *)
(** ** The response that lists the RFCs *)
(* ===================================================================== *)

Lemma string_app_cons (c : ascii) (s t : string) :
  String c s +:+ t = String c (s +:+ t).
Proof. reflexivity. Qed.

Lemma string_app_assoc (s1 s2 s3 : string) :
  (s1 +:+ s2) +:+ s3 = s1 +:+ (s2 +:+ s3).
Proof.
  induction s1 as [|c s1 IH]; [done|].
  by rewrite !string_app_cons, IH.
Qed.

Lemma string_app_nil_r (s : string) : s +:+ EmptyString = s.
Proof.
  induction s as [|c s IH]; [done|]. by rewrite string_app_cons, IH.
Qed.

Lemma TrimRight_brace (s : string) :
  response.TrimRight (s +:+ "}") = response.TrimRight s.
Proof.
  induction s as [|c s IH]; [done|].
  rewrite string_app_cons. cbn [response.TrimRight]. by rewrite IH.
Qed.

Lemma TrimRight_clean (s : string) (c : ascii) :
  response.in_cutset c = false ->
  response.TrimRight (s +:+ String c EmptyString) = s +:+ String c EmptyString.
Proof.
  intros Hc. induction s as [|a s IH].
  - change (EmptyString +:+ String c EmptyString) with (String c EmptyString).
    cbn [response.TrimRight]. by rewrite Hc.
  - rewrite string_app_cons. cbn [response.TrimRight]. rewrite IH.
    by destruct s.
Qed.

Lemma Trim_braces (t : string) :
  response.Trim ("{" +:+ (json.dq +:+ t +:+ json.dq) +:+ "}")
  = json.dq +:+ t +:+ json.dq.
Proof.
  unfold response.Trim.
  change (response.TrimLeft ("{" +:+ (json.dq +:+ t +:+ json.dq) +:+ "}"))
    with ((json.dq +:+ t +:+ json.dq) +:+ "}").
  rewrite TrimRight_brace.
  rewrite <- (string_app_assoc json.dq t json.dq).
  by apply TrimRight_clean.
Qed.

Lemma insert_sorted_Forall (P : string * string -> Prop)
    (kv : string * string) (l : list (string * string)) :
  P kv -> Forall P l -> Forall P (json.insert_sorted kv l).
Proof.
  intros Hkv. induction 1 as [|kv' l Hkv' Hl IH]; cbn.
  - by repeat constructor.
  - destruct (String.leb kv.1 kv'.1); repeat constructor; done.
Qed.

Lemma sort_keys_Forall (P : string * string -> Prop)
    (l : list (string * string)) :
  Forall P l -> Forall P (json.sort_keys l).
Proof.
  induction 1 as [|kv l Hkv Hl IH]; [constructor|].
  cbn. by apply insert_sorted_Forall.
Qed.

Lemma concat_members_quoted (kvs : list (string * string)) :
  Forall (fun kv => exists v, kv.2 = json.quote v) kvs ->
  kvs = []
  \/ exists t, String.concat "," ((fun kv => json.member kv.1 kv.2) <$> kvs)
               = json.dq +:+ t +:+ json.dq.
Proof.
  induction 1 as [|[k x] kvs [v Hv] Hkvs IH]; [by left|]. right.
  cbn in Hv. subst x. cbn [fmap list_fmap String.concat fst snd].
  assert (Hmember : exists t, json.member k (json.quote v)
                              = json.dq +:+ t +:+ json.dq).
  { unfold json.member, json.quote.
    exists (json.escape k +:+ json.dq +:+ ":" +:+ json.dq +:+ json.escape v).
    by rewrite !string_app_assoc. }
  destruct Hmember as [t Ht].
  destruct IH as [->|[t' Ht']]; [by exists t|].
  destruct kvs as [|kv kvs]; [by exists t|].
  change (list_fmap _ _ ?f (kv :: kvs)) with (f <$> kv :: kvs).
  rewrite Ht', Ht.
  exists (t +:+ json.dq +:+ "," +:+ json.dq +:+ t').
  by rewrite !string_app_assoc.
Qed.

Lemma Trim_marshal_entry (rfc : option (gmap string string)) :
  response.Trim (response.marshal_entry rfc) = members rfc.
Proof.
  destruct rfc as [rfc|]; [|done].
  unfold response.marshal_entry, members, json.object.
  destruct (concat_members_quoted
              (json.sort_keys (map_to_list (json.quote <$> rfc))))
    as [->|[t ->]].
  - apply sort_keys_Forall, Forall_forall. intros [k x] Hin.
    apply elem_of_map_to_list in Hin.
    apply lookup_fmap_Some in Hin as (v & <- & _). by exists v.
  - done.
  - apply Trim_braces.
Qed.

Lemma append_entries_concat (rfcs : list (option (gmap string string)))
    (marshaled : string) :
  response.append_entries rfcs marshaled
  = marshaled +:+ String.concat "," (members <$> rfcs).
Proof.
  unfold response.append_entries.
  assert (Hgen : forall (l : list (option (gmap string string))) (n : Z)
                        (acc : string) (i : Z),
             i + Z.of_nat (length l) = n ->
             (fold_left
                (fun '(marshaled, i) rfc =>
                   let marshaled :=
                     marshaled +:+ response.Trim (response.marshal_entry rfc) in
                   (if bool_decide (i < n - 1)
                    then marshaled +:+ "," else marshaled, i + 1))
                l (acc, i)).1
             = acc +:+ String.concat "," (members <$> l)).
  { induction l as [|rfc l IH]; intros n acc i Hn.
    - cbn. by rewrite string_app_nil_r.
    - cbn [fold_left]. cbv zeta. rewrite Trim_marshal_entry.
      rewrite (IH n) by (cbn [length] in Hn; lia).
      destruct l as [|rfc' l].
      + rewrite bool_decide_eq_false_2 by (cbn in Hn; lia).
        cbn. by rewrite string_app_nil_r.
      + rewrite bool_decide_eq_true_2 by (cbn in Hn; lia).
        cbn [fmap list_fmap String.concat].
        by rewrite !string_app_assoc. }
  apply Hgen. lia.
Qed.

(** X27 (the response models, RFCs.MarshalJSON).  The list of RFCs is
    rendered as one object: under "rfcs", between one pair of braces,
    the members of all entries in the order of the list, separated by
    commas, and then the count when there is one.  Trimming the braces
    off an entry removes exactly its outer pair: no brace of a key or of
    a title is lost.  An entry without a member leaves nothing between
    its commas, and a nil map leaves the word null. *)
Theorem RFCs_MarshalJSON_members (r : response.RFCs) :
  response.RFCs_MarshalJSON r
  = "{" +:+ json.quote "rfcs" +:+ ": {"
    +:+ String.concat "," (members <$> response.RFCs_RFCs r)
    +:+ "}"
    +:+ match response.RFCs_Count r with
        | Some c => ", " +:+ json.quote "count" +:+ ": " +:+ pretty c
        | None => EmptyString
        end
    +:+ "}".
Proof.
  unfold response.RFCs_MarshalJSON. rewrite append_entries_concat.
  destruct (response.RFCs_Count r) as [c|]; cbn;
    by rewrite ?string_app_assoc.
Qed.

(** The entries that GetIdsAndTitles builds have one member each. *)
Lemma members_singleton (id title : string) :
  members (Some {[ id := title ]})
  = json.quote id +:+ ":" +:+ json.quote title.
Proof.
  unfold members. rewrite map_fmap_singleton, map_to_list_singleton. done.
Qed.

Example RFCs_MarshalJSON_example :
  response.RFCs_MarshalJSON
    (response.mkRFCs [ Some {[ "1700000000" := "Add {entity}" ]};
                       Some {[ "1700000001" := "Remove an entity" ]} ]
                     (Some 2))
  = "{" +:+ json.dq +:+ "rfcs" +:+ json.dq +:+ ": {"
    +:+ json.dq +:+ "1700000000" +:+ json.dq +:+ ":"
    +:+ json.dq +:+ "Add {entity}" +:+ json.dq +:+ ","
    +:+ json.dq +:+ "1700000001" +:+ json.dq +:+ ":"
    +:+ json.dq +:+ "Remove an entity" +:+ json.dq
    +:+ "}, " +:+ json.dq +:+ "count" +:+ json.dq +:+ ": 2}".
Proof. vm_compute. reflexivity. Qed.
